(** * Offline-first synchronisation engine of the POS terminal

    A shallow embedding of [src/lib/sync.ts] (class [SyncService]) together
    with the parts of its environment that the engine talks to: the Local
    Store ([./db]), the Remote Store (Supabase, whose tables are declared
    in the SQL schema of the repository) and the connectivity events of the
    browser.

    Asynchronous methods are written in a small monad that threads the
    world (engine fields, Local Store, Remote Store), can raise and catch
    exceptions, and records a trace of the observable actions. *)

From stdpp Require Import gmap strings list.
From Stdlib Require Import ZArith.

Open Scope string_scope.
Open Scope list_scope.

(** ** Data model *)

(** An entry of [transaction.items]; only the fields read by the engine.
    Prices are carried around and never computed with, they are kept in
    minor units. *)
Record CartItem := {
  item_id : string;
  item_name : string;
  item_price : Z;
  item_quantity : Z
}.

(** [Transaction] of [../types], with the fields [sync.ts] reads. *)
Record Transaction := {
  tx_id : string;
  tx_date : string;
  tx_subtotal : Z;
  tx_tax : Z;
  tx_total : Z;
  tx_status : string;
  tx_items : list CartItem
}.

(** [Product]; the columns of table [products]. *)
Record Product := {
  prod_id : string;
  prod_name : string;
  prod_description : string;
  prod_price : Z;
  prod_stock : Z;
  prod_category : string;
  prod_image : string
}.

(** The singleton record read by [db.getSyncState()]: [sync.ts] reads and
    writes [lastSync], reads [pendingTransactions] (an array of ids) and
    reads [isOnline]. Time stamps are numbers. *)
Record SyncState := {
  lastSync : option nat;
  pendingTransactions : list string;
  isOnline : bool
}.

(** The three collections of the Local Store. *)
Record LocalStore := {
  products : gmap string Product;
  transactions : gmap string Transaction;
  syncState : SyncState
}.

(** A row of table [transactions]: [id UUID PRIMARY KEY]. *)
Record TransactionRow := {
  row_id : string;
  row_user_id : string;
  row_date : string;
  row_subtotal : Z;
  row_tax : Z;
  row_total : Z;
  row_status : string
}.

(** What the engine sends for one line item: the object literal built by
    [transaction.items.map(...)]. It carries no [id]. *)
Record ItemPayload := {
  pl_transaction_id : string;
  pl_product_id : string;
  pl_name : string;
  pl_price : Z;
  pl_quantity : Z
}.

(** A row of table [transaction_items]:
    [id UUID PRIMARY KEY DEFAULT gen_random_uuid()], and no other unique
    constraint. Generated keys are numbered. *)
Record ItemRow := {
  ir_id : nat;
  ir_payload : ItemPayload
}.

(** The Remote Store: the three tables, and the supply of generated keys. *)
Record RemoteStore := {
  r_products : list Product;
  r_transactions : gmap string TransactionRow;
  r_transaction_items : list ItemRow;
  r_next_item_id : nat
}.

(** The mutable fields of [SyncService]. [maxRetries] and [retryDelay] are
    assigned once, in the constructor, and are constants below. [dbState],
    which [init] loads, is read by no method and is left out. *)
Record SyncService := {
  svc_isOnline : bool;
  svc_isSyncing : bool
}.

Definition maxRetries : nat := 3.
Definition retryDelay : nat := 5000. (* milliseconds: 5 seconds *)

(** The world an operation runs in. [calls] counts the exchanges with the
    Remote Store so far, [now] is the clock, and [confirmed] is a history
    variable: the ids for which a delivery completed both writes without
    error. It is never read by the engine. *)
Record World := {
  service : SyncService;
  db : LocalStore;
  supabase : RemoteStore;
  calls : nat;
  now : nat;
  confirmed : list string
}.

(** ** The environment *)

(** What the Remote Store answers during one delivery attempt: the
    authenticated user if any, and the [error] field of each upsert. An
    error may be ambiguous: with [resp_transactionLanded], or with
    [resp_itemsLanded], the write was done and only the answer was lost. *)
Record Response := {
  resp_user : option string;
  resp_transactionError : option string;
  resp_transactionLanded : bool;
  resp_itemsError : option string;
  resp_itemsLanded : bool
}.

(** The answers are not under the engine's control: the environment gives,
    for the [n]-th exchange, the answer to a delivery of a given
    transaction id, and the error of a product query if it fails. *)
Record Env := {
  env_response : nat -> string -> Response;
  env_productsError : nat -> option string
}.

(** Observable actions. *)
Inductive Event :=
| EvLocalSave (id : string)
| EvAttempt (id : string) (attempt : nat)
| EvGetUser (found : bool)
| EvUpsertTransaction (id : string) (ok : bool)
| EvUpsertItems (id : string) (ok : bool)
| EvSleep (ms : nat)
| EvExhausted (id : string)
| EvFailed (id : string)
| EvSelectProducts (ok : bool).

(** ** The monad of asynchronous methods *)

Inductive Result (A : Type) :=
| Ok (a : A)
| Throw (msg : string).
Arguments Ok {A} a.
Arguments Throw {A} msg.

Definition M (A : Type) : Type := World -> Result A * World * list Event.

Definition ret {A} (a : A) : M A := fun w => (Ok a, w, []).

Definition bind {A B} (m : M A) (k : A -> M B) : M B := fun w =>
  match m w with
  | (Ok a, w1, t1) =>
      match k a w1 with
      | (r, w2, t2) => (r, w2, t1 ++ t2)
      end
  | (Throw e, w1, t1) => (Throw e, w1, t1)
  end.

Definition throw {A} (msg : string) : M A := fun w => (Throw msg, w, []).

(** [try { m } catch (error) { h error }] *)
Definition try_catch {A} (m : M A) (h : string -> M A) : M A := fun w =>
  match m w with
  | (Ok a, w1, t1) => (Ok a, w1, t1)
  | (Throw e, w1, t1) =>
      match h e w1 with
      | (r, w2, t2) => (r, w2, t1 ++ t2)
      end
  end.

(** [try { m } finally { f }], for an [f] that does not raise. *)
Definition try_finally {A} (m : M A) (f : World -> World) : M A := fun w =>
  match m w with
  | (r, w1, t1) => (r, f w1, t1)
  end.

Definition emit (e : Event) : M unit := fun w => (Ok tt, w, [e]).
Definition gets {A} (f : World -> A) : M A := fun w => (Ok (f w), w, []).
Definition modify (f : World -> World) : M unit := fun w => (Ok tt, f w, []).

Declare Scope sync_scope.
Delimit Scope sync_scope with sync.
Notation "'let*' x ':=' m 'in' k" := (bind m (fun x => k))
  (at level 10, x name, m at level 100, k at level 200) : sync_scope.
Notation "m ;;; k" := (bind m (fun _ => k))
  (at level 100, k at level 200, right associativity) : sync_scope.
Open Scope sync_scope.

Fixpoint mapM {A B} (f : A -> M B) (l : list A) : M (list B) :=
  match l with
  | [] => ret []
  | a :: l' => let* b := f a in let* bs := mapM f l' in ret (b :: bs)
  end.

(** [for (const x of l) { body x }] *)
Fixpoint forM_ {A} (l : list A) (body : A -> M unit) : M unit :=
  match l with
  | [] => ret tt
  | a :: l' => body a ;;; forM_ l' body
  end.

Definition run_result {A} (x : Result A * World * list Event) : Result A := x.1.1.
Definition run_world {A} (x : Result A * World * list Event) : World := x.1.2.
Definition run_trace {A} (x : Result A * World * list Event) : list Event := x.2.

(** ** World updates *)

Definition set_db (f : LocalStore -> LocalStore) (w : World) : World :=
  {| service := service w; db := f (db w); supabase := supabase w;
     calls := calls w; now := now w; confirmed := confirmed w |}.

Definition set_supabase (f : RemoteStore -> RemoteStore) (w : World) : World :=
  {| service := service w; db := db w; supabase := f (supabase w);
     calls := calls w; now := now w; confirmed := confirmed w |}.

Definition set_service (f : SyncService -> SyncService) (w : World) : World :=
  {| service := f (service w); db := db w; supabase := supabase w;
     calls := calls w; now := now w; confirmed := confirmed w |}.

Definition tick (w : World) : World :=
  {| service := service w; db := db w; supabase := supabase w;
     calls := S (calls w); now := now w; confirmed := confirmed w |}.

Definition advance (ms : nat) (w : World) : World :=
  {| service := service w; db := db w; supabase := supabase w;
     calls := calls w; now := now w + ms; confirmed := confirmed w |}.

Definition note_confirmed (id : string) (w : World) : World :=
  {| service := service w; db := db w; supabase := supabase w;
     calls := calls w; now := now w; confirmed := id :: confirmed w |}.

Definition set_isOnline (b : bool) (s : SyncService) : SyncService :=
  {| svc_isOnline := b; svc_isSyncing := svc_isSyncing s |}.

Definition set_isSyncing (b : bool) (s : SyncService) : SyncService :=
  {| svc_isOnline := svc_isOnline s; svc_isSyncing := b |}.

(** ** The Local Store, [./db] *)

Module Db.

(** Modelled from the spec: [db.getSyncState] of the missing [lib/db.ts];
    reads the singleton SyncState record. *)
Definition getSyncState : M SyncState := gets (fun w => syncState (db w)).

(** Modelled from the spec: [db.updateSyncState] of the missing
    [lib/db.ts]; replaces the singleton SyncState record. *)
Definition updateSyncState (state : SyncState) : M unit :=
  modify (set_db (fun d =>
    {| products := products d; transactions := transactions d; syncState := state |})).

(** Modelled from the spec: [db.saveTransaction] of the missing
    [lib/db.ts]; Transactions are keyed by id. *)
Definition saveTransaction (transaction : Transaction) : M unit :=
  modify (set_db (fun d =>
    {| products := products d;
       transactions := <[tx_id transaction := transaction]> (transactions d);
       syncState := syncState d |})) ;;;
  emit (EvLocalSave (tx_id transaction)).

(** Modelled from the spec: [db.getTransaction] of the missing
    [lib/db.ts]; the record with that id, if there is one. *)
Definition getTransaction (id : string) : M (option Transaction) :=
  gets (fun w => transactions (db w) !! id).

(** Modelled from the spec: adding an id to the set
    [pendingTransactionIds] of the SyncState record; an id already in the
    set is not added again. *)
Definition add_pending (id : string) (s : SyncState) : SyncState :=
  {| lastSync := lastSync s;
     pendingTransactions :=
       if bool_decide (id ∈ pendingTransactions s) then pendingTransactions s
       else pendingTransactions s ++ [id];
     isOnline := isOnline s |}.

(** Modelled from the spec: taking an id out of the set
    [pendingTransactionIds] of the SyncState record. *)
Definition remove_pending (id : string) (s : SyncState) : SyncState :=
  {| lastSync := lastSync s;
     pendingTransactions :=
       filter (fun p => p ≠ id) (pendingTransactions s);
     isOnline := isOnline s |}.

Arguments add_pending : simpl never.
Arguments remove_pending : simpl never.

(** Modelled from the spec: [db.addPendingTransaction] of the missing
    [lib/db.ts]; [pendingTransactionIds] is a set of ids, kept in
    insertion order. *)
Definition addPendingTransaction (id : string) : M unit :=
  modify (set_db (fun d =>
    {| products := products d; transactions := transactions d;
       syncState := add_pending id (syncState d) |})).

(** Modelled from the spec: [db.removePendingTransaction] of the missing
    [lib/db.ts]; takes the id out of the set. *)
Definition removePendingTransaction (id : string) : M unit :=
  modify (set_db (fun d =>
    {| products := products d; transactions := transactions d;
       syncState := remove_pending id (syncState d) |})).

(** Modelled from the spec: [db.clearProducts] of the missing
    [lib/db.ts]; empties the product cache. *)
Definition clearProducts : M unit :=
  modify (set_db (fun d =>
    {| products := ∅; transactions := transactions d; syncState := syncState d |})).

(** Modelled from the spec: the put of one product into the cache of the
    missing [lib/db.ts], keyed by the product's id. *)
Definition put_product (m : gmap string Product) (p : Product) : gmap string Product :=
  <[prod_id p := p]> m.

(** Modelled from the spec: [db.saveProduct] of the missing [lib/db.ts];
    Products are keyed by id. *)
Definition saveProduct (product : Product) : M unit :=
  modify (set_db (fun d =>
    {| products := put_product (products d) product;
       transactions := transactions d; syncState := syncState d |})).

(** Modelled from the spec: [db.saveProducts] of the missing [lib/db.ts];
    the bulk save of a fetched set, one put per product. *)
Definition saveProducts (ps : list Product) : M unit :=
  modify (set_db (fun d =>
    {| products := foldl put_product (products d) ps;
       transactions := transactions d; syncState := syncState d |})).

End Db.

(** ** The Remote Store, as [sync.ts] uses it *)

Module Supabase.

(** The generated primary keys of freshly inserted item rows. *)
Fixpoint number_rows (next : nat) (rows : list ItemPayload) : list ItemRow :=
  match rows with
  | [] => []
  | p :: ps => {| ir_id := next; ir_payload := p |} :: number_rows (S next) ps
  end.

(** [upsert] on [transactions]: the row carries its primary key [id], so
    a row with that key is overwritten and otherwise the row is inserted. *)
Definition put_transaction (row : TransactionRow) (s : RemoteStore) : RemoteStore :=
  {| r_products := r_products s;
     r_transactions := <[row_id row := row]> (r_transactions s);
     r_transaction_items := r_transaction_items s;
     r_next_item_id := r_next_item_id s |}.

(** [update_product_stock()] of the schema (lines 174-182), fired
    [AFTER INSERT ON transaction_items] for the row [row], on one row of
    [products]: [SET stock = stock - NEW.quantity WHERE id =
    NEW.product_id]. This is the trigger of a statement that the Remote
    Store has done, so the lowered stock was in the range of the column;
    [Schema.update_product_stock] has the check. *)
Definition lower_stock (row : ItemPayload) (p : Product) : Product :=
  if String.eqb (prod_id p) (pl_product_id row) then
    {| prod_id := prod_id p; prod_name := prod_name p;
       prod_description := prod_description p; prod_price := prod_price p;
       prod_stock := (prod_stock p - pl_quantity row)%Z;
       prod_category := prod_category p; prod_image := prod_image p |}
  else p.

(** The table [products] after the trigger ran for an inserted row. *)
Definition sell (ps : list Product) (row : ItemPayload) : list Product :=
  map (lower_stock row) ps.

(** [upsert] on [transaction_items], once the Remote Store has done it:
    a row conflicts with a stored row of the same primary key only. The
    rows sent carry no [id], each gets the column default, a key no stored
    row has, and is inserted; the trigger of the schema then lowers the
    stock of its product. *)
Definition put_items (rows : list ItemPayload) (s : RemoteStore) : RemoteStore :=
  {| r_products := foldl sell (r_products s) rows;
     r_transactions := r_transactions s;
     r_transaction_items :=
       r_transaction_items s ++ number_rows (r_next_item_id s) rows;
     r_next_item_id := r_next_item_id s + length rows |}.

Section WithEnv.
Variable env : Env.

(** A delivery of transaction [id] starts: the answers of the Remote
    Store for this exchange. *)
Definition respond (id : string) : M Response := fun w =>
  (Ok (env_response env (calls w) id), tick w, []).

(** [supabase.auth.getUser()] *)
Definition auth_getUser (r : Response) : M (option string) :=
  emit (EvGetUser (bool_decide (is_Some (resp_user r)))) ;;;
  ret (resp_user r).

(** [supabase.from('transactions').upsert(row)], giving back [error]. *)
Definition upsert_transactions (r : Response) (row : TransactionRow)
  : M (option string) :=
  match resp_transactionError r with
  | Some e =>
      (if resp_transactionLanded r
       then modify (set_supabase (put_transaction row))
       else ret tt) ;;;
      emit (EvUpsertTransaction (row_id row) false) ;;;
      ret (Some e)
  | None =>
      modify (set_supabase (put_transaction row)) ;;;
      emit (EvUpsertTransaction (row_id row) true) ;;;
      ret None
  end.

(** [supabase.from('transaction_items').upsert(rows)], giving back
    [error]; [id] is the transaction the rows belong to. *)
Definition upsert_transaction_items (r : Response) (id : string)
    (rows : list ItemPayload) : M (option string) :=
  match resp_itemsError r with
  | Some e =>
      (if resp_itemsLanded r then modify (set_supabase (put_items rows))
       else ret tt) ;;;
      emit (EvUpsertItems id false) ;;;
      ret (Some e)
  | None =>
      modify (set_supabase (put_items rows)) ;;;
      emit (EvUpsertItems id true) ;;;
      ret None
  end.

(** [supabase.from('products').select('*')], giving back
    [{ data, error }]. *)
Definition select_products : M (option (list Product) * option string) :=
  fun w =>
    match env_productsError env (calls w) with
    | Some e => (Ok (None, Some e), tick w, [EvSelectProducts false])
    | None =>
        (Ok (Some (r_products (supabase w)), None), tick w,
         [EvSelectProducts true])
    end.

End WithEnv.
End Supabase.

(** ** [SyncService] *)

(** The declared result type of [getTransactionSyncStatus]:
    ['synced' | 'pending' | 'error']. *)
Inductive SyncStatus := Synced | Pending | Error.

(** [new SyncService()]: the fields after the constructor ran, where
    [onLine] is [navigator.onLine]. *)
Definition constructor (onLine : bool) : SyncService :=
  {| svc_isOnline := onLine; svc_isSyncing := false |}.

Definition with_lastSync (t : nat) (state : SyncState) : SyncState :=
  {| lastSync := Some t;
     pendingTransactions := pendingTransactions state;
     isOnline := isOnline state |}.

Definition toPayload (id : string) (item : CartItem) : ItemPayload :=
  {| pl_transaction_id := id;
     pl_product_id := item_id item;
     pl_name := item_name item;
     pl_price := item_price item;
     pl_quantity := item_quantity item |}.

Section Engine.
Variable env : Env.

(** One delivery of a transaction, the statements of lines 169-212 and,
    again, of lines 250-293: the user, the transaction row, then the item
    rows. The last line only records the history variable. *)
Definition uploadTransaction (transaction : Transaction) : M unit :=
  let* r := Supabase.respond env (tx_id transaction) in
  let* user := Supabase.auth_getUser r in
  match user with
  | None => throw "No authenticated user found"
  | Some user_id =>
      let supabaseTransaction :=
        {| row_id := tx_id transaction;
           row_user_id := user_id;
           row_date := tx_date transaction;
           row_subtotal := tx_subtotal transaction;
           row_tax := tx_tax transaction;
           row_total := tx_total transaction;
           row_status := tx_status transaction |} in
      let* transactionError :=
        Supabase.upsert_transactions r supabaseTransaction in
      match transactionError with
      | Some e => throw e
      | None =>
          let transactionItems :=
            map (toPayload (tx_id transaction)) (tx_items transaction) in
          let* itemsError :=
            Supabase.upsert_transaction_items r (tx_id transaction)
              transactionItems in
          match itemsError with
          | Some e => throw e
          | None => modify (note_confirmed (tx_id transaction))
          end
      end
  end.

(** The body of [while (retries < this.maxRetries)]: [None] is [break],
    [Some (retries, lastError)] goes round the loop again. *)
Definition retryBody (transaction : Transaction) (retries : nat)
  : M (option (nat * string)) :=
  try_catch
    (emit (EvAttempt (tx_id transaction) (retries + 1)) ;;;
     uploadTransaction transaction ;;;
     Db.removePendingTransaction (tx_id transaction) ;;;
     ret None)
    (fun error =>
       let retries := retries + 1 in
       (if (retries =? maxRetries)%nat
        then emit (EvExhausted (tx_id transaction))
        else emit (EvSleep retryDelay) ;;; modify (advance retryDelay)) ;;;
       ret (Some (retries, error))).

(** The [while] loop; it gives back [retries] and [lastError]. [fuel]
    bounds the number of rounds, [maxRetries] rounds are always enough. *)
Fixpoint retryLoop (fuel : nat) (transaction : Transaction)
    (retries : nat) (lastError : option string) : M (nat * option string) :=
  match fuel with
  | O => ret (retries, lastError)
  | S fuel' =>
      if (retries <? maxRetries)%nat then
        let* next := retryBody transaction retries in
        match next with
        | None => ret (retries, lastError)
        | Some (retries', error) =>
            retryLoop fuel' transaction retries' (Some error)
        end
      else ret (retries, lastError)
  end.

(** The body of [for (const transaction of pendingTransactions)]. *)
Definition syncOne (transaction : option Transaction) : M unit :=
  match transaction with
  | None => ret tt
  | Some transaction =>
      let* out := retryLoop maxRetries transaction 0 None in
      if (out.1 =? maxRetries)%nat && bool_decide (is_Some out.2)
      then emit (EvFailed (tx_id transaction))
      else ret tt
  end.

Definition _syncTransactions : M unit :=
  let* state := Db.getSyncState in
  let* pendingTransactions :=
    mapM Db.getTransaction (pendingTransactions state) in
  forM_ pendingTransactions syncOne.

Definition syncProducts (forceRefresh : bool) : M unit :=
  try_catch
    (let* res := Supabase.select_products env in
     match res.2 with
     | Some message => throw ("Failed to fetch products: " +:+ message)
     | None =>
         match res.1 with
         | None | Some [] => ret tt
         | Some supabaseProducts =>
             if forceRefresh then
               Db.clearProducts ;;;
               Db.saveProducts supabaseProducts
             else
               forM_ supabaseProducts Db.saveProduct
         end
     end)
    (fun error => throw error).

(** [state = await db.getSyncState(); state.lastSync = ...;
    await db.updateSyncState(state)] *)
Definition stampLastSync : M unit :=
  let* state := Db.getSyncState in
  let* t := gets now in
  Db.updateSyncState (with_lastSync t state).

(** The guard of [sync]: [!this.isOnline || this.isSyncing]. *)
Definition skipsSync (s : SyncService) : bool :=
  negb (svc_isOnline s) || svc_isSyncing s.

Definition sync : M unit :=
  let* s := gets service in
  if skipsSync s then ret tt
  else
    modify (set_service (set_isSyncing true)) ;;;
    try_finally
      (try_catch
         (syncProducts true ;;;
          _syncTransactions ;;;
          stampLastSync)
         (fun error => ret tt))
      (set_service (set_isSyncing false)).

Definition syncTransactions : M unit :=
  let* s := gets service in
  if negb (svc_isOnline s) then throw "Cannot sync transactions while offline"
  else if svc_isSyncing s then throw "Sync already in progress"
  else
    modify (set_service (set_isSyncing true)) ;;;
    try_finally
      (try_catch
         (_syncTransactions ;;;
          stampLastSync)
         (fun error => throw error))
      (set_service (set_isSyncing false)).

Definition saveTransaction (transaction : Transaction) : M unit :=
  Db.saveTransaction transaction ;;;
  let* state := Db.getSyncState in
  if isOnline state then
    try_catch
      (uploadTransaction transaction ;;;
       let* t := gets now in
       Db.updateSyncState (with_lastSync t state))
      (fun error =>
         Db.addPendingTransaction (tx_id transaction) ;;;
         throw error)
  else
    Db.addPendingTransaction (tx_id transaction) ;;;
    throw "Offline mode: Transaction saved locally".

(** [saveTransaction] cut at its first exchange with the Remote Store.
    Lines 243-245: the local save and the read of the SyncState, which
    the method keeps in its variable [state]. *)
Definition saveTransaction_read (transaction : Transaction) : M SyncState :=
  Db.saveTransaction transaction ;;;
  Db.getSyncState.

(** Lines 246-312, run with the [state] read at line 245: the success
    path assigns [state.lastSync] and stores that object
    ([db.updateSyncState(state)], line 299), where [sync] reads the
    SyncState again before it stores it (line 68). *)
Definition saveTransaction_push (transaction : Transaction) (state : SyncState)
  : M unit :=
  if isOnline state then
    try_catch
      (uploadTransaction transaction ;;;
       let* t := gets now in
       Db.updateSyncState (with_lastSync t state))
      (fun error =>
         Db.addPendingTransaction (tx_id transaction) ;;;
         throw error)
  else
    Db.addPendingTransaction (tx_id transaction) ;;;
    throw "Offline mode: Transaction saved locally".

Definition getTransactionSyncStatus (transactionId : string) : M SyncStatus :=
  let* state := Db.getSyncState in
  if bool_decide (transactionId ∈ pendingTransactions state)
  then ret Pending
  else ret Synced.

Definition getLastSyncTime : M (option nat) :=
  let* state := Db.getSyncState in
  ret (lastSync state).

(** The listener of [window]'s ['online'] event. *)
Definition onOnline : M unit :=
  modify (set_service (set_isOnline true)) ;;;
  sync.

(** The listener of [window]'s ['offline'] event. *)
Definition onOffline : M unit :=
  modify (set_service (set_isOnline false)).

End Engine.

(** ** Vocabulary of the statements *)

(** A delivery attempt fails when there is no user or when one of the two
    writes gives an error. *)
Definition failed (r : Response) : bool :=
  match resp_user r, resp_transactionError r, resp_itemsError r with
  | Some _, None, None => false
  | _, _, _ => true
  end.

(** The Remote Store never accepts a delivery of transaction [id]. *)
Definition always_fails (env : Env) (id : string) : Prop :=
  forall n, failed (env_response env n id) = true.

Definition pendingIds (w : World) : list string :=
  pendingTransactions (syncState (db w)).

Definition is_attempt (id : string) (e : Event) : bool :=
  match e with
  | EvAttempt id' _ => bool_decide (id' = id)
  | _ => false
  end.

(** The attempts and the waits of a trace. *)
Definition is_schedule (e : Event) : bool :=
  match e with
  | EvAttempt _ _ | EvSleep _ => true
  | _ => false
  end.

(** The events of an exchange with the Remote Store. *)
Definition is_remote (e : Event) : bool :=
  match e with
  | EvGetUser _ | EvUpsertTransaction _ _ | EvUpsertItems _ _
  | EvSelectProducts _ => true
  | _ => false
  end.

(** The local effect of storing a transaction and queueing its id. *)
Definition saved_pending (transaction : Transaction) (d : LocalStore) : LocalStore :=
  {| products := products d;
     transactions := <[tx_id transaction := transaction]> (transactions d);
     syncState := Db.add_pending (tx_id transaction) (syncState d) |}.

(** The local effect of taking an id out of the pending set. *)
Definition removed_pending (id : string) (d : LocalStore) : LocalStore :=
  {| products := products d;
     transactions := transactions d;
     syncState := Db.remove_pending id (syncState d) |}.

(** What the drain pass can do with one transaction: nothing that the
    Local Store sees, or deliver it and take its id out of the pending
    set. *)
Definition unchanged_or_delivered (id : string) (w w1 : World) : Prop :=
  service w1 = service w /\
  ((db w1 = db w /\ confirmed w1 = confirmed w) \/
   (db w1 = removed_pending id (db w) /\ confirmed w1 = id :: confirmed w)).

(** Transactions are stored under their own id. *)
Definition keyed (w : World) : Prop :=
  forall k t, transactions (db w) !! k = Some t -> tx_id t = k.

(** An event that is not an attempt to deliver [id]. *)
Definition foreign (id : string) (e : Event) : Prop := is_attempt id e = false.

(** ** Histories of the engine *)

(** A fresh installation: nothing stored, nothing pending. [onLine] is
    [navigator.onLine] when the service is constructed and [hint] the
    flag found in the stored SyncState. *)
Definition initial (onLine hint : bool) (remote : RemoteStore) : World :=
  {| service := constructor onLine;
     db := {| products := ∅; transactions := ∅;
              syncState := {| lastSync := None; pendingTransactions := [];
                              isOnline := hint |} |};
     supabase := remote;
     calls := 0; now := 0; confirmed := [] |}.

(** What can happen to the service: the three public operations, which
    the spec calls persistTransaction, reconcile and drainPending, and the
    two connectivity events. *)
Inductive Op :=
| OpSaveTransaction (transaction : Transaction)
| OpSync
| OpSyncTransactions
| OpOnline
| OpOffline.

Definition run_op (env : Env) (op : Op) : M unit :=
  match op with
  | OpSaveTransaction transaction => saveTransaction env transaction
  | OpSync => sync env
  | OpSyncTransactions => syncTransactions env
  | OpOnline => onOnline env
  | OpOffline => onOffline
  end.

(** The states reached from a fresh installation by operations that
    [allowed] admits, each run to its end before the next starts: the
    histories in which no two asynchronous methods overlap. A call whose
    exchanges with the Remote Store overlap other operations is
    [overlapped], below. *)
Inductive reachable (env : Env) (allowed : World -> Op -> Prop) : World -> Prop :=
| reach_initial onLine hint remote :
    reachable env allowed (initial onLine hint remote)
| reach_step w op :
    reachable env allowed w ->
    allowed w op ->
    reachable env allowed (run_world (run_op env op w)).

Definition any_op (w : World) (op : Op) : Prop := True.

(** Every sale is saved once: [saveTransaction] is called with an id that
    is not in the Local Store yet. *)
Definition fresh_ids (w : World) (op : Op) : Prop :=
  match op with
  | OpSaveTransaction transaction =>
      transactions (db w) !! tx_id transaction = None
  | _ => True
  end.

(** The pending set is exactly the set of stored transactions whose
    delivery was not confirmed. *)
Definition pending_exact (w : World) : Prop :=
  forall id,
    id ∈ pendingIds w <->
    is_Some (transactions (db w) !! id) /\ id ∉ confirmed w.

Definition invariant (w : World) : Prop :=
  keyed w /\
  NoDup (pendingIds w) /\
  pending_exact w /\
  (forall id, id ∈ confirmed w -> is_Some (transactions (db w) !! id)).

(** The world after the operations [ops], called in this order, each run
    to its end before the next is called. *)
Definition run_ops (env : Env) (ops : list Op) (w : World) : World :=
  foldl (fun w op => run_world (run_op env op w)) w ops.

Definition is_save (id : string) (op : Op) : bool :=
  match op with
  | OpSaveTransaction transaction => bool_decide (tx_id transaction = id)
  | _ => false
  end.

(** How many times [saveTransaction] was called for the id. *)
Definition saves (id : string) (ops : list Op) : nat :=
  length (List.filter (is_save id) ops).


(** A call of [saveTransaction] that overlaps other operations: the
    method saves locally and reads the SyncState, the operations
    [between] run, each to its end, while its first exchange with the
    Remote Store is awaited, and the method then goes on with the [state]
    it had read. With [between] empty this is [saveTransaction]. *)
Definition overlapped (env : Env) (transaction : Transaction)
    (between : list Op) (w : World) : World :=
  let started := saveTransaction_read transaction w in
  match run_result started with
  | Ok state =>
      run_world
        (saveTransaction_push env transaction state
           (run_ops env between (run_world started)))
  | Throw _ => run_world started
  end.

(** ** Passes in flight *)

(** [sync] and [syncTransactions] test and assign [isSyncing] before their
    first [await], so the test and the assignment happen in one step; the
    pass then runs while other events are handled, and its [finally] block
    clears the flag. [fl_running] counts the passes that have started and
    not yet reached their [finally]. *)
Record Flight := {
  fl_service : SyncService;
  fl_running : nat
}.

Inductive FlightEvent :=
| CallSync
| CallSyncTransactions
| PassEnds
| GoesOnline
| GoesOffline.

Definition enter_pass (f : Flight) : Flight :=
  {| fl_service := set_isSyncing true (fl_service f);
     fl_running := S (fl_running f) |}.

Definition call_sync (f : Flight) : Flight :=
  if skipsSync (fl_service f) then f else enter_pass f.

Definition flight_step (f : Flight) (e : FlightEvent) : Flight :=
  match e with
  | CallSync => call_sync f
  | CallSyncTransactions =>
      if negb (svc_isOnline (fl_service f)) then f
      else if svc_isSyncing (fl_service f) then f
      else enter_pass f
  | PassEnds =>
      match fl_running f with
      | O => f
      | S n =>
          {| fl_service := set_isSyncing false (fl_service f);
             fl_running := n |}
      end
  | GoesOnline =>
      call_sync {| fl_service := set_isOnline true (fl_service f);
                   fl_running := fl_running f |}
  | GoesOffline =>
      {| fl_service := set_isOnline false (fl_service f);
         fl_running := fl_running f |}
  end.

Definition flight_start (onLine : bool) : Flight :=
  {| fl_service := constructor onLine; fl_running := 0 |}.

Definition flight_run (onLine : bool) (es : list FlightEvent) : Flight :=
  foldl flight_step (flight_start onLine) es.

(** The flag tells whether a pass is in flight. *)
Definition flight_ok (f : Flight) : Prop :=
  fl_running f = if svc_isSyncing (fl_service f) then 1 else 0.

(** ** The product cache *)

(** The cache holds exactly the products of [ps], each under its id. *)
Definition cache_is (cache : gmap string Product) (ps : list Product) : Prop :=
  forall k p, cache !! k = Some p <-> p ∈ ps /\ prod_id p = k.

(** ** Properties kept by the methods *)

(** [m] keeps [P]. *)
Definition preserves {A} (P : World -> Prop) (m : M A) : Prop :=
  forall w, P w -> P (run_world (m w)).

(** A property of the world that no write of the engine can break: it
    only looks at parts of the world the engine never assigns. *)
Record stable (P : World -> Prop) : Prop := {
  stable_db_products : forall w f,
    P w -> P (set_db (fun d =>
      {| products := f (products d); transactions := transactions d;
         syncState := syncState d |}) w);
  stable_db_state : forall w f,
    P w ->
    (forall s, isOnline (f s) = isOnline s) ->
    P (set_db (fun d =>
      {| products := products d; transactions := transactions d;
         syncState := f (syncState d) |}) w);
  stable_supabase : forall w f, P w -> P (set_supabase f w);
  stable_isSyncing : forall w b, P w -> P (set_service (set_isSyncing b) w);
  stable_tick : forall w, P w -> P (tick w);
  stable_advance : forall w ms, P w -> P (advance ms w);
  stable_confirmed : forall w id, P w -> P (note_confirmed id w)
}.

(** ** Worlds and environments used as examples *)

Definition emptyRemote : RemoteStore :=
  {| r_products := []; r_transactions := ∅; r_transaction_items := [];
     r_next_item_id := 0 |}.

(** The sale of the end-to-end scenario: two coffees at 2.99. *)
Definition coffee : CartItem :=
  {| item_id := "P1"; item_name := "Coffee"; item_price := 299;
     item_quantity := 2 |}.

Definition T1 : Transaction :=
  {| tx_id := "T1"; tx_date := "2024-05-01T10:00:00Z"; tx_subtotal := 598;
     tx_tax := 30; tx_total := 628; tx_status := "completed";
     tx_items := [coffee] |}.

Definition T2 : Transaction :=
  {| tx_id := "T2"; tx_date := "2024-05-01T10:05:00Z"; tx_subtotal := 299;
     tx_tax := 15; tx_total := 314; tx_status := "completed";
     tx_items := [{| item_id := "P1"; item_name := "Coffee";
                     item_price := 299; item_quantity := 1 |}] |}.

Definition accepted : Response :=
  {| resp_user := Some "U1"; resp_transactionError := None;
     resp_transactionLanded := false;
     resp_itemsError := None; resp_itemsLanded := false |}.

Definition rejected : Response :=
  {| resp_user := Some "U1"; resp_transactionError := Some "network error";
     resp_transactionLanded := false;
     resp_itemsError := None; resp_itemsLanded := false |}.

(** Both writes are done, the answer to the second one is lost. *)
Definition answerLost : Response :=
  {| resp_user := Some "U1"; resp_transactionError := None;
     resp_transactionLanded := false;
     resp_itemsError := Some "network error"; resp_itemsLanded := true |}.

(** The Remote Store accepts every delivery. *)
Definition envUp : Env :=
  {| env_response := fun _ _ => accepted; env_productsError := fun _ => None |}.

(** The Remote Store rejects every delivery. *)
Definition envDown : Env :=
  {| env_response := fun _ _ => rejected; env_productsError := fun _ => None |}.

(** The Remote Store rejects every delivery of ["T1"] and accepts the
    others. *)
Definition envT1Down : Env :=
  {| env_response := fun _ id => if String.eqb id "T1" then rejected else accepted;
     env_productsError := fun _ => None |}.

(** The answer of the first exchange is lost, the later exchanges
    succeed. *)
Definition envLostAnswer : Env :=
  {| env_response := fun n _ => if (n =? 0)%nat then answerLost else accepted;
     env_productsError := fun _ => None |}.

(** The first exchange fails, the later ones succeed. *)
Definition envFlaky : Env :=
  {| env_response := fun n _ => if (n =? 0)%nat then rejected else accepted;
     env_productsError := fun _ => None |}.

(** Two sales made while the stored flag says offline: both are pending. *)
Definition twoPending : World :=
  run_world (saveTransaction envDown T2
    (run_world (saveTransaction envDown T1 (initial true false emptyRemote)))).

(** The same sale saved twice: the first push fails, the second one
    succeeds. *)
Definition resaved : World :=
  run_world (saveTransaction envFlaky T1
    (run_world (saveTransaction envFlaky T1 (initial true true emptyRemote)))).

Definition mkProduct (id name : string) (price : Z) : Product :=
  {| prod_id := id; prod_name := name; prod_description := "";
     prod_price := price; prod_stock := 10; prod_category := "";
     prod_image := "" |}.

Definition productA : Product := mkProduct "A" "Tea" 199.
Definition productB : Product := mkProduct "B" "Coffee" 299.
Definition productC : Product := mkProduct "C" "Salad" 499.

(** A terminal whose cache holds [{A, B}]. *)
Definition cachedAB (remote : RemoteStore) : World :=
  run_world
    (Db.saveProducts [productA; productB] (initial true true remote)).

(** The Remote Store with catalogue [{B, C}], and with an empty one. *)
Definition remoteBC : RemoteStore :=
  {| r_products := [productB; productC]; r_transactions := ∅;
     r_transaction_items := []; r_next_item_id := 0 |}.

(** [T1] is saved while the stored flag says offline, then the terminal
    goes online. *)
Definition reconnected : World :=
  run_world (run_op envUp OpOnline
    (run_world (run_op envUp (OpSaveTransaction T1)
       (initial false false emptyRemote)))).

(** A pass is running. *)
Definition busy : World :=
  set_service (set_isSyncing true) (initial true true emptyRemote).

(** The push of [T1] fails and [T1] is pending; while the push of [T2]
    is awaited the terminal comes online and the pass delivers [T1]; the
    push of [T2] then succeeds. *)
Definition lostRemoval : World :=
  overlapped envFlaky T2 [OpOnline]
    (run_world (saveTransaction envFlaky T1 (initial true true emptyRemote))).


(** [T1] was saved while the stored flag said offline: it is pending. *)
Definition t1Pending : World :=
  run_world (saveTransaction envDown T1 (initial true false emptyRemote)).

(** ** Further vocabulary *)

(** The Remote Store accepts every delivery of transaction [id]. *)
Definition always_accepts (env : Env) (id : string) : Prop :=
  forall n, failed (env_response env n id) = false.

(** An attempt to deliver, whatever the transaction. *)
Definition is_any_attempt (e : Event) : bool :=
  match e with
  | EvAttempt _ _ => true
  | _ => false
  end.

(** A property that every write of the drain pass keeps: the exchange
    counter, the two upserts, the record of a confirmed delivery, the
    removal of a pending id and the wait. *)
Record drain_closed (P : World -> Prop) : Prop := {
  dc_tick : forall w, P w -> P (tick w);
  dc_row : forall w row,
    P w -> P (set_supabase (Supabase.put_transaction row) w);
  dc_items : forall w rows,
    P w -> P (set_supabase (Supabase.put_items rows) w);
  dc_confirmed : forall w id, P w -> P (note_confirmed id w);
  dc_removed : forall w id, P w -> P (set_db (removed_pending id) w);
  dc_advance : forall w ms, P w -> P (advance ms w)
}.

(** ** The stock trigger of the schema *)

Module Schema.

(** The range of an [INTEGER] column; a value outside it makes the
    statement fail. *)
Definition int4_min : Z := -2147483648.
Definition int4_max : Z := 2147483647.
Definition in_int4 (z : Z) : bool := (int4_min <=? z)%Z && (z <=? int4_max)%Z.

Definition with_stock (stock : Z) (p : Product) : Product :=
  {| prod_id := prod_id p; prod_name := prod_name p;
     prod_description := prod_description p; prod_price := prod_price p;
     prod_stock := stock; prod_category := prod_category p;
     prod_image := prod_image p |}.

(** [update_product_stock()], on the rows of [products]:
    [UPDATE products SET stock = stock - NEW.quantity
     WHERE id = NEW.product_id]. [None] is the error of a stock that
    leaves the range of the column. *)
Fixpoint update_product_stock (NEW : ItemRow) (rows : list Product)
  : option (list Product) :=
  match rows with
  | [] => Some []
  | p :: ps =>
      match update_product_stock NEW ps with
      | None => None
      | Some ps' =>
          if String.eqb (prod_id p) (pl_product_id (ir_payload NEW)) then
            let stock := (prod_stock p - pl_quantity (ir_payload NEW))%Z in
            if in_int4 stock then Some (with_stock stock p :: ps') else None
          else Some (p :: ps')
      end
  end.

(** [after_transaction_item_insert]: [AFTER INSERT ON transaction_items
    FOR EACH ROW EXECUTE FUNCTION update_product_stock()], for the rows
    of one statement. *)
Fixpoint after_transaction_item_insert (inserted : list ItemRow)
    (rows : list Product) : option (list Product) :=
  match inserted with
  | [] => Some rows
  | NEW :: rest =>
      match update_product_stock NEW rows with
      | None => None
      | Some rows' => after_transaction_item_insert rest rows'
      end
  end.

(** The range of a [DECIMAL(10, 2)] column, in hundredths. *)
Definition in_decimal_10_2 (z : Z) : bool :=
  (Z.abs z <? 10000000000)%Z.

(** What a row of [transaction_items] must satisfy to be inserted by
    user [uid]: the policy "Transaction items are insertable by
    authenticated users", which asks for the transaction of the row to
    exist with [user_id = auth.uid()] and so covers
    [transaction_id REFERENCES transactions(id)], then
    [product_id REFERENCES products(id)], [price DECIMAL(10, 2)] and
    [quantity INTEGER]. *)
Definition row_accepted (uid : string) (s : RemoteStore) (row : ItemPayload)
  : bool :=
  match r_transactions s !! pl_transaction_id row with
  | Some transaction => bool_decide (row_user_id transaction = uid)
  | None => false
  end &&
  bool_decide (pl_product_id row ∈ map prod_id (r_products s)) &&
  in_decimal_10_2 (pl_price row) &&
  in_int4 (pl_quantity row).

(** The insertion, by user [uid], of rows without [id] into
    [transaction_items], with the constraints checked and the trigger
    fired; [None] is an error, which leaves the tables as they were. *)
Definition insert_transaction_items (uid : string) (rows : list ItemPayload)
    (s : RemoteStore) : option RemoteStore :=
  if forallb (row_accepted uid s) rows then
    let inserted := Supabase.number_rows (r_next_item_id s) rows in
    match after_transaction_item_insert inserted (r_products s) with
    | None => None
    | Some rows' =>
        Some {| r_products := rows';
                r_transactions := r_transactions s;
                r_transaction_items := r_transaction_items s ++ inserted;
                r_next_item_id := r_next_item_id s + length rows |}
    end
  else None.

(** The stock of product [id]. *)
Definition stock_of (id : string) (rows : list Product) : option Z :=
  prod_stock <$> List.find (fun p => String.eqb (prod_id p) id) rows.

(** The units of product [id] on the rows. *)
Fixpoint quantity_sold (id : string) (rows : list ItemPayload) : Z :=
  match rows with
  | [] => 0
  | row :: rest =>
      ((if String.eqb (pl_product_id row) id then pl_quantity row else 0)
       + quantity_sold id rest)%Z
  end.

End Schema.

(** ** The component [SyncManager] *)

Module SyncManager.

(** Modelled from the spec: [getTransactions] of the missing [lib/db.ts],
    the operation the spec calls getAllTransactions; all stored
    transactions. *)
Definition getTransactions : M (list Transaction) :=
  gets (fun w => (map_to_list (transactions (db w))).*2).

(** Modelled from the spec: [initDB] of the missing [lib/db.ts]; opening
    the Local Store changes none of its collections. *)
Definition initDB : M unit := ret tt.

(** The state of the component, one field per [useState]. *)
Record State := {
  ui_status : string;
  ui_isLoading : bool;
  ui_pendingTransactions : list string;
  ui_transactions : list Transaction
}.

Definition setStatus (v : string) (u : State) : State :=
  {| ui_status := v; ui_isLoading := ui_isLoading u;
     ui_pendingTransactions := ui_pendingTransactions u;
     ui_transactions := ui_transactions u |}.

Definition setIsLoading (v : bool) (u : State) : State :=
  {| ui_status := ui_status u; ui_isLoading := v;
     ui_pendingTransactions := ui_pendingTransactions u;
     ui_transactions := ui_transactions u |}.

Definition setPendingTransactions (v : list string) (u : State) : State :=
  {| ui_status := ui_status u; ui_isLoading := ui_isLoading u;
     ui_pendingTransactions := v;
     ui_transactions := ui_transactions u |}.

Definition setTransactions (v : list Transaction) (u : State) : State :=
  {| ui_status := ui_status u; ui_isLoading := ui_isLoading u;
     ui_pendingTransactions := ui_pendingTransactions u;
     ui_transactions := v |}.

(** [useState('')], [useState(false)], [useState([])], [useState([])]. *)
Definition mounted : State :=
  {| ui_status := ""; ui_isLoading := false;
     ui_pendingTransactions := []; ui_transactions := [] |}.

(** Handlers run in the world and on the state of the component; a state
    update made before an exception stays made. *)
Definition H (A : Type) : Type :=
  State -> World -> Result A * State * World * list Event.

Definition retH {A} (a : A) : H A := fun u w => (Ok a, u, w, []).

Definition bindH {A B} (m : H A) (k : A -> H B) : H B := fun u w =>
  match m u w with
  | (Ok a, u1, w1, t1) =>
      match k a u1 w1 with
      | (r, u2, w2, t2) => (r, u2, w2, t1 ++ t2)
      end
  | (Throw e, u1, w1, t1) => (Throw e, u1, w1, t1)
  end.

(** [await m], for a method [m] of the service or of the Local Store. *)
Definition await {A} (m : M A) : H A := fun u w =>
  match m w with
  | (r, w1, t1) => (r, u, w1, t1)
  end.

Definition set (f : State -> State) : H unit := fun u w => (Ok tt, f u, w, []).

Definition catchH {A} (m : H A) (h : string -> H A) : H A := fun u w =>
  match m u w with
  | (Ok a, u1, w1, t1) => (Ok a, u1, w1, t1)
  | (Throw e, u1, w1, t1) =>
      match h e u1 w1 with
      | (r, u2, w2, t2) => (r, u2, w2, t1 ++ t2)
      end
  end.

Definition finallyH {A} (m : H A) (f : State -> State) : H A := fun u w =>
  match m u w with
  | (r, u1, w1, t1) => (r, f u1, w1, t1)
  end.

Declare Scope handler_scope.
Delimit Scope handler_scope with handler.
Notation "'let+' x ':=' m 'in' k" := (bindH m (fun x => k))
  (at level 10, x name, m at level 100, k at level 200) : handler_scope.
Notation "m ;;+ k" := (bindH m (fun _ => k))
  (at level 100, k at level 200, right associativity) : handler_scope.
Open Scope handler_scope.

Definition run_state {A} (x : Result A * State * World * list Event) : State :=
  x.1.1.2.
Definition run_outcome {A} (x : Result A * State * World * list Event)
  : Result A := x.1.1.1.
Definition run_store {A} (x : Result A * State * World * list Event) : World :=
  x.1.2.
Definition run_events {A} (x : Result A * State * World * list Event)
  : list Event := x.2.

Definition loadSyncStatus : H unit :=
  catchH
    (let+ state := await Db.getSyncState in
     set (setPendingTransactions (pendingTransactions state)) ;;+
     if (0 <? length (pendingTransactions state))%nat then
       let+ allTransactions := await getTransactions in
       let pendingTxs :=
         List.filter
           (fun tx => bool_decide (tx_id tx ∈ pendingTransactions state))
           allTransactions in
       set (setTransactions pendingTxs)
     else retH tt)
    (fun error => retH tt).

Section Handlers.
Variable env : Env.

(** The errors that reach this handler are [Error] objects, the status
    shows their message. *)
Definition handleForceSync : H unit :=
  finallyH
    (catchH
       (set (setIsLoading true) ;;+
        set (setStatus "Initializing database...") ;;+
        await initDB ;;+
        set (setStatus "Forcing full product sync...") ;;+
        await (syncProducts env true) ;;+
        set (setStatus "Sync completed successfully!") ;;+
        loadSyncStatus)
       (fun error => set (setStatus ("Sync failed: " +:+ error))))
    (setIsLoading false).

Definition handleSyncTransactions : H unit :=
  finallyH
    (catchH
       (set (setIsLoading true) ;;+
        set (setStatus "Syncing pending transactions...") ;;+
        await (sync env) ;;+
        set (setStatus "Transactions synced successfully!") ;;+
        loadSyncStatus)
       (fun error =>
          set (setStatus ("Transaction sync failed: " +:+ error))))
    (setIsLoading false).

End Handlers.

Definition handleClearProducts : H unit :=
  finallyH
    (catchH
       (set (setIsLoading true) ;;+
        set (setStatus "Clearing local products...") ;;+
        await Db.clearProducts ;;+
        set (setStatus "Products cleared successfully!"))
       (fun error =>
          set (setStatus ("Failed to clear products: " +:+ error))))
    (setIsLoading false).

Close Scope handler_scope.

End SyncManager.

(** ** More example worlds *)

(** The catalogue is out of reach. *)
Definition envNoCatalogue : Env :=
  {| env_response := fun _ _ => accepted;
     env_productsError := fun _ => Some "network error" |}.

(** A pending id whose record is not in the Local Store. *)
Definition orphanPending : World :=
  run_world (Db.addPendingTransaction "T9" t1Pending).

(** A Remote Store that holds the row of [T1], written by user ["U1"],
    no item row yet, and the catalogue [{P1}] with a stock of 10. *)
Definition productP1 : Product := mkProduct "P1" "Coffee" 299.

Definition remoteP1 : RemoteStore :=
  Supabase.put_transaction
    {| row_id := "T1"; row_user_id := "U1"; row_date := tx_date T1;
       row_subtotal := 598; row_tax := 30; row_total := 628;
       row_status := "completed" |}
    {| r_products := [productP1]; r_transactions := ∅;
       r_transaction_items := []; r_next_item_id := 0 |}.

(** ** Running the monad *)

Ltac unfold_m :=
  unfold bind, ret, throw, try_catch, try_finally, emit, gets, modify,
    run_result, run_world, run_trace in *.

Ltac unfold_db :=
  unfold Db.getSyncState, Db.updateSyncState, Db.saveTransaction,
    Db.getTransaction, Db.addPendingTransaction,
    Db.removePendingTransaction, Db.clearProducts, Db.saveProduct,
    Db.saveProducts in *.

Ltac unfold_supabase :=
  unfold Supabase.respond, Supabase.auth_getUser,
    Supabase.upsert_transactions, Supabase.upsert_transaction_items,
    Supabase.select_products in *.

Ltac run_m := unfold_db; unfold_supabase; unfold_m; simpl.

Lemma failed_false r :
  failed r = false <->
  is_Some (resp_user r) /\ resp_transactionError r = None /\ resp_itemsError r = None.
Proof.
  unfold failed.
  destruct (resp_user r), (resp_transactionError r), (resp_itemsError r);
    split; intros H; try discriminate; try (split; [eauto | split]; congruence);
    destruct H as ([? ?] & ? & ?); congruence.
Qed.

Section Delivery.
Variable env : Env.

(** What one delivery does, read off the answers of the Remote Store. *)
Lemma uploadTransaction_run tx w :
  let id := tx_id tx in
  let r := env_response env (calls w) id in
  let out := uploadTransaction env tx w in
  match resp_user r with
  | None =>
      out = (Throw "No authenticated user found", tick w, [EvGetUser false])
  | Some u =>
      match resp_transactionError r with
      | Some e =>
          exists w1, db w1 = db w /\ service w1 = service w /\
            calls w1 = S (calls w) /\ now w1 = now w /\
            confirmed w1 = confirmed w /\
            out = (Throw e, w1, [EvGetUser true; EvUpsertTransaction id false])
      | None =>
          exists w1, db w1 = db w /\ service w1 = service w /\
            calls w1 = S (calls w) /\ now w1 = now w /\
          match resp_itemsError r with
          | Some e =>
              confirmed w1 = confirmed w /\
              out = (Throw e, w1,
                     [EvGetUser true; EvUpsertTransaction id true;
                      EvUpsertItems id false])
          | None =>
              confirmed w1 = id :: confirmed w /\
              out = (Ok tt, w1,
                     [EvGetUser true; EvUpsertTransaction id true;
                      EvUpsertItems id true])
          end
      end
  end.
Proof.
  intros id r out. subst out. unfold uploadTransaction. run_m.
  fold id. fold r.
  destruct (resp_user r) as [u|]; simpl; [|reflexivity].
  destruct (resp_transactionError r) as [e|]; simpl.
  { destruct (resp_transactionLanded r); simpl;
      eexists; (do 5 (split; [shelve|])); reflexivity.
    Unshelve. all: reflexivity. }
  destruct (resp_itemsError r) as [e|]; simpl.
  - destruct (resp_itemsLanded r); simpl.
    + eexists. do 5 (split; [shelve|]). reflexivity. Unshelve. all: reflexivity.
    + eexists. do 5 (split; [shelve|]). reflexivity. Unshelve. all: reflexivity.
  - eexists. do 5 (split; [shelve|]). reflexivity. Unshelve. all: reflexivity.
Qed.

Lemma uploadTransaction_failed tx w :
  failed (env_response env (calls w) (tx_id tx)) = true ->
  exists e w1 u,
    uploadTransaction env tx w = (Throw e, w1, u) /\
    db w1 = db w /\ service w1 = service w /\ confirmed w1 = confirmed w /\
    calls w1 = S (calls w) /\
    Forall (fun ev => is_remote ev = true) u.
Proof.
  intros Hf. pose proof (uploadTransaction_run tx w) as H. simpl in H.
  unfold failed in Hf.
  destruct (resp_user _) as [u|].
  - destruct (resp_transactionError _) as [e|].
    + destruct H as (w1 & Hdb & Hsvc & Hc & Hn & Hconf & H). rewrite H.
      exists e, w1, [EvGetUser true; EvUpsertTransaction (tx_id tx) false].
      repeat split; try assumption; repeat constructor.
    + destruct H as (w1 & Hdb & Hsvc & Hc & Hn & H).
      destruct (resp_itemsError _) as [e|]; [|discriminate].
      destruct H as [Hconf H]. rewrite H.
      exists e, w1, [EvGetUser true; EvUpsertTransaction (tx_id tx) true;
                     EvUpsertItems (tx_id tx) false].
      repeat split; try assumption; repeat constructor.
  - rewrite H. exists "No authenticated user found", (tick w), [EvGetUser false].
    repeat split; repeat constructor.
Qed.

Lemma uploadTransaction_ok tx w :
  failed (env_response env (calls w) (tx_id tx)) = false ->
  exists w1,
    uploadTransaction env tx w =
      (Ok tt, w1,
       [EvGetUser true; EvUpsertTransaction (tx_id tx) true;
        EvUpsertItems (tx_id tx) true]) /\
    db w1 = db w /\ service w1 = service w /\
    confirmed w1 = tx_id tx :: confirmed w /\
    calls w1 = S (calls w).
Proof.
  intros Hf. pose proof (uploadTransaction_run tx w) as H. simpl in H.
  apply failed_false in Hf. destruct Hf as ([u Hu] & Ht & Hi).
  rewrite Hu, Ht, Hi in H.
  destruct H as (w1 & Hdb & Hsvc & Hc & Hn & Hconf & H).
  exists w1. rewrite H. repeat split; assumption.
Qed.

Lemma uploadTransaction_db tx w :
  db (run_world (uploadTransaction env tx w)) = db w.
Proof.
  destruct (failed (env_response env (calls w) (tx_id tx))) eqn:Hf.
  - destruct (uploadTransaction_failed tx w Hf) as (e & w1 & u & -> & H & _). exact H.
  - destruct (uploadTransaction_ok tx w Hf) as (w1 & -> & H & _). exact H.
Qed.

Lemma uploadTransaction_result tx w :
  run_result (uploadTransaction env tx w) = Ok tt <->
  failed (env_response env (calls w) (tx_id tx)) = false.
Proof.
  destruct (failed (env_response env (calls w) (tx_id tx))) eqn:Hf.
  - destruct (uploadTransaction_failed tx w Hf) as (e & w1 & u & -> & _).
    split; discriminate.
  - destruct (uploadTransaction_ok tx w Hf) as (w1 & -> & _).
    split; reflexivity.
Qed.

(** One round of the retry loop when the delivery fails: the attempt is
    counted, and a wait follows unless it was the last one. *)
Lemma retryBody_failed tx k w :
  failed (env_response env (calls w) (tx_id tx)) = true ->
  exists e w1 u,
    retryBody env tx k w =
      (Ok (Some (k + 1, e)), w1,
       EvAttempt (tx_id tx) (k + 1) :: u ++
         [if (k + 1 =? maxRetries)%nat then EvExhausted (tx_id tx)
          else EvSleep retryDelay]) /\
    db w1 = db w /\ service w1 = service w /\ confirmed w1 = confirmed w /\
    calls w1 = S (calls w) /\
    Forall (fun ev => is_remote ev = true) u.
Proof.
  intros Hf.
  destruct (uploadTransaction_failed tx w Hf)
    as (e & w1 & u & Hrun & Hdb & Hsvc & Hconf & Hc & Hu).
  unfold retryBody. unfold_m. simpl. rewrite Hrun.
  destruct (k + 1 =? maxRetries)%nat; simpl.
  - exists e, w1, u. repeat split; assumption.
  - exists e, (advance retryDelay w1), u. repeat split; assumption.
Qed.

(** One round of the retry loop when the delivery succeeds: the id leaves
    the pending set and the loop is left. *)
Lemma retryBody_ok tx k w :
  failed (env_response env (calls w) (tx_id tx)) = false ->
  exists w1,
    retryBody env tx k w =
      (Ok None, w1,
       [EvAttempt (tx_id tx) (k + 1); EvGetUser true;
        EvUpsertTransaction (tx_id tx) true; EvUpsertItems (tx_id tx) true]) /\
    products (db w1) = products (db w) /\
    transactions (db w1) = transactions (db w) /\
    syncState (db w1) = Db.remove_pending (tx_id tx) (syncState (db w)) /\
    service w1 = service w /\
    confirmed w1 = tx_id tx :: confirmed w /\
    calls w1 = S (calls w).
Proof.
  intros Hf.
  destruct (uploadTransaction_ok tx w Hf)
    as (w1 & Hrun & Hdb & Hsvc & Hconf & Hc).
  unfold retryBody. run_m. rewrite Hrun. simpl.
  eexists. split; [reflexivity|]. simpl. rewrite Hdb.
  repeat split; assumption.
Qed.

End Delivery.

(** ** Sync status *)

(** C9. [getTransactionSyncStatus] answers ['pending'] exactly for the ids
    of [pendingTransactions] and ['synced'] for every other id; it never
    answers ['error'], never raises, and changes nothing. *)
Theorem getTransactionSyncStatus_two_states :
  forall (transactionId : string) (w : World),
    let out := getTransactionSyncStatus transactionId w in
    (run_result out = Ok Pending <-> transactionId ∈ pendingIds w) /\
    (run_result out = Ok Synced <-> transactionId ∉ pendingIds w) /\
    run_result out <> Ok Error /\
    (forall msg, run_result out <> Throw msg) /\
    run_world out = w /\ run_trace out = [].
Proof.
  intros id w. unfold getTransactionSyncStatus, pendingIds. run_m.
  destruct (bool_decide_reflect (id ∈ pendingTransactions (syncState (db w))));
    simpl; repeat split; intros; try congruence; try discriminate; tauto.
Qed.

(** ** Rules for properties kept by a method *)

Section Preserves.
Context (P : World -> Prop).

Lemma preserves_ret {A} (a : A) : preserves P (ret a).
Proof. intros w H. exact H. Qed.

Lemma preserves_throw {A} msg : preserves P (@throw A msg).
Proof. intros w H. exact H. Qed.

Lemma preserves_emit e : preserves P (emit e).
Proof. intros w H. exact H. Qed.

Lemma preserves_gets {A} (f : World -> A) : preserves P (gets f).
Proof. intros w H. exact H. Qed.

Lemma preserves_modify f :
  (forall w, P w -> P (f w)) -> preserves P (modify f).
Proof. intros Hf w H. apply Hf, H. Qed.

Lemma preserves_bind {A B} (m : M A) (k : A -> M B) :
  preserves P m -> (forall a, preserves P (k a)) -> preserves P (bind m k).
Proof.
  intros Hm Hk w H. specialize (Hm w H). unfold bind, run_world in *.
  destruct (m w) as [[[a|e] w1] t1]; simpl in *; [|exact Hm].
  specialize (Hk a w1 Hm). unfold run_world in Hk.
  destruct (k a w1) as [[r w2] t2]. exact Hk.
Qed.

Lemma preserves_try_catch {A} (m : M A) (h : string -> M A) :
  preserves P m -> (forall e, preserves P (h e)) -> preserves P (try_catch m h).
Proof.
  intros Hm Hh w H. specialize (Hm w H). unfold try_catch, run_world in *.
  destruct (m w) as [[[a|e] w1] t1]; simpl in *; [exact Hm|].
  specialize (Hh e w1 Hm). unfold run_world in Hh.
  destruct (h e w1) as [[r w2] t2]. exact Hh.
Qed.

Lemma preserves_try_finally {A} (m : M A) f :
  preserves P m -> (forall w, P w -> P (f w)) -> preserves P (try_finally m f).
Proof.
  intros Hm Hf w H. specialize (Hm w H). unfold try_finally, run_world in *.
  destruct (m w) as [[r w1] t1]; simpl in *. apply Hf, Hm.
Qed.

Lemma preserves_mapM {A B} (f : A -> M B) l :
  (forall a, preserves P (f a)) -> preserves P (mapM f l).
Proof.
  intros Hf. induction l as [|a l IH]; simpl.
  - apply preserves_ret.
  - apply preserves_bind; [apply Hf|]. intros b.
    apply preserves_bind; [exact IH|]. intros bs. apply preserves_ret.
Qed.

Lemma preserves_forM_ {A} (l : list A) (body : A -> M unit) :
  (forall a, preserves P (body a)) -> preserves P (forM_ l body).
Proof.
  intros Hb. induction l as [|a l IH]; simpl.
  - apply preserves_ret.
  - apply preserves_bind; [apply Hb|]. intros _. exact IH.
Qed.

End Preserves.

Section Stable.
Variable env : Env.
Context (P : World -> Prop) (HP : stable P).

Ltac step :=
  first
    [ apply preserves_ret | apply preserves_throw | apply preserves_emit
    | apply preserves_gets
    | apply preserves_bind; [|intros ?]
    | apply preserves_try_catch; [|intros ?]
    | apply preserves_try_finally
    | apply preserves_forM_; intros ?
    | apply preserves_mapM; intros ? ].

Lemma stable_uploadTransaction tx : preserves P (uploadTransaction env tx).
Proof.
  unfold uploadTransaction.
  step.
  { intros w H. apply (stable_tick P HP), H. }
  step. { unfold Supabase.auth_getUser. repeat step. }
  destruct a0; [|step].
  step.
  { unfold Supabase.upsert_transactions.
    destruct (resp_transactionError a); [destruct (resp_transactionLanded a)|];
      repeat step;
      apply preserves_modify; intros w H; apply (stable_supabase P HP), H. }
  destruct a0; [step|].
  step.
  { unfold Supabase.upsert_transaction_items.
    destruct (resp_itemsError a); [destruct (resp_itemsLanded a)|];
      repeat step;
      apply preserves_modify; intros w H; apply (stable_supabase P HP), H. }
  destruct a0; [step|].
  apply preserves_modify. intros w H. apply (stable_confirmed P HP), H.
Qed.

Lemma stable_removePending id : preserves P (Db.removePendingTransaction id).
Proof.
  apply preserves_modify. intros w H.
  apply (stable_db_state P HP w (Db.remove_pending id) H). reflexivity.
Qed.

Lemma stable_retryBody tx k : preserves P (retryBody env tx k).
Proof.
  unfold retryBody. step.
  - step. { step. }
    step. { apply stable_uploadTransaction. }
    step. { apply stable_removePending. }
    step.
  - step; [|step].
    destruct (_ =? _)%nat; [step|].
    step; [step|]. apply preserves_modify. intros w H.
    apply (stable_advance P HP), H.
Qed.

Lemma stable_retryLoop fuel tx k le : preserves P (retryLoop env fuel tx k le).
Proof.
  revert k le. induction fuel as [|fuel IH]; intros k le; simpl; [step|].
  destruct (k <? maxRetries)%nat; [|step].
  step. { apply stable_retryBody. }
  destruct a as [[k' e]|]; [apply IH|step].
Qed.

Lemma stable_syncOne otx : preserves P (syncOne env otx).
Proof.
  destruct otx as [tx|]; unfold syncOne; [|step].
  step. { apply stable_retryLoop. }
  destruct (_ && _); step.
Qed.

Lemma stable__syncTransactions : preserves P (_syncTransactions env).
Proof.
  unfold _syncTransactions. step. { unfold Db.getSyncState. step. }
  step. { step. unfold Db.getTransaction. step. }
  step. apply stable_syncOne.
Qed.

Lemma stable_syncProducts b : preserves P (syncProducts env b).
Proof.
  unfold syncProducts. step; [|step].
  step.
  { intros w H. unfold Supabase.select_products, run_world.
    destruct (env_productsError env (calls w)); simpl;
      apply (stable_tick P HP), H. }
  destruct a.2; [step|].
  destruct a.1 as [[|p ps]|]; try step.
  destruct b.
  - step.
    + apply preserves_modify. intros w H.
      apply (stable_db_products P HP w (fun _ => ∅) H).
    + apply preserves_modify. intros w H.
      apply (stable_db_products P HP w
               (fun m => foldl Db.put_product m (p :: ps)) H).
  - apply preserves_forM_. intros q. apply preserves_modify. intros w H.
    apply (stable_db_products P HP w (fun m => Db.put_product m q) H).
Qed.

Lemma stable_stampLastSync : preserves P stampLastSync.
Proof.
  intros w H.
  change (run_world (stampLastSync w)) with
    (set_db (fun d =>
       {| products := products d; transactions := transactions d;
          syncState := with_lastSync (now w) (syncState d) |}) w).
  apply (stable_db_state P HP w (with_lastSync (now w)) H). reflexivity.
Qed.

Lemma stable_sync : preserves P (sync env).
Proof.
  unfold sync. step. { step. }
  destruct (skipsSync a); [step|].
  step.
  { apply preserves_modify. intros w H. apply (stable_isSyncing P HP), H. }
  step.
  - step; [|step].
    step. { apply stable_syncProducts. }
    step. { apply stable__syncTransactions. }
    apply stable_stampLastSync.
  - intros w H. apply (stable_isSyncing P HP), H.
Qed.

Lemma stable_syncTransactions : preserves P (syncTransactions env).
Proof.
  unfold syncTransactions. step. { step. }
  destruct (negb _); [step|]. destruct (svc_isSyncing a); [step|].
  step.
  { apply preserves_modify. intros w H. apply (stable_isSyncing P HP), H. }
  step.
  - step; [|step].
    step. { apply stable__syncTransactions. }
    apply stable_stampLastSync.
  - intros w H. apply (stable_isSyncing P HP), H.
Qed.

End Stable.

Lemma stable_hint b : stable (fun w => isOnline (syncState (db w)) = b).
Proof.
  constructor; simpl; intros; try assumption.
  rewrite H0. assumption.
Qed.

Lemma stable_transactions T : stable (fun w => transactions (db w) = T).
Proof. constructor; simpl; intros; assumption. Qed.

Lemma stable_svc_isOnline b : stable (fun w => svc_isOnline (service w) = b).
Proof. constructor; simpl; intros; assumption. Qed.

(** ** [saveTransaction] *)

Section SaveTransaction.
Variable env : Env.

Lemma saveTransaction_offline tx w :
  isOnline (syncState (db w)) = false ->
  saveTransaction env tx w =
    (Throw "Offline mode: Transaction saved locally",
     set_db (saved_pending tx) w, [EvLocalSave (tx_id tx)]).
Proof.
  intros Hh. unfold saveTransaction. run_m. rewrite Hh. reflexivity.
Qed.

Lemma saveTransaction_failed tx w :
  isOnline (syncState (db w)) = true ->
  failed (env_response env (calls w) (tx_id tx)) = true ->
  exists e w1 u,
    saveTransaction env tx w = (Throw e, w1, EvLocalSave (tx_id tx) :: u) /\
    db w1 = saved_pending tx (db w) /\
    service w1 = service w /\ confirmed w1 = confirmed w /\
    u <> [] /\ Forall (fun ev => is_remote ev = true) u.
Proof.
  intros Hh Hf.
  set (w0 := set_db (fun d =>
    {| products := products d;
       transactions := <[tx_id tx := tx]> (transactions d);
       syncState := syncState d |}) w).
  destruct (uploadTransaction_failed env tx w0 Hf)
    as (e & w1 & u & Hrun & Hdb & Hsvc & Hconf & Hc & Hu).
  unfold saveTransaction. run_m. rewrite Hh. fold w0. rewrite Hrun. simpl.
  eexists e, _, u. split; [rewrite app_nil_r; reflexivity|]. simpl.
  rewrite Hdb. repeat split; try assumption.
  intros ->. pose proof (uploadTransaction_run env tx w0) as H. simpl in H.
  rewrite Hrun in H.
  destruct (resp_user _); [destruct (resp_transactionError _)|]; try discriminate.
  - destruct H as (? & _ & _ & _ & _ & _ & H). discriminate.
  - destruct H as (? & _ & _ & _ & _ & H).
    destruct (resp_itemsError _); destruct H; discriminate.
Qed.

Lemma saveTransaction_ok tx w :
  isOnline (syncState (db w)) = true ->
  failed (env_response env (calls w) (tx_id tx)) = false ->
  exists w1,
    saveTransaction env tx w =
      (Ok tt, w1,
       [EvLocalSave (tx_id tx); EvGetUser true;
        EvUpsertTransaction (tx_id tx) true; EvUpsertItems (tx_id tx) true]) /\
    products (db w1) = products (db w) /\
    transactions (db w1) = <[tx_id tx := tx]> (transactions (db w)) /\
    pendingIds w1 = pendingIds w /\
    isOnline (syncState (db w1)) = true /\
    service w1 = service w /\
    confirmed w1 = tx_id tx :: confirmed w.
Proof.
  intros Hh Hf.
  set (w0 := set_db (fun d =>
    {| products := products d;
       transactions := <[tx_id tx := tx]> (transactions d);
       syncState := syncState d |}) w).
  destruct (uploadTransaction_ok env tx w0 Hf)
    as (w1 & Hrun & Hdb & Hsvc & Hconf & Hc).
  unfold saveTransaction. run_m. rewrite Hh. fold w0. rewrite Hrun. simpl.
  eexists. split; [reflexivity|]. unfold pendingIds. simpl.
  rewrite Hdb. repeat split; assumption.
Qed.

End SaveTransaction.

(** C5. Whatever the stored online flag and whatever the Remote Store
    answers, when [saveTransaction] returns, normally or with an error, the
    transaction is in the Local Store: [db.getTransaction] gives it back.
    The local save is the first action of the method, before any exchange
    with the Remote Store and before any error is raised. *)
Theorem saveTransaction_durable :
  forall (env : Env) (transaction : Transaction) (w : World),
    let out := saveTransaction env transaction w in
    run_result (Db.getTransaction (tx_id transaction) (run_world out))
      = Ok (Some transaction) /\
    exists rest, run_trace out = EvLocalSave (tx_id transaction) :: rest.
Proof.
  intros env tx w out. subst out.
  unfold Db.getTransaction, gets, run_result, run_world, run_trace. simpl.
  destruct (isOnline (syncState (db w))) eqn:Hh.
  - destruct (failed (env_response env (calls w) (tx_id tx))) eqn:Hf.
    + destruct (saveTransaction_failed env tx w Hh Hf)
        as (e & w1 & u & -> & Hdb & _).
      simpl. rewrite Hdb. simpl. rewrite lookup_insert_eq. eauto.
    + destruct (saveTransaction_ok env tx w Hh Hf)
        as (w1 & -> & _ & Htx & _).
      simpl. rewrite Htx, lookup_insert_eq. eauto.
  - rewrite (saveTransaction_offline env tx w Hh). simpl.
    rewrite lookup_insert_eq. eauto.
Qed.

(** ** The two writes of a delivery *)

Lemma uploadTransaction_items_after_row env tx w b :
  EvUpsertItems (tx_id tx) b ∈ run_trace (uploadTransaction env tx w) ->
  resp_transactionError (env_response env (calls w) (tx_id tx)) = None /\
  run_trace (uploadTransaction env tx w) =
    [EvGetUser true; EvUpsertTransaction (tx_id tx) true;
     EvUpsertItems (tx_id tx) b].
Proof.
  pose proof (uploadTransaction_run env tx w) as H. simpl in H.
  destruct (resp_user _) as [u|].
  - destruct (resp_transactionError _) as [e|].
    + destruct H as (w1 & _ & _ & _ & _ & _ & ->).
      unfold run_trace. simpl. rewrite !elem_of_cons, elem_of_nil.
      intros [?|[?|[]]]; discriminate.
    + destruct H as (w1 & _ & _ & _ & _ & H).
      destruct (resp_itemsError _) as [e|]; destruct H as [_ ->];
        unfold run_trace; simpl; rewrite !elem_of_cons, elem_of_nil;
        intros [?|[?|[Heq|[]]]]; try discriminate;
        injection Heq as <-; split; reflexivity.
  - rewrite H. unfold run_trace. simpl. rewrite !elem_of_cons, elem_of_nil.
    intros [?|[]]; discriminate.
Qed.

Lemma saveTransaction_trace env tx w :
  isOnline (syncState (db w)) = true ->
  run_trace (saveTransaction env tx w) =
    EvLocalSave (tx_id tx) ::
      run_trace (uploadTransaction env tx (run_world (Db.saveTransaction tx w))).
Proof.
  intros Hh. unfold saveTransaction. run_m. rewrite Hh.
  destruct (uploadTransaction env tx _) as [[[[]|e] w1] t1]; simpl;
    rewrite app_nil_r; reflexivity.
Qed.

Lemma retryBody_trace env tx k w :
  exists rest,
    run_trace (retryBody env tx k w) =
      EvAttempt (tx_id tx) (k + 1) ::
        run_trace (uploadTransaction env tx w) ++ rest /\
    Forall (fun ev => is_remote ev = false) rest.
Proof.
  unfold retryBody. run_m.
  destruct (uploadTransaction env tx w) as [[[[]|e] w1] t1]; simpl.
  - exists []. split; [reflexivity|constructor].
  - destruct (k + 1 =? maxRetries)%nat; simpl; eexists; split;
      try reflexivity; repeat constructor.
Qed.

(** C6. A delivery is an ordered pair of writes. In the trace of a
    delivery the upload of the item rows occurs only when the upload of the
    transaction row gave no error, and then directly after it. The delivery
    succeeds exactly when the user is known and neither write gives an
    error, so an error of either write fails the whole attempt; a failed
    attempt leaves the Local Store and the record of confirmed deliveries
    as they were. Both callers run this delivery: the direct push of
    [saveTransaction], after which a failure only queues the id, whichever
    write failed, and every round of the retry loop of the drain pass, which
    on failure leaves the Local Store untouched. *)
Theorem delivery_is_ordered_pair :
  forall (env : Env) (transaction : Transaction) (w : World),
    let id := tx_id transaction in
    let r := env_response env (calls w) id in
    let out := uploadTransaction env transaction w in
    (forall b, EvUpsertItems id b ∈ run_trace out ->
       resp_transactionError r = None /\
       run_trace out =
         [EvGetUser true; EvUpsertTransaction id true; EvUpsertItems id b]) /\
    (run_result out = Ok tt <->
       is_Some (resp_user r) /\ resp_transactionError r = None /\
       resp_itemsError r = None) /\
    (run_result out <> Ok tt ->
       db (run_world out) = db w /\
       confirmed (run_world out) = confirmed w) /\
    (isOnline (syncState (db w)) = true ->
       run_trace (saveTransaction env transaction w) =
         EvLocalSave id ::
           run_trace (uploadTransaction env transaction
                        (run_world (Db.saveTransaction transaction w))) /\
       (failed r = true ->
          db (run_world (saveTransaction env transaction w)) =
            saved_pending transaction (db w))) /\
    (forall retries,
       (exists rest,
          run_trace (retryBody env transaction retries w) =
            EvAttempt id (retries + 1) :: run_trace out ++ rest /\
          Forall (fun ev => is_remote ev = false) rest) /\
       (failed r = true ->
          db (run_world (retryBody env transaction retries w)) = db w)).
Proof.
  intros env tx w id r out. subst id r out.
  split; [intros b; apply uploadTransaction_items_after_row|].
  split; [rewrite uploadTransaction_result; apply failed_false|].
  split.
  { intros Hne.
    destruct (failed (env_response env (calls w) (tx_id tx))) eqn:Hf.
    - destruct (uploadTransaction_failed env tx w Hf)
        as (e & w1 & u & -> & Hdb & _ & Hconf & _).
      split; assumption.
    - apply uploadTransaction_result in Hf. contradiction. }
  split.
  { intros Hh. split; [apply saveTransaction_trace, Hh|].
    intros Hf.
    destruct (saveTransaction_failed env tx w Hh Hf)
      as (e & w1 & u & -> & Hdb & _). exact Hdb. }
  intros k. split; [apply retryBody_trace|].
  intros Hf.
  destruct (retryBody_failed env tx k w Hf) as (e & w1 & u & -> & Hdb & _).
  exact Hdb.
Qed.

Lemma delivery_is_ordered_pair_witness :
  run_trace (uploadTransaction envUp T1 (initial true true emptyRemote)) =
    [EvGetUser true; EvUpsertTransaction "T1" true; EvUpsertItems "T1" true] /\
  db (run_world (saveTransaction envDown T1 (initial true true emptyRemote))) =
    saved_pending T1 (db (initial true true emptyRemote)) /\
  db (run_world (retryBody envDown T1 0 t1Pending)) = db t1Pending.
Proof.
  pose proof (delivery_is_ordered_pair envUp T1 (initial true true emptyRemote))
    as (Hitems & _).
  pose proof (delivery_is_ordered_pair envDown T1 (initial true true emptyRemote))
    as (_ & _ & _ & Hsave & _).
  pose proof (delivery_is_ordered_pair envDown T1 t1Pending)
    as (_ & _ & _ & _ & Hretry).
  split; [|split].
  - apply (Hitems true). vm_compute. right. right. left.
  - apply Hsave; reflexivity.
  - apply (Hretry 0). reflexivity.
Defined.

(** ** The two online flags *)

Lemma onOnline_hint env w :
  isOnline (syncState (db (run_world (onOnline env w)))) =
  isOnline (syncState (db w)).
Proof.
  assert (H : preserves (fun w' => isOnline (syncState (db w')) =
                                   isOnline (syncState (db w)))
                (onOnline env)).
  { unfold onOnline. apply preserves_bind.
    - apply preserves_modify. intros w' H'. exact H'.
    - intros _. apply stable_sync, stable_hint. }
  apply H. reflexivity.
Qed.

Lemma onOnline_flag env w :
  svc_isOnline (service (run_world (onOnline env w))) = true.
Proof.
  unfold onOnline, bind, modify, run_world.
  pose proof (stable_sync env _ (stable_svc_isOnline true)
                (set_service (set_isOnline true) w) eq_refl) as H.
  unfold run_world in H.
  destruct (sync env _) as [[r w2] t2]. exact H.
Qed.

Lemma saveTransaction_ignores_service env tx w b :
  saveTransaction env tx (set_service (set_isOnline b) w) =
    (run_result (saveTransaction env tx w),
     set_service (set_isOnline b) (run_world (saveTransaction env tx w)),
     run_trace (saveTransaction env tx w)).
Proof.
  unfold saveTransaction, uploadTransaction. run_m.
  destruct (isOnline (syncState (db w))); [|reflexivity].
  destruct (resp_user _); simpl; [|reflexivity].
  destruct (resp_transactionError _); simpl;
    [destruct (resp_transactionLanded _); reflexivity|].
  destruct (resp_itemsError _); [destruct (resp_itemsLanded _)|]; reflexivity.
Qed.

Lemma saveTransaction_pushes_iff env tx w :
  Exists (fun ev => is_remote ev = true) (run_trace (saveTransaction env tx w))
  <-> isOnline (syncState (db w)) = true.
Proof.
  destruct (isOnline (syncState (db w))) eqn:Hh.
  - split; [reflexivity|intros _].
    destruct (failed (env_response env (calls w) (tx_id tx))) eqn:Hf.
    + destruct (saveTransaction_failed env tx w Hh Hf)
        as (e & w1 & u & -> & _ & _ & _ & Hne & Hu).
      unfold run_trace. simpl. apply Exists_cons_tl.
      destruct u as [|ev u]; [contradiction|].
      apply Exists_cons_hd. apply Forall_cons in Hu. apply Hu.
    + destruct (saveTransaction_ok env tx w Hh Hf) as (w1 & -> & _).
      unfold run_trace. simpl. apply Exists_cons_tl, Exists_cons_hd.
      reflexivity.
  - rewrite (saveTransaction_offline env tx w Hh). unfold run_trace. simpl.
    split; [|discriminate].
    intros H. apply Exists_cons in H as [H|H]; [discriminate|].
    apply Exists_nil in H. contradiction.
Qed.

(** C10. Whether [saveTransaction] pushes to the Remote Store is decided
    by the [isOnline] flag of the stored SyncState alone. The listeners of
    the connectivity events assign the service's own [isOnline] field and
    leave the stored flag as it was, also through the [sync] that the
    ['online'] listener starts. [saveTransaction] exchanges with the Remote
    Store exactly when the stored flag is set, and its result and trace are
    the same whatever the service's field holds. *)
Theorem push_decided_by_stored_flag :
  forall (env : Env) (transaction : Transaction) (w : World),
    isOnline (syncState (db (run_world (onOffline w)))) =
      isOnline (syncState (db w)) /\
    isOnline (syncState (db (run_world (onOnline env w)))) =
      isOnline (syncState (db w)) /\
    svc_isOnline (service (run_world (onOffline w))) = false /\
    svc_isOnline (service (run_world (onOnline env w))) = true /\
    (Exists (fun ev => is_remote ev = true)
       (run_trace (saveTransaction env transaction w))
     <-> isOnline (syncState (db w)) = true) /\
    forall monitor : bool,
      saveTransaction env transaction (set_service (set_isOnline monitor) w) =
        (run_result (saveTransaction env transaction w),
         set_service (set_isOnline monitor)
           (run_world (saveTransaction env transaction w)),
         run_trace (saveTransaction env transaction w)).
Proof.
  intros env tx w.
  split; [reflexivity|].
  split; [apply onOnline_hint|].
  split; [reflexivity|].
  split; [apply onOnline_flag|].
  split; [apply saveTransaction_pushes_iff|].
  intros b. apply saveTransaction_ignores_service.
Qed.

Lemma push_decided_by_stored_flag_witness :
  Exists (fun ev => is_remote ev = true)
    (run_trace (saveTransaction envUp T1 (initial false true emptyRemote))) /\
  ~ Exists (fun ev => is_remote ev = true)
    (run_trace (saveTransaction envUp T1 (initial true false emptyRemote))).
Proof.
  pose proof (push_decided_by_stored_flag envUp T1 (initial false true emptyRemote))
    as (_ & _ & _ & _ & Hon & _).
  pose proof (push_decided_by_stored_flag envUp T1 (initial true false emptyRemote))
    as (_ & _ & _ & _ & Hoff & _).
  split.
  - apply Hon. reflexivity.
  - intros H. apply Hoff in H. discriminate.
Defined.

(** ** The retry loop *)

Section RetryLoop.
Variable env : Env.

Lemma retryLoop_unfold fuel tx k le w :
  (k <? maxRetries)%nat = true ->
  retryLoop env (S fuel) tx k le w =
    bind (retryBody env tx k)
      (fun next =>
         match next with
         | None => ret (k, le)
         | Some (k', e) => retryLoop env fuel tx k' (Some e)
         end) w.
Proof. intros H. cbn [retryLoop]. rewrite H. reflexivity. Qed.

Lemma retryLoop_done fuel tx k le w :
  (k <? maxRetries)%nat = false ->
  retryLoop env fuel tx k le w = (Ok (k, le), w, []).
Proof.
  intros H. destruct fuel; cbn [retryLoop]; [reflexivity|].
  rewrite H. reflexivity.
Qed.

(** [maxRetries - retries] rounds are enough: more fuel changes nothing,
    the loop is left by its own condition or by [break]. *)
Lemma retryLoop_fuel fuel tx k le w :
  maxRetries - k <= fuel ->
  retryLoop env fuel tx k le w = retryLoop env (maxRetries - k) tx k le w.
Proof.
  revert k le w. induction fuel as [|fuel IH]; intros k le w Hle.
  - replace (maxRetries - k) with 0 by lia. reflexivity.
  - destruct (k <? maxRetries)%nat eqn:Hk.
    + apply Nat.ltb_lt in Hk.
      replace (maxRetries - k) with (S (maxRetries - (k + 1))) by lia.
      rewrite !retryLoop_unfold by (apply Nat.ltb_lt; exact Hk).
      unfold bind.
      destruct (failed (env_response env (calls w) (tx_id tx))) eqn:Hf.
      * destruct (retryBody_failed env tx k w Hf) as (e & w1 & u & -> & _).
        rewrite IH by lia. reflexivity.
      * destruct (retryBody_ok env tx k w Hf) as (w1 & -> & _). reflexivity.
    + rewrite !retryLoop_done by exact Hk. reflexivity.
Qed.

(** The loop never raises, only attempts its own transaction, and either
    leaves the Local Store alone or delivers the transaction. *)
Lemma retryLoop_effect fuel tx k le w :
  exists k' le' w1 t,
    retryLoop env fuel tx k le w = (Ok (k', le'), w1, t) /\
    unchanged_or_delivered (tx_id tx) w w1 /\
    (forall id, tx_id tx <> id -> Forall (foreign id) t).
Proof.
  revert k le w. induction fuel as [|fuel IH]; intros k le w.
  { exists k, le, w, []. repeat split; auto. }
  destruct (k <? maxRetries)%nat eqn:Hk.
  2:{ rewrite retryLoop_done by exact Hk. exists k, le, w, [].
      repeat split; auto. }
  rewrite retryLoop_unfold by exact Hk. unfold bind.
  destruct (failed (env_response env (calls w) (tx_id tx))) eqn:Hf.
  - destruct (retryBody_failed env tx k w Hf)
      as (e & w1 & u & -> & Hdb & Hsvc & Hconf & Hc & Hu).
    destruct (IH (k + 1) (Some e) w1) as (k' & le' & w2 & t & -> & Heff & Ht).
    eexists k', le', w2, _. split; [reflexivity|]. split.
    + destruct Heff as [Hs Heff]. split; [congruence|].
      rewrite Hdb, Hconf in Heff. exact Heff.
    + intros id Hid. apply Forall_app. split; [|apply Ht, Hid].
      apply Forall_cons. split.
      { unfold foreign. simpl. apply bool_decide_eq_false. exact Hid. }
      apply Forall_app. split.
      * eapply Forall_impl; [exact Hu|]. intros ev Hev. unfold foreign.
        destruct ev; try discriminate; reflexivity.
      * apply Forall_cons. split; [|constructor].
        destruct (_ =? _)%nat; reflexivity.
  - destruct (retryBody_ok env tx k w Hf)
      as (w1 & -> & Hp & Ht & Hs & Hsvc & Hconf & Hc).
    eexists k, le, w1, _. split; [simpl; reflexivity|]. split.
    + split; [exact Hsvc|]. right. split; [|exact Hconf].
      unfold removed_pending. destruct (db w1); simpl in *. congruence.
    + intros id Hid.
      apply Forall_cons. split.
      { unfold foreign. simpl. apply bool_decide_eq_false. exact Hid. }
      repeat constructor.
Qed.

(** The loop for a transaction that the Remote Store never accepts. *)
Lemma retryLoop_always_fails tx w :
  always_fails env (tx_id tx) ->
  exists e w1 t,
    retryLoop env maxRetries tx 0 None w = (Ok (maxRetries, Some e), w1, t) /\
    db w1 = db w /\ service w1 = service w /\ confirmed w1 = confirmed w /\
    List.filter is_schedule t =
      [EvAttempt (tx_id tx) 1; EvSleep retryDelay;
       EvAttempt (tx_id tx) 2; EvSleep retryDelay;
       EvAttempt (tx_id tx) 3] /\
    length (List.filter (is_attempt (tx_id tx)) t) = 3.
Proof.
  intros Hf.
  assert (Hfilter : forall u, Forall (fun ev => is_remote ev = true) u ->
            List.filter is_schedule u = [] /\
            List.filter (is_attempt (tx_id tx)) u = []).
  { induction 1 as [|ev u Hev _ [IH1 IH2]]; [split; reflexivity|].
    destruct ev; try discriminate; simpl; split; assumption. }
  destruct (retryBody_failed env tx 0 w (Hf _))
    as (e1 & w1 & u1 & H1 & Hdb1 & Hsvc1 & Hconf1 & _ & Hu1).
  destruct (retryBody_failed env tx 1 w1 (Hf _))
    as (e2 & w2 & u2 & H2 & Hdb2 & Hsvc2 & Hconf2 & _ & Hu2).
  destruct (retryBody_failed env tx 2 w2 (Hf _))
    as (e3 & w3 & u3 & H3 & Hdb3 & Hsvc3 & Hconf3 & _ & Hu3).
  change (0 + 1) with 1 in H1. change (1 + 1) with 2 in H2.
  change (2 + 1) with 3 in H3.
  change (1 =? maxRetries)%nat with false in H1.
  change (2 =? maxRetries)%nat with false in H2.
  change (3 =? maxRetries)%nat with true in H3.
  change (retryLoop env maxRetries tx 0 None w)
    with (retryLoop env 3 tx 0 None w).
  rewrite retryLoop_unfold by reflexivity. unfold bind at 1. rewrite H1.
  rewrite retryLoop_unfold by reflexivity. unfold bind at 1. rewrite H2.
  rewrite retryLoop_unfold by reflexivity. unfold bind at 1. rewrite H3.
  cbn [retryLoop]. unfold ret.
  eexists e3, w3, _. split; [reflexivity|].
  split; [congruence|]. split; [congruence|]. split; [congruence|].
  destruct (Hfilter u1 Hu1) as [Hs1 Ha1].
  destruct (Hfilter u2 Hu2) as [Hs2 Ha2].
  destruct (Hfilter u3 Hu3) as [Hs3 Ha3].
  split.
  - repeat (first [rewrite List.filter_app | progress simpl]).
    rewrite Hs1, Hs2, Hs3. reflexivity.
  - repeat (first [ rewrite List.filter_app
                  | rewrite bool_decide_eq_true_2 by reflexivity
                  | progress simpl ]).
    rewrite Ha1, Ha2, Ha3. reflexivity.
Qed.

End RetryLoop.

(** ** The drain pass *)

Section Drain.
Variable env : Env.

Lemma mapM_getTransaction ids w :
  mapM Db.getTransaction ids w =
    (Ok (map (fun id => transactions (db w) !! id) ids), w, []).
Proof.
  induction ids as [|id ids IH]; [reflexivity|].
  cbn [mapM]. unfold bind at 1. unfold Db.getTransaction at 1. unfold gets.
  unfold bind at 1. rewrite IH. reflexivity.
Qed.

Lemma forM__app {A} (l1 l2 : list A) body w :
  forM_ (l1 ++ l2) body w = bind (forM_ l1 body) (fun _ => forM_ l2 body) w.
Proof.
  revert w. induction l1 as [|a l1 IH]; intros w; simpl.
  - unfold bind, ret. destruct (forM_ l2 body w) as [[r w2] t2]. reflexivity.
  - unfold bind. destruct (body a w) as [[[[]|e] w1] t1]; [|reflexivity].
    specialize (IH w1). unfold bind in IH. rewrite IH.
    destruct (forM_ l1 body w1) as [[[[]|e] w2] t2]; [|reflexivity].
    destruct (forM_ l2 body w2) as [[r w3] t3]. rewrite app_assoc. reflexivity.
Qed.

Lemma _syncTransactions_run w :
  _syncTransactions env w =
    forM_ (map (fun id => transactions (db w) !! id) (pendingIds w))
      (syncOne env) w.
Proof.
  unfold _syncTransactions, pendingIds. unfold bind at 1.
  unfold Db.getSyncState at 1. unfold gets. unfold bind at 1.
  rewrite mapM_getTransaction.
  destruct (forM_ _ _ w) as [[r w1] t1]. reflexivity.
Qed.

Lemma retryLoop_first_attempt fuel tx le w :
  exists r w1 t,
    retryLoop env (S fuel) tx 0 le w = (r, w1, EvAttempt (tx_id tx) 1 :: t).
Proof.
  rewrite retryLoop_unfold by reflexivity. unfold bind.
  destruct (failed (env_response env (calls w) (tx_id tx))) eqn:Hf.
  - destruct (retryBody_failed env tx 0 w Hf) as (e & w1 & u & -> & _).
    destruct (retryLoop env fuel tx (0 + 1) (Some e) w1) as [[r w2] t2].
    eexists _, _, _. reflexivity.
  - destruct (retryBody_ok env tx 0 w Hf) as (w1 & -> & _).
    eexists _, _, _. reflexivity.
Qed.

(** One transaction of the pass: never an error; a missing record is
    skipped; otherwise the first attempt is made and the transaction is
    either left as it is or delivered. *)
Lemma syncOne_effect otx w :
  exists w1 t,
    syncOne env otx w = (Ok tt, w1, t) /\
    match otx with
    | None => w1 = w /\ t = []
    | Some tx =>
        unchanged_or_delivered (tx_id tx) w w1 /\
        (forall id, tx_id tx <> id -> Forall (foreign id) t) /\
        exists t', t = EvAttempt (tx_id tx) 1 :: t'
    end.
Proof.
  destruct otx as [tx|]; [|exists w, []; repeat split].
  unfold syncOne. unfold bind.
  destruct (retryLoop_effect env maxRetries tx 0 None w)
    as (k' & le' & w1 & t & Hrun & Heff & Ht).
  destruct (retryLoop_first_attempt 2 tx None w) as (r0 & w0 & t0 & H0).
  change (S 2) with maxRetries in H0. rewrite Hrun in H0.
  injection H0 as _ _ ->. rewrite Hrun.
  destruct ((k', le').1 =? maxRetries)%nat; simpl;
    [destruct (bool_decide _); simpl|].
  - eexists w1, _. split; [reflexivity|]. split; [exact Heff|]. split.
    + intros id Hid. specialize (Ht id Hid). apply Forall_cons in Ht as [? ?].
      apply Forall_cons. split; [assumption|].
      apply Forall_app. split; [assumption|]. repeat constructor.
    + eexists. reflexivity.
  - eexists w1, _. split; [reflexivity|]. split; [exact Heff|]. split.
    + intros id Hid. rewrite app_nil_r. apply Ht, Hid.
    + eexists. reflexivity.
  - eexists w1, _. split; [reflexivity|]. split; [exact Heff|]. split.
    + intros id Hid. rewrite app_nil_r. apply Ht, Hid.
    + eexists. reflexivity.
Qed.

(** One transaction of the pass, when the Remote Store never accepts it. *)
Lemma syncOne_always_fails tx w :
  always_fails env (tx_id tx) ->
  exists w1 t,
    syncOne env (Some tx) w = (Ok tt, w1, t) /\
    db w1 = db w /\ service w1 = service w /\ confirmed w1 = confirmed w /\
    List.filter is_schedule t =
      [EvAttempt (tx_id tx) 1; EvSleep retryDelay;
       EvAttempt (tx_id tx) 2; EvSleep retryDelay;
       EvAttempt (tx_id tx) 3] /\
    length (List.filter (is_attempt (tx_id tx)) t) = 3.
Proof.
  intros Hf.
  destruct (retryLoop_always_fails env tx w Hf)
    as (e & w1 & t & Hrun & Hdb & Hsvc & Hconf & Hsched & Hcount).
  unfold syncOne, bind. rewrite Hrun. simpl.
  eexists w1, _. split; [reflexivity|]. repeat split; try assumption.
  - rewrite List.filter_app, Hsched. reflexivity.
  - rewrite List.filter_app, length_app, Hcount. reflexivity.
Qed.

Lemma unchanged_or_delivered_other id' id w w1 :
  unchanged_or_delivered id' w w1 ->
  transactions (db w1) = transactions (db w) /\
  (id' <> id -> id ∈ pendingIds w -> id ∈ pendingIds w1).
Proof.
  intros [_ [[Hdb _]|[Hdb _]]]; unfold pendingIds; rewrite Hdb; simpl.
  - split; auto.
  - split; [reflexivity|]. intros Hne Hin.
    apply list_elem_of_filter. split; [congruence|exact Hin].
Qed.

(** The pass never raises, and attempts every transaction it loaded. *)
Lemma drain_attempts_all l w :
  exists w1 t,
    forM_ l (syncOne env) w = (Ok tt, w1, t) /\
    transactions (db w1) = transactions (db w) /\
    forall tx, Some tx ∈ l -> EvAttempt (tx_id tx) 1 ∈ t.
Proof.
  revert w. induction l as [|otx l IH]; intros w.
  - exists w, []. split; [reflexivity|]. split; [reflexivity|].
    intros tx H. apply elem_of_nil in H. contradiction.
  - cbn [forM_]. unfold bind.
    destruct (syncOne_effect otx w) as (w1 & t1 & -> & Hone).
    destruct (IH w1) as (w2 & t2 & -> & Htx & Hall).
    eexists w2, _. split; [reflexivity|]. split.
    + rewrite Htx. destruct otx as [tx|].
      * destruct Hone as [Heff _].
        apply (unchanged_or_delivered_other _ (tx_id tx)) in Heff. apply Heff.
      * destruct Hone as [-> _]. reflexivity.
    + intros tx Hin. apply elem_of_cons in Hin as [Heq|Hin].
      * subst otx. destruct Hone as (_ & _ & t' & ->). apply elem_of_app. left.
        apply elem_of_cons. left. reflexivity.
      * apply elem_of_app. right. apply Hall, Hin.
Qed.

(** A stretch of the pass without the transaction [id]: no attempt for
    [id], and [id] stays pending. *)
Lemma drain_foreign id l w :
  (forall tx, Some tx ∈ l -> tx_id tx <> id) ->
  exists w1 t,
    forM_ l (syncOne env) w = (Ok tt, w1, t) /\
    Forall (foreign id) t /\
    transactions (db w1) = transactions (db w) /\
    (id ∈ pendingIds w -> id ∈ pendingIds w1).
Proof.
  revert w. induction l as [|otx l IH]; intros w Hl.
  - exists w, []. repeat split; auto.
  - cbn [forM_]. unfold bind.
    destruct (syncOne_effect otx w) as (w1 & t1 & -> & Hone).
    destruct (IH w1) as (w2 & t2 & -> & Hfor & Htx & Hin).
    { intros tx Htx. apply Hl. apply elem_of_cons. right. exact Htx. }
    eexists w2, _. split; [reflexivity|].
    destruct otx as [tx|].
    + destruct Hone as (Heff & Hfor1 & _).
      assert (Hne : tx_id tx <> id).
      { apply Hl. apply elem_of_cons. left. reflexivity. }
      apply (unchanged_or_delivered_other _ id) in Heff as [Htx1 Hin1].
      split; [apply Forall_app; split; [apply Hfor1, Hne|exact Hfor]|].
      split; [congruence|]. intros H. apply Hin, Hin1; assumption.
    + destruct Hone as [-> ->]. simpl. repeat split; assumption.
Qed.

End Drain.

Lemma foreign_no_attempt id t :
  Forall (foreign id) t -> List.filter (is_attempt id) t = [].
Proof.
  induction 1 as [|ev t Hev _ IH]; [reflexivity|].
  simpl. unfold foreign in Hev. rewrite Hev. exact IH.
Qed.

(** C3. In a drain pass, a pending transaction that the Remote Store never
    accepts is attempted exactly [maxRetries = 3] times; between two
    consecutive attempts the pass waits [retryDelay = 5000] milliseconds,
    5 seconds, and there is no wait after the last one; afterwards its id
    is still in [pendingTransactions], its record is still in the Local
    Store, and its status is ['pending']. The pass itself ends without
    error. *)
Theorem retry_ceiling :
  forall (env : Env) (transaction : Transaction) (w : World),
    keyed w ->
    NoDup (pendingIds w) ->
    tx_id transaction ∈ pendingIds w ->
    transactions (db w) !! tx_id transaction = Some transaction ->
    always_fails env (tx_id transaction) ->
    let id := tx_id transaction in
    let out := _syncTransactions env w in
    run_result out = Ok tt /\
    length (List.filter (is_attempt id) (run_trace out)) = 3 /\
    (exists before loop after,
       run_trace out = before ++ loop ++ after /\
       Forall (foreign id) before /\ Forall (foreign id) after /\
       List.filter is_schedule loop =
         [EvAttempt id 1; EvSleep (5 * 1000);
          EvAttempt id 2; EvSleep (5 * 1000);
          EvAttempt id 3]) /\
    id ∈ pendingIds (run_world out) /\
    transactions (db (run_world out)) !! id = Some transaction /\
    run_result (getTransactionSyncStatus id (run_world out)) = Ok Pending.
Proof.
  intros env tx w Hkey Hnd Hin Htx Hf id out. subst out id.
  rewrite _syncTransactions_run.
  destruct (list_elem_of_split _ _ Hin) as (ids1 & ids2 & Hsplit).
  rewrite Hsplit in Hnd |- *.
  apply NoDup_app in Hnd as (_ & Hnot1 & Hnd2).
  apply NoDup_cons in Hnd2 as [Hnot2 _].
  assert (Hother : forall ids, tx_id tx ∉ ids ->
            forall tx', Some tx' ∈ map (fun k => transactions (db w) !! k) ids ->
                        tx_id tx' <> tx_id tx).
  { intros ids Hnot tx' H.
    apply list_elem_of_In, in_map_iff in H as (k & Hk & Hkin).
    apply Hkey in Hk. apply list_elem_of_In in Hkin.
    intros Heq. apply Hnot. congruence. }
  assert (Hnot1' : tx_id tx ∉ ids1).
  { intros H. eapply Hnot1; [exact H|left]. }
  rewrite map_app, forM__app. cbn [map forM_]. rewrite Htx.
  unfold bind.
  destruct (drain_foreign env (tx_id tx) _ w (Hother ids1 Hnot1'))
    as (w1 & t1 & -> & Hfor1 & Htx1 & Hin1).
  destruct (syncOne_always_fails env tx w1 Hf)
    as (w2 & t2 & -> & Hdb2 & _ & _ & Hsched & Hcount).
  destruct (drain_foreign env (tx_id tx) _ w2 (Hother ids2 Hnot2))
    as (w3 & t3 & -> & Hfor3 & Htx3 & Hin3).
  assert (Hpend : tx_id tx ∈ pendingIds w3).
  { apply Hin3. unfold pendingIds. rewrite Hdb2. apply Hin1.
    rewrite Hsplit. apply elem_of_app. right. left. }
  unfold run_result, run_trace, run_world. simpl.
  split; [reflexivity|]. split.
  { rewrite !List.filter_app, !length_app.
    rewrite (foreign_no_attempt _ _ Hfor1), (foreign_no_attempt _ _ Hfor3).
    rewrite Hcount. reflexivity. }
  split.
  { exists t1, t2, t3. repeat split; assumption. }
  split; [exact Hpend|].
  split; [rewrite Htx3, Hdb2, Htx1; exact Htx|].
  unfold getTransactionSyncStatus, Db.getSyncState, bind, gets.
  unfold pendingIds in Hpend. rewrite bool_decide_eq_true_2 by exact Hpend.
  reflexivity.
Qed.

(** ** The pending set *)

Lemma invariant_initial onLine hint remote :
  invariant (initial onLine hint remote).
Proof.
  unfold invariant, keyed, pending_exact, pendingIds. simpl.
  split; [|split; [|split]].
  - intros k t H. rewrite lookup_empty in H. discriminate.
  - constructor.
  - intros id. rewrite lookup_empty. split.
    + intros H. apply elem_of_nil in H. contradiction.
    + intros [[? H] _]. discriminate.
  - intros id H. apply elem_of_nil in H. contradiction.
Qed.

Lemma invariant_ext w w1 :
  transactions (db w1) = transactions (db w) ->
  pendingIds w1 = pendingIds w ->
  confirmed w1 = confirmed w ->
  invariant w -> invariant w1.
Proof.
  intros Ht Hp Hc (Hk & Hnd & Hpe & Hcd).
  unfold invariant, keyed, pending_exact. rewrite Ht, Hp, Hc. auto.
Qed.

Lemma add_pending_elem id id' s :
  id' ∈ pendingTransactions (Db.add_pending id s) <->
  id' ∈ pendingTransactions s \/ id' = id.
Proof.
  unfold Db.add_pending. simpl. case_bool_decide as Hin.
  - split; [auto|]. intros [H| ->]; assumption.
  - rewrite elem_of_app, list_elem_of_singleton. reflexivity.
Qed.

Lemma add_pending_NoDup id s :
  NoDup (pendingTransactions s) ->
  NoDup (pendingTransactions (Db.add_pending id s)).
Proof.
  intros Hnd. unfold Db.add_pending. simpl. case_bool_decide as Hin; [exact Hnd|].
  apply NoDup_app. split; [exact Hnd|]. split; [|apply NoDup_singleton].
  intros x Hx Hx'. apply list_elem_of_singleton in Hx'. subst x. contradiction.
Qed.

(** Saving a new sale and queueing its id. *)
Lemma invariant_saved_pending tx w w1 :
  invariant w ->
  transactions (db w) !! tx_id tx = None ->
  db w1 = saved_pending tx (db w) ->
  confirmed w1 = confirmed w ->
  invariant w1.
Proof.
  intros (Hk & Hnd & Hpe & Hcd) Hfresh Hdb Hc.
  assert (Hnc : tx_id tx ∉ confirmed w).
  { intros H. apply Hcd in H as [? H]. congruence. }
  unfold invariant, keyed, pending_exact, pendingIds.
  rewrite Hdb, Hc. unfold saved_pending. cbn [transactions syncState].
  split; [|split; [|split]].
  - intros k t H. apply lookup_insert_Some in H as [[<- <-]|[_ H]]; auto.
  - apply add_pending_NoDup, Hnd.
  - intros id. rewrite add_pending_elem.
    destruct (decide (id = tx_id tx)) as [->|Hne].
    + rewrite lookup_insert_eq. split; [eauto|auto].
    + rewrite lookup_insert_ne by congruence. rewrite <- (Hpe id).
      unfold pendingIds. tauto.
  - intros id H. destruct (decide (id = tx_id tx)) as [->|Hne].
    + rewrite lookup_insert_eq. eauto.
    + rewrite lookup_insert_ne by congruence. auto.
Qed.

(** Saving a new sale that is delivered at once. *)
Lemma invariant_saved_delivered tx w w1 :
  invariant w ->
  transactions (db w) !! tx_id tx = None ->
  transactions (db w1) = <[tx_id tx := tx]> (transactions (db w)) ->
  pendingIds w1 = pendingIds w ->
  confirmed w1 = tx_id tx :: confirmed w ->
  invariant w1.
Proof.
  intros (Hk & Hnd & Hpe & Hcd) Hfresh Ht Hp Hc.
  unfold invariant, keyed, pending_exact.
  rewrite Ht, Hp, Hc. split; [|split; [|split]].
  - intros k t H. apply lookup_insert_Some in H as [[<- <-]|[_ H]]; auto.
  - exact Hnd.
  - intros id. rewrite not_elem_of_cons.
    destruct (decide (id = tx_id tx)) as [->|Hne].
    + rewrite lookup_insert_eq. split; [|tauto].
      intros H. apply Hpe in H as [[? H] _]. congruence.
    + rewrite lookup_insert_ne by congruence. rewrite (Hpe id). tauto.
  - intros id H. destruct (decide (id = tx_id tx)) as [->|Hne].
    + rewrite lookup_insert_eq. eauto.
    + rewrite lookup_insert_ne by congruence.
      apply elem_of_cons in H as [H|H]; [contradiction|auto].
Qed.

(** A step of the drain pass on a stored transaction. *)
Lemma invariant_drained id w w1 :
  invariant w ->
  is_Some (transactions (db w) !! id) ->
  unchanged_or_delivered id w w1 ->
  invariant w1.
Proof.
  intros Hinv Hsome [_ [[Hdb Hc]|[Hdb Hc]]].
  - apply (invariant_ext w); unfold pendingIds; try rewrite Hdb; auto.
  - destruct Hinv as (Hk & Hnd & Hpe & Hcd).
    unfold invariant, keyed, pending_exact, pendingIds.
    rewrite Hdb, Hc. unfold removed_pending, Db.remove_pending.
    cbn [transactions syncState pendingTransactions].
    split; [|split; [|split]].
    + exact Hk.
    + apply NoDup_filter, Hnd.
    + intros id'. rewrite list_elem_of_filter, not_elem_of_cons.
      specialize (Hpe id'). unfold pendingIds in Hpe. tauto.
    + intros id' H. apply elem_of_cons in H as [->|H]; auto.
Qed.

Section InvariantKept.
Variable env : Env.

(** A full refresh, read off the answer of the Remote Store. *)
Lemma syncProducts_force_run w :
  syncProducts env true w =
    match env_productsError env (calls w) with
    | Some e =>
        (Throw ("Failed to fetch products: " +:+ e), tick w,
         [EvSelectProducts false])
    | None =>
        match r_products (supabase w) with
        | [] => (Ok tt, tick w, [EvSelectProducts true])
        | p :: ps =>
            (Ok tt,
             set_db (fun d =>
               {| products := foldl Db.put_product ∅ (p :: ps);
                  transactions := transactions d;
                  syncState := syncState d |}) (tick w),
             [EvSelectProducts true])
        end
    end.
Proof.
  unfold syncProducts. run_m.
  destruct (env_productsError env (calls w)); simpl; [reflexivity|].
  destruct (r_products (supabase w)); reflexivity.
Qed.

Lemma invariant_syncProducts : preserves invariant (syncProducts env true).
Proof.
  intros w H. rewrite syncProducts_force_run.
  destruct (env_productsError env (calls w)); [exact H|].
  destruct (r_products (supabase w)); [exact H|].
  apply (invariant_ext w); auto.
Qed.

Lemma invariant_stampLastSync : preserves invariant stampLastSync.
Proof. intros w H. apply (invariant_ext w); auto. Qed.

Lemma invariant_drain l w :
  (forall tx, Some tx ∈ l -> is_Some (transactions (db w) !! tx_id tx)) ->
  invariant w ->
  invariant (run_world (forM_ l (syncOne env) w)).
Proof.
  revert w. induction l as [|otx l IH]; intros w Hl Hinv; [exact Hinv|].
  cbn [forM_]. unfold bind, run_world.
  destruct (syncOne_effect env otx w) as (w1 & t1 & -> & Hone).
  assert (Hstep : invariant w1 /\ transactions (db w1) = transactions (db w)).
  { destruct otx as [tx|].
    - destruct Hone as (Heff & _). split.
      + apply (invariant_drained (tx_id tx) w); auto.
        apply Hl. apply elem_of_cons. left. reflexivity.
      + apply (unchanged_or_delivered_other _ (tx_id tx)) in Heff. apply Heff.
    - destruct Hone as [-> _]. split; auto. }
  destruct Hstep as [Hinv1 Htx1].
  specialize (IH w1). unfold run_world in IH.
  destruct (forM_ l (syncOne env) w1) as [[r w2] t2]. apply IH.
  - intros tx Hin. rewrite Htx1. apply Hl. apply elem_of_cons. right. exact Hin.
  - exact Hinv1.
Qed.

Lemma invariant__syncTransactions : preserves invariant (_syncTransactions env).
Proof.
  intros w Hinv. rewrite _syncTransactions_run. apply invariant_drain; auto.
  intros tx Hin. apply list_elem_of_In, in_map_iff in Hin as (k & Hk & _).
  destruct Hinv as (Hkey & _). rewrite <- (Hkey _ _ Hk) in Hk. eauto.
Qed.

Lemma invariant_service f w : invariant w -> invariant (set_service f w).
Proof. intros H. apply (invariant_ext w); auto. Qed.

Lemma invariant_sync : preserves invariant (sync env).
Proof.
  unfold sync. apply preserves_bind; [apply preserves_gets|]. intros s.
  destruct (skipsSync s); [apply preserves_ret|].
  apply preserves_bind.
  { apply preserves_modify. intros w. apply invariant_service. }
  intros _. apply preserves_try_finally.
  - apply preserves_try_catch; [|intros e; apply preserves_ret].
    apply preserves_bind; [apply invariant_syncProducts|]. intros _.
    apply preserves_bind; [apply invariant__syncTransactions|]. intros _.
    apply invariant_stampLastSync.
  - intros w. apply invariant_service.
Qed.

Lemma invariant_syncTransactions : preserves invariant (syncTransactions env).
Proof.
  unfold syncTransactions. apply preserves_bind; [apply preserves_gets|].
  intros s. destruct (negb _); [apply preserves_throw|].
  destruct (svc_isSyncing s); [apply preserves_throw|].
  apply preserves_bind.
  { apply preserves_modify. intros w. apply invariant_service. }
  intros _. apply preserves_try_finally.
  - apply preserves_try_catch; [|intros e; apply preserves_throw].
    apply preserves_bind; [apply invariant__syncTransactions|]. intros _.
    apply invariant_stampLastSync.
  - intros w. apply invariant_service.
Qed.

Lemma invariant_saveTransaction tx w :
  transactions (db w) !! tx_id tx = None ->
  invariant w ->
  invariant (run_world (saveTransaction env tx w)).
Proof.
  intros Hfresh Hinv.
  destruct (isOnline (syncState (db w))) eqn:Hh.
  - destruct (failed (env_response env (calls w) (tx_id tx))) eqn:Hf.
    + destruct (saveTransaction_failed env tx w Hh Hf)
        as (e & w1 & u & -> & Hdb & _ & Hc & _).
      apply (invariant_saved_pending tx w); assumption.
    + destruct (saveTransaction_ok env tx w Hh Hf)
        as (w1 & -> & _ & Ht & Hp & _ & _ & Hc).
      apply (invariant_saved_delivered tx w); assumption.
  - rewrite (saveTransaction_offline env tx w Hh).
    apply (invariant_saved_pending tx w); auto.
Qed.

Lemma invariant_reachable w : reachable env fresh_ids w -> invariant w.
Proof.
  induction 1 as [onLine hint remote|w op _ IH Hop].
  - apply invariant_initial.
  - destruct op as [tx| | | |]; simpl in *.
    + apply invariant_saveTransaction; assumption.
    + apply invariant_sync, IH.
    + apply invariant_syncTransactions, IH.
    + unfold onOnline. apply preserves_bind; [| |exact IH].
      * apply preserves_modify. intros w'. apply invariant_service.
      * intros _. apply invariant_sync.
    + apply invariant_service, IH.
Qed.

End InvariantKept.

(** The end-to-end scenario: a sale made offline is delivered on
    reconnection and leaves the pending set. *)
Example reconnected_delivers :
  pendingIds reconnected = [] /\
  confirmed reconnected = ["T1"] /\
  is_Some (r_transactions (supabase reconnected) !! "T1") /\
  map ir_payload (r_transaction_items (supabase reconnected)) =
    [toPayload "T1" coffee].
Proof. vm_compute. repeat split. eauto. Qed.

(** *** The pending set along a history *)







Section LedgerKept.
Variable env : Env.
Variable count : string -> nat.











End LedgerKept.



(** The histories of [run_ops] are those of [reachable]. *)
Lemma run_ops_reachable env ops onLine hint remote :
  reachable env any_op (run_ops env ops (initial onLine hint remote)).
Proof.
  induction ops as [|op ops IH] using rev_ind; [apply reach_initial|].
  unfold run_ops. rewrite foldl_app. simpl.
  apply reach_step; [exact IH|exact I].
Qed.




(** In that history [saveTransaction] is called twice for ["T1"]. *)
Example resaved_history :
  resaved =
    run_ops envFlaky [OpSaveTransaction T1; OpSaveTransaction T1]
      (initial true true emptyRemote) /\
  saves "T1" [OpSaveTransaction T1; OpSaveTransaction T1] = 2.
Proof. split; reflexivity. Qed.



Lemma twoPending_reachable : reachable envDown fresh_ids twoPending.
Proof.
  unfold twoPending.
  apply (reach_step envDown fresh_ids _ (OpSaveTransaction T2)).
  - apply (reach_step envDown fresh_ids _ (OpSaveTransaction T1)).
    + apply reach_initial.
    + reflexivity.
  - vm_compute. reflexivity.
Defined.

Lemma retry_ceiling_witness :
  length (List.filter (is_attempt "T1")
            (run_trace (_syncTransactions envT1Down twoPending))) = 3 /\
  "T1" ∈ pendingIds (run_world (_syncTransactions envT1Down twoPending)).
Proof.
  pose proof (invariant_reachable envDown twoPending twoPending_reachable)
    as (Hk & Hnd & _).
  assert (Hin : tx_id T1 ∈ pendingIds twoPending).
  { change (pendingIds twoPending) with ["T1"; "T2"]. left. }
  assert (Hlk : transactions (db twoPending) !! tx_id T1 = Some T1).
  { vm_compute. reflexivity. }
  assert (Hf : always_fails envT1Down (tx_id T1)).
  { intros n. reflexivity. }
  pose proof (retry_ceiling envT1Down T1 twoPending Hk Hnd Hin Hlk Hf) as H.
  cbv zeta in H. destruct H as (_ & Hcount & _ & Hpend & _).
  split; assumption.
Defined.

(** The pass of the witness: three attempts for ["T1"] with two waits,
    then ["T2"] is delivered at its first attempt and leaves the set. *)
Example twoPending_drained :
  run_trace (_syncTransactions envT1Down twoPending) =
    [EvAttempt "T1" 1; EvGetUser true; EvUpsertTransaction "T1" false;
     EvSleep 5000;
     EvAttempt "T1" 2; EvGetUser true; EvUpsertTransaction "T1" false;
     EvSleep 5000;
     EvAttempt "T1" 3; EvGetUser true; EvUpsertTransaction "T1" false;
     EvExhausted "T1"; EvFailed "T1";
     EvAttempt "T2" 1; EvGetUser true; EvUpsertTransaction "T2" true;
     EvUpsertItems "T2" true] /\
  pendingIds (run_world (_syncTransactions envT1Down twoPending)) = ["T1"].
Proof. vm_compute. split; reflexivity. Qed.

(** ** Failures do not stop the pass *)

Lemma try_catch_swallow (m : M unit) w :
  run_result (try_catch m (fun _ => ret tt) w) = Ok tt.
Proof.
  unfold try_catch, ret, run_result.
  destruct (m w) as [[[[]|e] w1] t1]; reflexivity.
Qed.

Lemma sync_result env w : run_result (sync env w) = Ok tt.
Proof.
  unfold sync. unfold bind at 1. unfold gets.
  destruct (skipsSync (service w)); [reflexivity|].
  unfold bind, modify, try_finally, run_result.
  pose proof (try_catch_swallow
    (syncProducts env true ;;; _syncTransactions env ;;; stampLastSync)
    (set_service (set_isSyncing true) w)) as H.
  unfold run_result in H.
  destruct (try_catch _ _ _) as [[r w1] t1]. exact H.
Qed.

Lemma syncProducts_fetched env w :
  env_productsError env (calls w) = None ->
  exists w1,
    syncProducts env true w = (Ok tt, w1, [EvSelectProducts true]) /\
    transactions (db w1) = transactions (db w) /\
    syncState (db w1) = syncState (db w) /\
    service w1 = service w /\ confirmed w1 = confirmed w.
Proof.
  intros Hfetch. rewrite syncProducts_force_run, Hfetch.
  destruct (r_products (supabase w)); eexists; split; try reflexivity;
    repeat split.
Qed.

Lemma sync_attempts_all env w id tx :
  skipsSync (service w) = false ->
  env_productsError env (calls w) = None ->
  id ∈ pendingIds w ->
  transactions (db w) !! id = Some tx ->
  EvAttempt (tx_id tx) 1 ∈ run_trace (sync env w).
Proof.
  intros Hgo Hfetch Hin Hlk.
  unfold sync. unfold bind at 1. unfold gets. rewrite Hgo.
  unfold bind at 1. unfold modify.
  set (w0 := set_service (set_isSyncing true) w).
  destruct (syncProducts_fetched env w0 Hfetch)
    as (w1 & Hsp & Ht1 & Hs1 & _).
  unfold try_finally, try_catch, bind. rewrite Hsp.
  rewrite _syncTransactions_run.
  destruct (drain_attempts_all env
              (map (fun k => transactions (db w1) !! k) (pendingIds w1)) w1)
    as (w2 & t2 & -> & _ & Hall).
  assert (Hev : EvAttempt (tx_id tx) 1 ∈ t2).
  { apply Hall. apply list_elem_of_In, in_map_iff. exists id.
    rewrite Ht1. split; [exact Hlk|]. apply list_elem_of_In.
    unfold pendingIds. rewrite Hs1. exact Hin. }
  destruct (stampLastSync w2) as [[[[]|e] w3] t3]; unfold run_trace; simpl;
    apply elem_of_cons; right; rewrite ?app_nil_r;
    apply elem_of_app; left; exact Hev.
Qed.

(** C8. One pending transaction that cannot be delivered, even after all
    its attempts, does not keep the pass from the others: the drain pass
    ends without error and its trace holds a first attempt for every
    pending id that has a record in the Local Store, whatever the Remote
    Store answers. [sync] never raises, so it reports no error to its
    caller also when transactions stay pending; and when its guard lets it
    run and the catalogue is fetched, its trace too holds an attempt for
    every pending transaction. *)
Theorem drain_continues_past_failures :
  forall (env : Env) (w : World),
    run_result (_syncTransactions env w) = Ok tt /\
    (forall id transaction,
       id ∈ pendingIds w ->
       transactions (db w) !! id = Some transaction ->
       EvAttempt (tx_id transaction) 1 ∈ run_trace (_syncTransactions env w)) /\
    run_result (sync env w) = Ok tt /\
    (forall id transaction,
       skipsSync (service w) = false ->
       env_productsError env (calls w) = None ->
       id ∈ pendingIds w ->
       transactions (db w) !! id = Some transaction ->
       EvAttempt (tx_id transaction) 1 ∈ run_trace (sync env w)).
Proof.
  intros env w.
  rewrite _syncTransactions_run.
  destruct (drain_attempts_all env
              (map (fun k => transactions (db w) !! k) (pendingIds w)) w)
    as (w1 & t1 & -> & _ & Hall).
  split; [reflexivity|]. split.
  { intros id tx Hin Hlk. apply Hall.
    apply list_elem_of_In, in_map_iff. exists id.
    split; [exact Hlk|]. apply list_elem_of_In, Hin. }
  split; [apply sync_result|].
  intros id tx. apply sync_attempts_all.
Qed.

Lemma drain_continues_past_failures_witness :
  EvAttempt "T2" 1 ∈ run_trace (_syncTransactions envT1Down twoPending) /\
  run_result (sync envT1Down twoPending) = Ok tt /\
  EvAttempt "T2" 1 ∈ run_trace (sync envT1Down twoPending).
Proof.
  pose proof (drain_continues_past_failures envT1Down twoPending)
    as (_ & Hdrain & Hok & Hsync).
  assert (Hin : "T2" ∈ pendingIds twoPending).
  { change (pendingIds twoPending) with ["T1"; "T2"]. right. left. }
  assert (Hlk : transactions (db twoPending) !! "T2" = Some T2).
  { vm_compute. reflexivity. }
  split; [exact (Hdrain "T2" T2 Hin Hlk)|].
  split; [exact Hok|].
  apply (Hsync "T2" T2); [reflexivity|reflexivity|exact Hin|exact Hlk].
Defined.

(** ** Full refresh of the product cache *)

Lemma foldl_put_product_lookup ps :
  forall m k p,
    NoDup (map prod_id ps) ->
    (foldl Db.put_product m ps !! k = Some p <->
     (p ∈ ps /\ prod_id p = k) \/ (m !! k = Some p /\ k ∉ map prod_id ps)).
Proof.
  induction ps as [|q ps IH]; intros m k p Hnd; simpl.
  - rewrite elem_of_nil. split; [intros H; right; split; [exact H|]|].
    + intros H'. apply elem_of_nil in H'. contradiction.
    + intros [[[] _]|[H _]]. exact H.
  - apply NoDup_cons in Hnd as [Hq Hnd].
    rewrite (IH _ k p Hnd). unfold Db.put_product.
    rewrite elem_of_cons, not_elem_of_cons.
    destruct (decide (k = prod_id q)) as [->|Hne].
    + rewrite lookup_insert_eq. split.
      * intros [[Hin Hid]|[Heq Hk]]; left; [auto|].
        injection Heq as <-. auto.
      * intros [[[->|Hin] Hid]|[_ [Hk _]]]; [right|left|contradiction]; auto.
    + rewrite lookup_insert_ne by congruence. split.
      * intros [[Hin Hid]|[Hm Hk]]; [left|right]; auto.
      * intros [[[->|Hin] Hid]|[Hm [_ Hk]]]; [congruence|left|right]; auto.
Qed.

(** C4, as amended. When the Remote Store gives a non-empty set of
    products, a full refresh ends without error and leaves in the local
    cache exactly that set, each product under its id, whatever the cache
    held before: products that are not in the fetched set are gone,
    products new in it are present. When the fetched set is empty the
    refresh returns at once and the cache keeps what it held. *)
Theorem full_refresh_replaces :
  forall (env : Env) (w : World),
    env_productsError env (calls w) = None ->
    let fetched := r_products (supabase w) in
    let out := syncProducts env true w in
    run_result out = Ok tt /\
    (fetched <> [] -> NoDup (map prod_id fetched) ->
       cache_is (products (db (run_world out))) fetched) /\
    (fetched = [] -> products (db (run_world out)) = products (db w)).
Proof.
  intros env w Hfetch fetched out. subst fetched out.
  rewrite syncProducts_force_run, Hfetch.
  destruct (r_products (supabase w)) as [|q ps] eqn:Hps.
  - split; [reflexivity|]. split; [congruence|reflexivity].
  - split; [reflexivity|]. split; [|discriminate].
    intros _ Hnd k p. unfold run_world. cbn [db set_db products fst snd].
    rewrite (foldl_put_product_lookup (q :: ps) ∅ k p Hnd).
    rewrite lookup_empty. split; [intros [H|[H _]]|intros H; left];
      [exact H|discriminate|exact H].
Qed.

Lemma full_refresh_replaces_witness :
  cache_is
    (products (db (run_world (syncProducts envUp true (cachedAB remoteBC)))))
    [productB; productC] /\
  products (db (run_world (syncProducts envUp true (cachedAB remoteBC)))) !! "A"
    = None /\
  products (db (cachedAB remoteBC)) !! "A" = Some productA.
Proof.
  assert (Hne : r_products (supabase (cachedAB remoteBC)) <> []).
  { discriminate. }
  assert (Hnd : NoDup (map prod_id (r_products (supabase (cachedAB remoteBC))))).
  { change (NoDup ["B"; "C"]). apply NoDup_cons. split.
    - intros H. apply list_elem_of_singleton in H. discriminate.
    - apply NoDup_singleton. }
  pose proof (full_refresh_replaces envUp (cachedAB remoteBC) eq_refl) as H.
  cbv zeta in H. destruct H as (_ & H & _).
  split; [exact (H Hne Hnd)|]. split; vm_compute; reflexivity.
Defined.

(** C4, as stated, fails when the Remote Store gives no product: the
    cache [{A, B}] is not replaced by the empty set, product [A] is still
    there after the refresh. *)
Lemma full_refresh_keeps_cache_on_empty_fetch :
  env_productsError envUp (calls (cachedAB emptyRemote)) = None /\
  r_products (supabase (cachedAB emptyRemote)) = [] /\
  ~ cache_is
      (products (db (run_world (syncProducts envUp true (cachedAB emptyRemote)))))
      (r_products (supabase (cachedAB emptyRemote))).
Proof.
  split; [reflexivity|]. split; [reflexivity|].
  intros H. specialize (H "A" productA). destruct H as [H _].
  destruct H as [H _]; [vm_compute; reflexivity|].
  apply elem_of_nil in H. exact H.
Qed.

(** ** Delivering twice *)

Lemma length_number_rows n rows :
  length (Supabase.number_rows n rows) = length rows.
Proof.
  revert n. induction rows as [|r rows IH]; intros n; simpl; [reflexivity|].
  rewrite IH. reflexivity.
Qed.

(** A second accepted delivery adds the line items once more. *)
Lemma redelivery_appends_items env tx w :
  failed (env_response env (calls w) (tx_id tx)) = false ->
  failed (env_response env (S (calls w)) (tx_id tx)) = false ->
  let once := run_world (uploadTransaction env tx w) in
  let twice := run_world (uploadTransaction env tx once) in
  length (r_transaction_items (supabase twice)) =
    length (r_transaction_items (supabase once)) + length (tx_items tx).
Proof.
  intros H1 H2. apply failed_false in H1 as ([u1 Hu1] & Ht1 & Hi1).
  apply failed_false in H2 as ([u2 Hu2] & Ht2 & Hi2).
  unfold uploadTransaction. run_m.
  rewrite Hu1, Ht1. simpl. rewrite Hi1. simpl.
  rewrite Hu2, Ht2. simpl. rewrite Hi2. simpl.
  rewrite !length_app, !length_number_rows, length_map. reflexivity.
Qed.

(** C1, on the code. [T1], with one line item, is pending. When the pass
    delivers it at the first attempt the Remote Store holds one item row
    for it. When the answer to the first attempt is lost after both writes
    were done, the retry sends both upserts again: the transaction row is
    overwritten with the same values, and the item row is inserted a second
    time under a new generated key, so the Remote Store holds two item rows
    for the one line item. *)
Theorem redelivery_duplicates_item_rows :
  let once := run_world (_syncTransactions envUp t1Pending) in
  let retried := run_world (_syncTransactions envLostAnswer t1Pending) in
  run_trace (_syncTransactions envLostAnswer t1Pending) =
    [EvAttempt "T1" 1; EvGetUser true; EvUpsertTransaction "T1" true;
     EvUpsertItems "T1" false; EvSleep 5000;
     EvAttempt "T1" 2; EvGetUser true; EvUpsertTransaction "T1" true;
     EvUpsertItems "T1" true] /\
  r_transactions (supabase retried) = r_transactions (supabase once) /\
  map ir_payload (r_transaction_items (supabase once)) =
    [toPayload "T1" coffee] /\
  map ir_payload (r_transaction_items (supabase retried)) =
    [toPayload "T1" coffee; toPayload "T1" coffee] /\
  r_transaction_items (supabase retried) <>
    r_transaction_items (supabase once).
Proof.
  vm_compute. repeat split. discriminate.
Qed.

(** ** One pass at a time *)

Lemma skipsSync_iff s :
  skipsSync s = true <-> svc_isOnline s = false \/ svc_isSyncing s = true.
Proof.
  unfold skipsSync. destruct (svc_isOnline s), (svc_isSyncing s); simpl;
    split; auto; intros [H|H]; discriminate.
Qed.

Lemma sync_skipped env w :
  skipsSync (service w) = true -> sync env w = (Ok tt, w, []).
Proof.
  intros H. unfold sync, bind, gets. rewrite H. reflexivity.
Qed.

(** When the guard lets [sync] through, the pass runs with the flag set
    and the [finally] block clears it. *)
Lemma sync_clears_flag env w :
  skipsSync (service w) = false ->
  svc_isSyncing (service (run_world (sync env w))) = false.
Proof.
  intros H. unfold sync, bind, gets. rewrite H.
  unfold modify, try_finally, run_world.
  destruct (try_catch _ _ _) as [[r w1] t1]. reflexivity.
Qed.

Lemma flight_ok_enter f :
  svc_isSyncing (fl_service f) = false -> flight_ok f ->
  flight_ok (enter_pass f).
Proof.
  unfold flight_ok. intros Hs H. rewrite Hs in H. simpl. rewrite H. reflexivity.
Qed.

Lemma flight_ok_call_sync f : flight_ok f -> flight_ok (call_sync f).
Proof.
  intros H. unfold call_sync.
  destruct (skipsSync (fl_service f)) eqn:Hskip; [exact H|].
  apply flight_ok_enter; [|exact H]. unfold skipsSync in Hskip.
  destruct (svc_isSyncing (fl_service f)); [|reflexivity].
  rewrite orb_true_r in Hskip. discriminate.
Qed.

Lemma flight_ok_step f e : flight_ok f -> flight_ok (flight_step f e).
Proof.
  intros H. destruct e; simpl.
  - apply flight_ok_call_sync, H.
  - destruct (negb _); [exact H|].
    destruct (svc_isSyncing (fl_service f)) eqn:Hs; [exact H|].
    apply flight_ok_enter; assumption.
  - unfold flight_ok in *.
    destruct (fl_running f) as [|n] eqn:Hn; [congruence|]. simpl.
    destruct (svc_isSyncing (fl_service f)); congruence.
  - apply flight_ok_call_sync. exact H.
  - exact H.
Qed.

Lemma flight_ok_run onLine es : flight_ok (flight_run onLine es).
Proof.
  unfold flight_run.
  assert (H : flight_ok (flight_start onLine)) by reflexivity.
  revert H. generalize (flight_start onLine).
  induction es as [|e es IH]; intros f H; simpl; [exact H|].
  apply IH, flight_ok_step, H.
Qed.

(** C7. [sync] called while the service is offline, or while its
    [isSyncing] flag is set, returns at once: no error, no action, the
    world as it was. Whatever calls and connectivity events arrive while
    passes run, at most one pass is in flight, and a call of [sync] that
    arrives while one is in flight starts nothing. *)
Theorem sync_is_exclusive :
  forall (env : Env) (w : World),
    (svc_isOnline (service w) = false \/ svc_isSyncing (service w) = true ->
       sync env w = (Ok tt, w, [])) /\
    (forall onLine es, fl_running (flight_run onLine es) <= 1) /\
    (forall onLine es,
       fl_running (flight_run onLine es) = 1 ->
       flight_step (flight_run onLine es) CallSync = flight_run onLine es).
Proof.
  intros env w. split; [|split].
  - intros H. apply sync_skipped, skipsSync_iff, H.
  - intros onLine es. pose proof (flight_ok_run onLine es) as H.
    unfold flight_ok in H. rewrite H. destruct (svc_isSyncing _); lia.
  - intros onLine es Hrun. pose proof (flight_ok_run onLine es) as H.
    unfold flight_ok in H. rewrite Hrun in H. simpl. unfold call_sync.
    destruct (svc_isSyncing (fl_service (flight_run onLine es))) eqn:Hs;
      [|discriminate].
    unfold skipsSync. rewrite Hs, orb_true_r. reflexivity.
Qed.

Lemma sync_is_exclusive_witness :
  sync envUp busy = (Ok tt, busy, []) /\
  fl_running (flight_run true [CallSync; GoesOffline; GoesOnline; CallSync]) = 1.
Proof.
  split.
  - apply (sync_is_exclusive envUp busy). right. reflexivity.
  - reflexivity.
Defined.

(** * Further properties of the code *)

(** ** What a delivery and a round of the loop leave alone *)

(** The stock trigger changes the stock of a product, never which
    products the catalogue holds. *)
Lemma sell_ids rows ps :
  map prod_id (foldl Supabase.sell ps rows) = map prod_id ps.
Proof.
  revert ps. induction rows as [|row rows IH]; intros ps; [reflexivity|].
  cbn [foldl]. rewrite IH. unfold Supabase.sell. rewrite map_map.
  apply map_ext. intros p. unfold Supabase.lower_stock.
  destruct (String.eqb _ _); reflexivity.
Qed.

Lemma uploadTransaction_quiet env tx w :
  now (run_world (uploadTransaction env tx w)) = now w /\
  map prod_id (r_products (supabase (run_world (uploadTransaction env tx w)))) =
    map prod_id (r_products (supabase w)) /\
  Forall (fun ev => is_remote ev = true)
    (run_trace (uploadTransaction env tx w)).
Proof.
  unfold uploadTransaction. run_m.
  destruct (resp_user _); simpl; [|repeat split; repeat constructor].
  destruct (resp_transactionError _); simpl;
    [destruct (resp_transactionLanded _); simpl;
     repeat split; repeat constructor|].
  destruct (resp_itemsError _); [destruct (resp_itemsLanded _)|]; simpl;
    rewrite ?sell_ids; repeat split; repeat constructor.
Qed.

Lemma remote_no_attempt u :
  Forall (fun ev => is_remote ev = true) u ->
  List.filter is_any_attempt u = [].
Proof.
  induction 1 as [|ev u Hev _ IH]; [reflexivity|].
  destruct ev; try discriminate; simpl; exact IH.
Qed.

(** One round: one attempt, at most one wait, and either [break] or one
    more retry counted. *)
Lemma retryBody_bounds env tx k w :
  exists next w1 t,
    retryBody env tx k w = (Ok next, w1, t) /\
    (next = None \/ exists e, next = Some (k + 1, e)) /\
    now w <= now w1 /\
    now w1 <= now w + (if (k + 1 =? maxRetries)%nat then 0 else retryDelay) /\
    map prod_id (r_products (supabase w1)) =
      map prod_id (r_products (supabase w)) /\
    length (List.filter is_any_attempt t) = 1.
Proof.
  destruct (uploadTransaction_quiet env tx w) as (Hnow & Hcat & Hrem).
  apply remote_no_attempt in Hrem.
  unfold retryBody. run_m. unfold run_world, run_trace in *.
  destruct (uploadTransaction env tx w) as [[[[]|e] w1] t1]; simpl in *.
  - eexists _, _, _. split; [reflexivity|]. simpl.
    rewrite Hnow, Hcat, List.filter_app, Hrem.
    repeat split; auto; destruct (_ =? _)%nat; lia.
  - destruct (k + 1 =? maxRetries)%nat; simpl;
      (eexists _, _, _; split; [reflexivity|]); simpl;
      rewrite ?Hnow, ?Hcat, !List.filter_app, Hrem; repeat split; eauto; lia.
Qed.

Lemma retryLoop_bounds env fuel tx k le w :
  exists k' le' w1 t,
    retryLoop env fuel tx k le w = (Ok (k', le'), w1, t) /\
    k' <= Nat.max k maxRetries /\
    now w <= now w1 /\
    now w1 <= now w + retryDelay * (maxRetries - 1 - k) /\
    map prod_id (r_products (supabase w1)) =
      map prod_id (r_products (supabase w)) /\
    length (List.filter is_any_attempt t) <= maxRetries - k.
Proof.
  revert k le w. induction fuel as [|fuel IH]; intros k le w.
  { exists k, le, w, []. split; [reflexivity|]. cbn [List.filter length].
    repeat split; first [lia | apply Nat.le_add_r]. }
  destruct (k <? maxRetries)%nat eqn:Hk.
  2:{ rewrite retryLoop_done by exact Hk. exists k, le, w, [].
      split; [reflexivity|]. cbn [List.filter length].
      repeat split; first [lia | apply Nat.le_add_r]. }
  apply Nat.ltb_lt in Hk.
  rewrite retryLoop_unfold by (apply Nat.ltb_lt; exact Hk). unfold bind.
  destruct (retryBody_bounds env tx k w)
    as (next & w1 & t1 & -> & Hnext & Hlo & Hhi & Hcat & Hcount).
  destruct Hnext as [->|[e ->]].
  - exists k, le, w1, (t1 ++ []). split; [reflexivity|].
    rewrite app_nil_r, Hcount.
    destruct (k + 1 =? maxRetries)%nat eqn:Heq;
      [apply Nat.eqb_eq in Heq|apply Nat.eqb_neq in Heq];
      repeat split; try assumption; try lia.
    assert (retryDelay * 1 <= retryDelay * (maxRetries - 1 - k))
      by (apply Nat.mul_le_mono_l; lia).
    lia.
  - destruct (IH (k + 1) (Some e) w1)
      as (k' & le' & w2 & t2 & -> & Hk' & Hlo2 & Hhi2 & Hcat2 & Hcount2).
    exists k', le', w2, (t1 ++ t2). split; [reflexivity|].
    rewrite List.filter_app, length_app, Hcount.
    destruct (k + 1 =? maxRetries)%nat eqn:Heq;
      [apply Nat.eqb_eq in Heq|apply Nat.eqb_neq in Heq].
    + replace (maxRetries - 1 - (k + 1)) with 0 in Hhi2 by lia.
      repeat split; try congruence; lia.
    + replace (maxRetries - 1 - k) with (S (maxRetries - 1 - (k + 1))) by lia.
      rewrite Nat.mul_succ_r.
      repeat split; try congruence; lia.
Qed.

Lemma syncOne_bounds env otx w :
  exists w1 t,
    syncOne env otx w = (Ok tt, w1, t) /\
    now w <= now w1 /\
    now w1 <= now w + (maxRetries - 1) * retryDelay /\
    map prod_id (r_products (supabase w1)) =
      map prod_id (r_products (supabase w)) /\
    length (List.filter is_any_attempt t) <= maxRetries.
Proof.
  destruct otx as [tx|].
  2:{ exists w, []. split; [reflexivity|]. cbn [List.filter length].
      repeat split; first [lia | apply Nat.le_add_r]. }
  unfold syncOne, bind.
  destruct (retryLoop_bounds env maxRetries tx 0 None w)
    as (k' & le' & w1 & t & -> & _ & Hlo & Hhi & Hcat & Hcount).
  assert (Hhi' : now w1 <= now w + (maxRetries - 1) * retryDelay).
  { rewrite Nat.sub_0_r, Nat.mul_comm in Hhi. exact Hhi. }
  destruct (_ && _).
  - eexists w1, _. split; [reflexivity|].
    rewrite List.filter_app, length_app. cbn [List.filter length is_any_attempt].
    repeat split; auto; lia.
  - eexists w1, _. split; [reflexivity|]. rewrite app_nil_r.
    repeat split; auto; lia.
Qed.

Lemma unchanged_or_delivered_frame id w w1 :
  unchanged_or_delivered id w w1 ->
  products (db w1) = products (db w) /\
  transactions (db w1) = transactions (db w) /\
  lastSync (syncState (db w1)) = lastSync (syncState (db w)) /\
  isOnline (syncState (db w1)) = isOnline (syncState (db w)) /\
  service w1 = service w /\
  pendingIds w1 `sublist_of` pendingIds w.
Proof.
  intros [Hs [[Hdb _]|[Hdb _]]]; unfold pendingIds; rewrite Hdb.
  - repeat split; auto.
  - unfold removed_pending, Db.remove_pending. simpl.
    repeat split; auto. apply sublist_filter.
Qed.

(** The whole pass over the loaded transactions. *)
Lemma drain_frame env l w :
  exists w1 t,
    forM_ l (syncOne env) w = (Ok tt, w1, t) /\
    products (db w1) = products (db w) /\
    transactions (db w1) = transactions (db w) /\
    lastSync (syncState (db w1)) = lastSync (syncState (db w)) /\
    isOnline (syncState (db w1)) = isOnline (syncState (db w)) /\
    service w1 = service w /\
    map prod_id (r_products (supabase w1)) =
      map prod_id (r_products (supabase w)) /\
    pendingIds w1 `sublist_of` pendingIds w /\
    now w <= now w1 /\
    now w1 <= now w + (maxRetries - 1) * retryDelay * length l /\
    length (List.filter is_any_attempt t) <= maxRetries * length l.
Proof.
  revert w. induction l as [|otx l IH]; intros w.
  { exists w, []. split; [reflexivity|]. cbn [List.filter length].
    repeat split; auto; first [lia | apply Nat.le_add_r]. }
  cbn [forM_]. unfold bind.
  destruct (syncOne_bounds env otx w)
    as (w1 & t1 & Hrun & Hlo & Hhi & Hcat & Hcount).
  assert (Hframe : products (db w1) = products (db w) /\
            transactions (db w1) = transactions (db w) /\
            lastSync (syncState (db w1)) = lastSync (syncState (db w)) /\
            isOnline (syncState (db w1)) = isOnline (syncState (db w)) /\
            service w1 = service w /\
            pendingIds w1 `sublist_of` pendingIds w).
  { destruct (syncOne_effect env otx w) as (w1' & t1' & Hrun' & Hone).
    rewrite Hrun in Hrun'. injection Hrun' as <- <-.
    destruct otx as [tx|].
    - destruct Hone as (Heff & _).
      apply (unchanged_or_delivered_frame (tx_id tx)), Heff.
    - destruct Hone as [-> _]. repeat split; reflexivity. }
  destruct Hframe as (Hp & Ht & Hls & Hio & Hsvc & Hsub).
  rewrite Hrun.
  destruct (IH w1)
    as (w2 & t2 & -> & Hp2 & Ht2 & Hls2 & Hio2 & Hsvc2 & Hcat2 & Hsub2 &
        Hlo2 & Hhi2 & Hcount2).
  exists w2, (t1 ++ t2). split; [reflexivity|].
  rewrite List.filter_app, length_app. cbn [length].
  repeat split; try congruence.
  - etransitivity; eassumption.
  - lia.
  - rewrite Nat.mul_succ_r. lia.
  - rewrite Nat.mul_succ_r. lia.
Qed.

Lemma _syncTransactions_summary env w :
  exists w1 t,
    _syncTransactions env w = (Ok tt, w1, t) /\
    products (db w1) = products (db w) /\
    transactions (db w1) = transactions (db w) /\
    lastSync (syncState (db w1)) = lastSync (syncState (db w)) /\
    isOnline (syncState (db w1)) = isOnline (syncState (db w)) /\
    service w1 = service w /\
    map prod_id (r_products (supabase w1)) =
      map prod_id (r_products (supabase w)) /\
    pendingIds w1 `sublist_of` pendingIds w /\
    now w <= now w1 /\
    now w1 <= now w + (maxRetries - 1) * retryDelay * length (pendingIds w) /\
    length (List.filter is_any_attempt t) <= maxRetries * length (pendingIds w) /\
    (forall id tx, id ∈ pendingIds w -> transactions (db w) !! id = Some tx ->
                   EvAttempt (tx_id tx) 1 ∈ t).
Proof.
  rewrite _syncTransactions_run.
  set (l := map (fun id => transactions (db w) !! id) (pendingIds w)).
  destruct (drain_frame env l w) as (w1 & t & Hrun & H).
  destruct (drain_attempts_all env l w) as (w1' & t' & Hrun' & _ & Hall).
  rewrite Hrun in Hrun'. injection Hrun' as <- <-.
  exists w1, t. split; [exact Hrun|].
  subst l. rewrite length_map in H.
  destruct H as (? & ? & ? & ? & ? & ? & ? & ? & ? & ?).
  repeat split; try assumption.
  intros id tx Hin Hlk. apply Hall.
  apply list_elem_of_In, in_map_iff. exists id.
  split; [exact Hlk|]. apply list_elem_of_In, Hin.
Qed.

(** ** [syncTransactions], the public drain *)

(** X1. Where [sync] returns silently, [syncTransactions] raises: with the
    message "Cannot sync transactions while offline" when the service is
    offline, and with "Sync already in progress" when it is online and a
    pass is running. In both cases nothing is done and the [isSyncing]
    flag of the running pass is not touched. *)
Theorem syncTransactions_refuses :
  forall (env : Env) (w : World),
    (svc_isOnline (service w) = false ->
       syncTransactions env w =
         (Throw "Cannot sync transactions while offline", w, []) /\
       sync env w = (Ok tt, w, [])) /\
    (svc_isOnline (service w) = true -> svc_isSyncing (service w) = true ->
       syncTransactions env w = (Throw "Sync already in progress", w, []) /\
       sync env w = (Ok tt, w, [])).
Proof.
  intros env w. split.
  - intros Hoff. split.
    + unfold syncTransactions, bind, gets. rewrite Hoff. reflexivity.
    + apply sync_skipped. unfold skipsSync. rewrite Hoff. reflexivity.
  - intros Hon Hbusy. split.
    + unfold syncTransactions, bind, gets. rewrite Hon, Hbusy. reflexivity.
    + apply sync_skipped. unfold skipsSync. rewrite Hon, Hbusy. reflexivity.
Qed.

Lemma syncTransactions_refuses_witness :
  syncTransactions envUp (initial false true emptyRemote) =
    (Throw "Cannot sync transactions while offline",
     initial false true emptyRemote, []) /\
  syncTransactions envUp busy = (Throw "Sync already in progress", busy, []).
Proof.
  split.
  - apply (syncTransactions_refuses envUp (initial false true emptyRemote)).
    reflexivity.
  - apply (syncTransactions_refuses envUp busy); reflexivity.
Defined.

Lemma stampLastSync_run w :
  stampLastSync w =
    (Ok tt,
     set_db (fun d =>
       {| products := products d; transactions := transactions d;
          syncState := with_lastSync (now w) (syncState d) |}) w,
     []).
Proof. reflexivity. Qed.

(** The world after [stampLastSync] and the [finally] block. *)
Lemma syncTransactions_run env w :
  svc_isOnline (service w) = true ->
  svc_isSyncing (service w) = false ->
  exists w1 t,
    _syncTransactions env (set_service (set_isSyncing true) w) = (Ok tt, w1, t) /\
    syncTransactions env w =
      (Ok tt,
       set_service (set_isSyncing false)
         (set_db (fun d =>
            {| products := products d; transactions := transactions d;
               syncState := with_lastSync (now w1) (syncState d) |}) w1),
       t).
Proof.
  intros Hon Hidle.
  destruct (_syncTransactions_summary env (set_service (set_isSyncing true) w))
    as (w1 & t & Hrun & _).
  exists w1, t. split; [exact Hrun|].
  unfold syncTransactions, bind, gets, modify, try_finally, try_catch.
  rewrite Hon, Hidle. cbn [negb]. rewrite Hrun, stampLastSync_run.
  rewrite !app_nil_r. reflexivity.
Qed.

Lemma sync_run env w :
  svc_isOnline (service w) = true ->
  svc_isSyncing (service w) = false ->
  env_productsError env (calls w) = None ->
  exists w1 w2 t,
    syncProducts env true (set_service (set_isSyncing true) w) =
      (Ok tt, w1, [EvSelectProducts true]) /\
    _syncTransactions env w1 = (Ok tt, w2, t) /\
    sync env w =
      (Ok tt,
       set_service (set_isSyncing false)
         (set_db (fun d =>
            {| products := products d; transactions := transactions d;
               syncState := with_lastSync (now w2) (syncState d) |}) w2),
       EvSelectProducts true :: t).
Proof.
  intros Hon Hidle Hfetch.
  destruct (syncProducts_fetched env (set_service (set_isSyncing true) w) Hfetch)
    as (w1 & Hsp & _).
  destruct (_syncTransactions_summary env w1) as (w2 & t & Hrun & _).
  exists w1, w2, t. split; [exact Hsp|]. split; [exact Hrun|].
  unfold sync, bind, gets, modify, try_finally, try_catch, skipsSync.
  rewrite Hon, Hidle. cbn [negb orb]. rewrite Hsp, Hrun, stampLastSync_run.
  rewrite !app_nil_r. reflexivity.
Qed.

Lemma service_restored w w1 :
  svc_isSyncing (service w) = false ->
  service w1 = service (set_service (set_isSyncing true) w) ->
  set_isSyncing false (service w1) = service w.
Proof.
  intros Hidle ->. cbn. destruct (service w) as [o s']. cbn in *. subst.
  reflexivity.
Qed.

(** X2. When the service is online and no pass is running,
    [syncTransactions] ends without error whatever the Remote Store
    answers: every pending transaction with a stored record is attempted,
    [lastSync] is set to the time at which the pass ended, the service
    fields are as before, with the [isSyncing] flag cleared again, and,
    unlike [sync], the product cache is left as it was. *)
Theorem syncTransactions_completes :
  forall (env : Env) (w : World),
    svc_isOnline (service w) = true ->
    svc_isSyncing (service w) = false ->
    let out := syncTransactions env w in
    run_result out = Ok tt /\
    service (run_world out) = service w /\
    lastSync (syncState (db (run_world out))) = Some (now (run_world out)) /\
    products (db (run_world out)) = products (db w) /\
    (forall id transaction,
       id ∈ pendingIds w -> transactions (db w) !! id = Some transaction ->
       EvAttempt (tx_id transaction) 1 ∈ run_trace out).
Proof.
  intros env w Hon Hidle out. subst out.
  destruct (syncTransactions_run env w Hon Hidle) as (w1 & t & Hdrain & ->).
  destruct (_syncTransactions_summary env (set_service (set_isSyncing true) w))
    as (w1' & t' & Hrun & Hp & _ & _ & _ & Hsvc & _ & _ & _ & _ & _ & Hall).
  rewrite Hdrain in Hrun. injection Hrun as <- <-.
  unfold run_result, run_world, run_trace. cbn [fst snd].
  split; [reflexivity|]. split.
  { apply service_restored; assumption. }
  split; [reflexivity|]. split; [exact Hp|].
  intros id tx Hin Hlk. apply (Hall id tx Hin Hlk).
Qed.

Lemma syncTransactions_completes_witness :
  run_result (syncTransactions envT1Down twoPending) = Ok tt /\
  EvAttempt "T2" 1 ∈ run_trace (syncTransactions envT1Down twoPending).
Proof.
  pose proof (syncTransactions_completes envT1Down twoPending
                eq_refl eq_refl) as H.
  cbv zeta in H. destruct H as (Hok & _ & _ & _ & Hall).
  split; [exact Hok|].
  apply (Hall "T2" T2).
  - change (pendingIds twoPending) with ["T1"; "T2"]. right. left.
  - vm_compute. reflexivity.
Defined.

(** ** [sync] *)

(** X3. When [sync] passes its guard and the query of the catalogue
    fails, the pass is given up at once: its only action is the failed
    query, no pending transaction is attempted, the Local Store, with
    [lastSync] and the pending set, is as before, the [isSyncing] flag is
    cleared, and the caller is told nothing: [sync] returns normally. *)
Theorem sync_gives_up_on_fetch_error :
  forall (env : Env) (w : World) (message : string),
    svc_isOnline (service w) = true ->
    svc_isSyncing (service w) = false ->
    env_productsError env (calls w) = Some message ->
    let out := sync env w in
    run_result out = Ok tt /\
    run_trace out = [EvSelectProducts false] /\
    db (run_world out) = db w /\
    supabase (run_world out) = supabase w /\
    service (run_world out) = service w.
Proof.
  intros env w e Hon Hidle Herr out. subst out.
  assert (Hrun : sync env w =
            (Ok tt, set_service (set_isSyncing false)
                      (tick (set_service (set_isSyncing true) w)),
             [EvSelectProducts false])).
  { unfold sync, bind, gets, modify, try_finally, try_catch, skipsSync.
    rewrite Hon, Hidle. cbn [negb orb]. rewrite syncProducts_force_run.
    change (calls (set_service (set_isSyncing true) w)) with (calls w).
    rewrite Herr. reflexivity. }
  rewrite Hrun. unfold run_result, run_world, run_trace. cbn [fst snd].
  repeat split. apply (service_restored w); [exact Hidle|reflexivity].
Qed.

Lemma sync_gives_up_on_fetch_error_witness :
  run_trace (sync envNoCatalogue twoPending) = [EvSelectProducts false] /\
  db (run_world (sync envNoCatalogue twoPending)) = db twoPending.
Proof.
  pose proof (sync_gives_up_on_fetch_error envNoCatalogue twoPending
                "network error" eq_refl eq_refl eq_refl) as H.
  cbv zeta in H. destruct H as (_ & Ht & Hdb & _). split; assumption.
Defined.

(** X4. When [sync] passes its guard and the catalogue is fetched, the
    pass runs to its end whatever the deliveries do: [lastSync] is set to
    the time at which the pass ended, which is what [getLastSyncTime] then
    gives back; the stored transactions are untouched, the pending set has
    only lost ids, and the service fields are as before, with the
    [isSyncing] flag cleared again. *)
Theorem sync_completes :
  forall (env : Env) (w : World),
    svc_isOnline (service w) = true ->
    svc_isSyncing (service w) = false ->
    env_productsError env (calls w) = None ->
    let out := sync env w in
    run_result (getLastSyncTime (run_world out)) =
      Ok (Some (now (run_world out))) /\
    transactions (db (run_world out)) = transactions (db w) /\
    pendingIds (run_world out) `sublist_of` pendingIds w /\
    service (run_world out) = service w.
Proof.
  intros env w Hon Hidle Hfetch out. subst out.
  destruct (sync_run env w Hon Hidle Hfetch) as (w1 & w2 & t & Hsp & Hdrain & ->).
  destruct (syncProducts_fetched env (set_service (set_isSyncing true) w) Hfetch)
    as (w1' & Hsp' & Ht1 & Hs1 & Hsvc1 & _).
  rewrite Hsp in Hsp'. injection Hsp' as <-.
  destruct (_syncTransactions_summary env w1)
    as (w2' & t' & Hrun & _ & Ht2 & _ & _ & Hsvc2 & _ & Hsub & _).
  rewrite Hdrain in Hrun. injection Hrun as <- <-.
  unfold run_result, run_world, run_trace. cbn [fst snd].
  cbn in Ht1, Hs1.
  split; [reflexivity|]. split; [cbn; congruence|]. split.
  { unfold pendingIds in *. cbn. rewrite Hs1 in Hsub. exact Hsub. }
  apply service_restored; [exact Hidle|].
  transitivity (service w2); [reflexivity|]. rewrite Hsvc2. exact Hsvc1.
Qed.

Lemma sync_completes_witness :
  run_result (getLastSyncTime (run_world (sync envT1Down twoPending))) =
    Ok (Some (now (run_world (sync envT1Down twoPending)))) /\
  pendingIds (run_world (sync envT1Down twoPending)) `sublist_of`
    pendingIds twoPending.
Proof.
  pose proof (sync_completes envT1Down twoPending eq_refl eq_refl eq_refl)
    as H.
  cbv zeta in H. destruct H as (Hls & _ & Hsub & _).
  split; assumption.
Defined.

(** ** [saveTransaction], seen from its caller *)

(** X5. What the caller of [saveTransaction] learns. The method returns
    normally exactly when the stored online flag is set and the delivery
    succeeds; then the pending set is as before and [lastSync] is the
    current time. In every other case it raises, the id is in the pending
    set, its status is ['pending'] and [lastSync] is as before; when the
    stored flag is not set the message is "Offline mode: Transaction saved
    locally" and the Remote Store was not contacted. *)
Theorem saveTransaction_outcome :
  forall (env : Env) (transaction : Transaction) (w : World),
    let r := env_response env (calls w) (tx_id transaction) in
    let out := saveTransaction env transaction w in
    (run_result out = Ok tt <->
       isOnline (syncState (db w)) = true /\ failed r = false) /\
    (run_result out = Ok tt ->
       pendingIds (run_world out) = pendingIds w /\
       lastSync (syncState (db (run_world out))) = Some (now (run_world out))) /\
    (run_result out <> Ok tt ->
       tx_id transaction ∈ pendingIds (run_world out) /\
       run_result (getTransactionSyncStatus (tx_id transaction) (run_world out))
         = Ok Pending /\
       lastSync (syncState (db (run_world out))) = lastSync (syncState (db w))) /\
    (isOnline (syncState (db w)) = false ->
       run_result out = Throw "Offline mode: Transaction saved locally" /\
       run_trace out = [EvLocalSave (tx_id transaction)]).
Proof.
  intros env tx w r out. subst r out.
  assert (Hpend : forall s,
            tx_id tx ∈ pendingTransactions (Db.add_pending (tx_id tx) s)).
  { intros s. apply add_pending_elem. right. reflexivity. }
  assert (Hstatus : forall w',
            tx_id tx ∈ pendingIds w' ->
            run_result (getTransactionSyncStatus (tx_id tx) w') = Ok Pending).
  { intros w' Hin. unfold getTransactionSyncStatus, Db.getSyncState, bind, gets.
    unfold pendingIds in Hin. rewrite bool_decide_eq_true_2 by exact Hin.
    reflexivity. }
  destruct (isOnline (syncState (db w))) eqn:Hh.
  - destruct (failed (env_response env (calls w) (tx_id tx))) eqn:Hf.
    + destruct (saveTransaction_failed env tx w Hh Hf)
        as (e & w1 & u & Hrun & Hdb & _).
      rewrite Hrun. unfold run_result, run_world, run_trace, pendingIds.
      simpl. rewrite Hdb.
      split; [split; [discriminate|intros [_ ?]; discriminate]|].
      split; [discriminate|]. split; [|discriminate].
      intros _. split; [apply Hpend|]. split; [|reflexivity].
      apply Hstatus. unfold pendingIds. rewrite Hdb. apply Hpend.
    + pose proof (saveTransaction_ok env tx w Hh Hf)
        as (w1 & Hrun & _ & _ & Hp & _).
      assert (Hls : lastSync (syncState (db (run_world (saveTransaction env tx w))))
                    = Some (now (run_world (saveTransaction env tx w)))).
      { apply failed_false in Hf as ([u Hu] & Ht & Hi).
        unfold saveTransaction, uploadTransaction. run_m.
        rewrite Hh. simpl. rewrite Hu, Ht. simpl. rewrite Hi. reflexivity. }
      rewrite Hrun in Hls |- *. unfold run_result, run_world, run_trace in *.
      simpl in *.
      split; [split; auto|]. split; [auto|].
      split; [intros H; contradiction|discriminate].
  - rewrite (saveTransaction_offline env tx w Hh).
    unfold run_result, run_world, run_trace, pendingIds. simpl.
    split; [split; [discriminate|intros [? _]; discriminate]|].
    split; [discriminate|]. split; [|auto].
    intros _. split; [apply Hpend|]. split; [|reflexivity].
    apply Hstatus. apply Hpend.
Qed.

Lemma saveTransaction_outcome_witness :
  run_result (saveTransaction envUp T1 (initial true true emptyRemote)) = Ok tt /\
  tx_id T1 ∈ pendingIds
    (run_world (saveTransaction envDown T1 (initial true true emptyRemote))) /\
  run_result (saveTransaction envUp T1 (initial true false emptyRemote)) =
    Throw "Offline mode: Transaction saved locally".
Proof.
  pose proof (saveTransaction_outcome envUp T1 (initial true true emptyRemote))
    as (Hok & _).
  pose proof (saveTransaction_outcome envDown T1 (initial true true emptyRemote))
    as (_ & _ & Hfail & _).
  pose proof (saveTransaction_outcome envUp T1 (initial true false emptyRemote))
    as (_ & _ & _ & Hoff).
  split; [apply Hok; split; reflexivity|].
  split; [apply Hfail; vm_compute; discriminate|].
  apply Hoff. reflexivity.
Defined.

(** X6. A failed delivery rolls nothing back: the Remote Store keeps
    what landed. With no user, nothing is sent and the Remote Store is as
    it was. When the upload of the transaction row is answered with an
    error, the delivery raises it and sends no item rows: the Remote Store
    is as it was, or holds the row when the write had landed and the answer
    was lost. When the row is written and the upload of the item rows is
    answered with an error, the delivery raises that error and the Remote
    Store keeps the transaction row, with the user and the fields of the
    sale; its item rows are those of before, followed by the rows of this
    sale when that write had landed. *)
Theorem failed_delivery_keeps_row :
  forall (env : Env) (transaction : Transaction) (w : World),
    let id := tx_id transaction in
    let r := env_response env (calls w) id in
    let out := uploadTransaction env transaction w in
    let row user :=
      {| row_id := id; row_user_id := user;
         row_date := tx_date transaction;
         row_subtotal := tx_subtotal transaction;
         row_tax := tx_tax transaction;
         row_total := tx_total transaction;
         row_status := tx_status transaction |} in
    (resp_user r = None ->
       run_result out = Throw "No authenticated user found" /\
       supabase (run_world out) = supabase w) /\
    (forall user message,
       resp_user r = Some user -> resp_transactionError r = Some message ->
       run_result out = Throw message /\
       supabase (run_world out) =
         (if resp_transactionLanded r
          then Supabase.put_transaction (row user) (supabase w)
          else supabase w)) /\
    (forall user message,
       resp_user r = Some user -> resp_transactionError r = None ->
       resp_itemsError r = Some message ->
       run_result out = Throw message /\
       r_transactions (supabase (run_world out)) !! id = Some (row user) /\
       (forall k, k <> id ->
          r_transactions (supabase (run_world out)) !! k =
            r_transactions (supabase w) !! k) /\
       r_transaction_items (supabase (run_world out)) =
         r_transaction_items (supabase w) ++
           (if resp_itemsLanded r
            then Supabase.number_rows (r_next_item_id (supabase w))
                   (map (toPayload id) (tx_items transaction))
            else [])).
Proof.
  intros env tx w id r out row. subst id r out row.
  split; [|split].
  - intros Hu. unfold uploadTransaction. run_m. rewrite Hu. simpl.
    split; [reflexivity|]. destruct (supabase w); reflexivity.
  - intros u e Hu Ht. unfold uploadTransaction. run_m. rewrite Hu. simpl.
    rewrite Ht. simpl.
    destruct (resp_transactionLanded _); simpl;
      (split; [reflexivity|]); [reflexivity|].
    destruct (supabase w); reflexivity.
  - intros u e Hu Ht Hi. unfold uploadTransaction. run_m.
    rewrite Hu. simpl. rewrite Ht. simpl. rewrite Hi.
    destruct (resp_itemsLanded _); simpl; rewrite lookup_insert_eq;
      (split; [reflexivity|]); (split; [reflexivity|]);
      (split; [intros k Hk; apply lookup_insert_ne; congruence|]);
      rewrite ?app_nil_r; reflexivity.
Qed.

Lemma failed_delivery_keeps_row_witness :
  supabase (run_world (uploadTransaction envDown T1
              (initial true true emptyRemote))) = emptyRemote /\
  is_Some (r_transactions
    (supabase (run_world (uploadTransaction envLostAnswer T1
       (initial true true emptyRemote)))) !! "T1") /\
  length (r_transaction_items
    (supabase (run_world (uploadTransaction envLostAnswer T1
       (initial true true emptyRemote))))) = 1.
Proof.
  pose proof (failed_delivery_keeps_row envDown T1
                (initial true true emptyRemote)) as (_ & Hrow & _).
  pose proof (failed_delivery_keeps_row envLostAnswer T1
                (initial true true emptyRemote)) as (_ & _ & Hitems).
  destruct (Hrow "U1" "network error" eq_refl eq_refl) as (_ & Hsame).
  destruct (Hitems "U1" "network error" eq_refl eq_refl eq_refl)
    as (_ & Hkept & _ & Hrows).
  split; [exact Hsame|]. split.
  - change (tx_id T1) with "T1" in Hkept. rewrite Hkept. eauto.
  - rewrite Hrows. reflexivity.
Defined.

(** ** The connectivity listeners *)

(** X7. The ['offline'] listener leaves the Local Store alone and makes
    the next [sync] a call without effect. The ['online'] listener never
    raises and always leaves the service's [isOnline] field set, whether a
    pass is running or not and whatever the Remote Store answers. When no
    pass was running it runs one at once, which ends with [isSyncing]
    cleared, and, if the catalogue is fetched, attempts every pending
    transaction with a stored record; when a pass was running it only sets
    the field. *)
Theorem connectivity_events :
  forall (env : Env) (w : World),
    (db (run_world (onOffline w)) = db w /\
     sync env (run_world (onOffline w)) = (Ok tt, run_world (onOffline w), [])) /\
    run_result (onOnline env w) = Ok tt /\
    svc_isOnline (service (run_world (onOnline env w))) = true /\
    (svc_isSyncing (service w) = true ->
     onOnline env w = (Ok tt, set_service (set_isOnline true) w, [])) /\
    (svc_isSyncing (service w) = false ->
     svc_isSyncing (service (run_world (onOnline env w))) = false /\
     (env_productsError env (calls w) = None ->
      forall id transaction,
        id ∈ pendingIds w -> transactions (db w) !! id = Some transaction ->
        EvAttempt (tx_id transaction) 1 ∈ run_trace (onOnline env w))).
Proof.
  intros env w.
  set (w0 := set_service (set_isOnline true) w).
  assert (Hrun : onOnline env w = sync env w0).
  { unfold onOnline, bind, modify. fold w0.
    destruct (sync env w0) as [[r w1] t]. reflexivity. }
  split; [split; [reflexivity|apply sync_skipped; reflexivity]|].
  split; [rewrite Hrun; apply sync_result|].
  split; [apply onOnline_flag|].
  split.
  - intros Hbusy. rewrite Hrun. apply sync_skipped.
    unfold skipsSync. simpl. rewrite Hbusy. reflexivity.
  - intros Hidle.
    assert (Hgo : skipsSync (service w0) = false).
    { unfold skipsSync. simpl. rewrite Hidle. reflexivity. }
    rewrite Hrun. split; [apply sync_clears_flag, Hgo|].
    intros Hfetch id tx Hin Hlk.
    apply (sync_attempts_all env w0 id tx); assumption.
Qed.

Lemma connectivity_events_witness :
  onOnline envUp busy = (Ok tt, set_service (set_isOnline true) busy, []) /\
  svc_isSyncing (service (run_world (onOnline envUp t1Pending))) = false /\
  EvAttempt "T1" 1 ∈ run_trace (onOnline envUp t1Pending).
Proof.
  pose proof (connectivity_events envUp busy) as (_ & _ & _ & Hbusy & _).
  pose proof (connectivity_events envUp t1Pending) as (_ & _ & _ & _ & H).
  destruct (H eq_refl) as (Hclear & Hall).
  split; [apply Hbusy; reflexivity|].
  split; [exact Hclear|].
  apply (Hall eq_refl "T1" T1).
  - change (pendingIds t1Pending) with ["T1"]. left.
  - vm_compute. reflexivity.
Defined.

(** ** [syncProducts] *)

Lemma forM__saveProduct ps w :
  forM_ ps Db.saveProduct w =
    (Ok tt,
     set_db (fun d =>
       {| products := foldl Db.put_product (products d) ps;
          transactions := transactions d;
          syncState := syncState d |}) w,
     []).
Proof.
  revert w. induction ps as [|p ps IH]; intros w.
  - destruct w as [s [pr tr st] r c n cf]. reflexivity.
  - cbn [forM_]. unfold bind. unfold Db.saveProduct at 1. unfold modify.
    rewrite IH. reflexivity.
Qed.

(** An incremental refresh, read off the answer of the Remote Store. *)
Lemma syncProducts_incremental_run env w :
  syncProducts env false w =
    match env_productsError env (calls w) with
    | Some e =>
        (Throw ("Failed to fetch products: " +:+ e), tick w,
         [EvSelectProducts false])
    | None =>
        match r_products (supabase w) with
        | [] => (Ok tt, tick w, [EvSelectProducts true])
        | p :: ps =>
            (Ok tt,
             set_db (fun d =>
               {| products := foldl Db.put_product (products d) (p :: ps);
                  transactions := transactions d;
                  syncState := syncState d |}) (tick w),
             [EvSelectProducts true])
        end
    end.
Proof.
  unfold syncProducts. unfold try_catch, bind.
  unfold Supabase.select_products.
  destruct (env_productsError env (calls w)); [reflexivity|].
  destruct (r_products (supabase w)) as [|p ps]; [reflexivity|].
  cbn [fst snd]. rewrite forM__saveProduct. reflexivity.
Qed.

(** X8. The incremental refresh merges. When the Remote Store gives a
    non-empty set of products, [syncProducts(false)] ends without error
    and the cache then holds every fetched product under its id and, for
    every id the fetched set does not have, what the cache held before:
    products deleted remotely stay in the cache. *)
Theorem incremental_refresh_merges :
  forall (env : Env) (w : World),
    env_productsError env (calls w) = None ->
    r_products (supabase w) <> [] ->
    NoDup (map prod_id (r_products (supabase w))) ->
    let fetched := r_products (supabase w) in
    let out := syncProducts env false w in
    run_result out = Ok tt /\
    forall k p,
      products (db (run_world out)) !! k = Some p <->
      (p ∈ fetched /\ prod_id p = k) \/
      (products (db w) !! k = Some p /\ k ∉ map prod_id fetched).
Proof.
  intros env w Hfetch Hne Hnd fetched out. subst fetched out.
  rewrite syncProducts_incremental_run, Hfetch.
  destruct (r_products (supabase w)) as [|q ps] eqn:Hps; [contradiction|].
  split; [reflexivity|]. intros k p.
  unfold run_world. cbn [db set_db products fst snd tick].
  apply foldl_put_product_lookup, Hnd.
Qed.

Lemma incremental_refresh_merges_witness :
  products (db (run_world (syncProducts envUp false (cachedAB remoteBC)))) !! "A"
    = Some productA /\
  products (db (run_world (syncProducts envUp false (cachedAB remoteBC)))) !! "C"
    = Some productC.
Proof.
  assert (Hnd : NoDup (map prod_id (r_products (supabase (cachedAB remoteBC))))).
  { change (NoDup ["B"; "C"]). apply NoDup_cons. split.
    - intros H. apply list_elem_of_singleton in H. discriminate.
    - apply NoDup_singleton. }
  pose proof (incremental_refresh_merges envUp (cachedAB remoteBC) eq_refl
                ltac:(discriminate) Hnd) as H.
  cbv zeta in H. destruct H as (_ & H). split.
  - apply H. right. split; [vm_compute; reflexivity|].
    change (map prod_id (r_products (supabase (cachedAB remoteBC))))
      with ["B"; "C"].
    intros Hin. apply elem_of_cons in Hin as [Hin|Hin]; [discriminate|].
    apply list_elem_of_singleton in Hin. discriminate.
  - apply H. left. split; [|reflexivity]. right. left.
Defined.

(** X9. In both modes and whatever the Remote Store answers,
    [syncProducts] touches the product cache only: the stored
    transactions, the SyncState record, the service fields and the tables
    of the Remote Store are as before. When the query fails it raises
    "Failed to fetch products: " followed by the message of the Remote
    Store, and the cache too is as before; otherwise it returns normally. *)
Theorem syncProducts_frame :
  forall (env : Env) (forceRefresh : bool) (w : World),
    let out := syncProducts env forceRefresh w in
    transactions (db (run_world out)) = transactions (db w) /\
    syncState (db (run_world out)) = syncState (db w) /\
    service (run_world out) = service w /\
    supabase (run_world out) = supabase w /\
    match env_productsError env (calls w) with
    | Some message =>
        run_result out = Throw ("Failed to fetch products: " +:+ message) /\
        products (db (run_world out)) = products (db w)
    | None => run_result out = Ok tt
    end.
Proof.
  intros env b w out. subst out.
  destruct b; [rewrite syncProducts_force_run
              |rewrite syncProducts_incremental_run];
    (destruct (env_productsError env (calls w));
     [|destruct (r_products (supabase w))]); repeat split.
Qed.

(** ** More on the drain pass *)

Section DrainClosed.
Variable env : Env.
Context (P : World -> Prop) (HP : drain_closed P).

Lemma closed_uploadTransaction tx : preserves P (uploadTransaction env tx).
Proof.
  unfold uploadTransaction.
  apply preserves_bind.
  { intros w H. apply (dc_tick P HP), H. }
  intros r. apply preserves_bind.
  { unfold Supabase.auth_getUser. apply preserves_bind;
      [apply preserves_emit|intros _; apply preserves_ret]. }
  intros [u|]; [|apply preserves_throw].
  apply preserves_bind.
  { unfold Supabase.upsert_transactions.
    destruct (resp_transactionError r).
    - apply preserves_bind.
      + destruct (resp_transactionLanded r); [|apply preserves_ret].
        apply preserves_modify. intros w H. apply (dc_row P HP), H.
      + intros _. apply preserves_bind;
          [apply preserves_emit|intros _; apply preserves_ret].
    - apply preserves_bind.
      + apply preserves_modify. intros w H. apply (dc_row P HP), H.
      + intros _. apply preserves_bind;
          [apply preserves_emit|intros _; apply preserves_ret]. }
  intros [e|]; [apply preserves_throw|].
  apply preserves_bind.
  { unfold Supabase.upsert_transaction_items.
    destruct (resp_itemsError r).
    - apply preserves_bind.
      + destruct (resp_itemsLanded r); [|apply preserves_ret].
        apply preserves_modify. intros w H. apply (dc_items P HP), H.
      + intros _. apply preserves_bind;
          [apply preserves_emit|intros _; apply preserves_ret].
    - apply preserves_bind.
      + apply preserves_modify. intros w H. apply (dc_items P HP), H.
      + intros _. apply preserves_bind;
          [apply preserves_emit|intros _; apply preserves_ret]. }
  intros [e|]; [apply preserves_throw|].
  apply preserves_modify. intros w H. apply (dc_confirmed P HP), H.
Qed.

Lemma closed_retryBody tx k : preserves P (retryBody env tx k).
Proof.
  unfold retryBody. apply preserves_try_catch.
  - apply preserves_bind; [apply preserves_emit|]. intros _.
    apply preserves_bind; [apply closed_uploadTransaction|]. intros _.
    apply preserves_bind; [|intros _; apply preserves_ret].
    apply preserves_modify. intros w H.
    apply (dc_removed P HP w (tx_id tx) H).
  - intros e. apply preserves_bind; [|intros _; apply preserves_ret].
    destruct (_ =? _)%nat; [apply preserves_emit|].
    apply preserves_bind; [apply preserves_emit|]. intros _.
    apply preserves_modify. intros w H. apply (dc_advance P HP), H.
Qed.

Lemma closed_retryLoop fuel tx k le : preserves P (retryLoop env fuel tx k le).
Proof.
  revert k le. induction fuel as [|fuel IH]; intros k le; cbn [retryLoop];
    [apply preserves_ret|].
  destruct (k <? maxRetries)%nat; [|apply preserves_ret].
  apply preserves_bind; [apply closed_retryBody|].
  intros [[k' e]|]; [apply IH|apply preserves_ret].
Qed.

Lemma closed_drain l : preserves P (forM_ l (syncOne env)).
Proof.
  apply preserves_forM_. intros [tx|]; [|apply preserves_ret].
  unfold syncOne. apply preserves_bind; [apply closed_retryLoop|].
  intros out. destruct (_ && _); [apply preserves_emit|apply preserves_ret].
Qed.

Lemma closed__syncTransactions : preserves P (_syncTransactions env).
Proof.
  unfold _syncTransactions.
  apply preserves_bind; [apply preserves_gets|]. intros state.
  apply preserves_bind.
  { apply preserves_mapM. intros id. apply preserves_gets. }
  intros l. apply closed_drain.
Qed.

End DrainClosed.

(** X10. The drain pass never takes anything away from the Remote Store
    or from the record of deliveries: a transaction row that is there
    before the pass is there after it, the item rows after the pass are
    those before it followed by new ones, and the number of exchanges only
    grows. *)
Theorem drain_never_deletes_remote :
  forall (env : Env) (w : World),
    let w1 := run_world (_syncTransactions env w) in
    (forall id, is_Some (r_transactions (supabase w) !! id) ->
                is_Some (r_transactions (supabase w1) !! id)) /\
    r_transaction_items (supabase w) `prefix_of`
      r_transaction_items (supabase w1) /\
    r_next_item_id (supabase w) <= r_next_item_id (supabase w1) /\
    calls w <= calls w1.
Proof.
  intros env w w1. subst w1. split; [|split; [|split]].
  - intros id Hid.
    apply (closed__syncTransactions env
             (fun w' => is_Some (r_transactions (supabase w') !! id)));
      [|exact Hid].
    constructor; simpl; intros; try assumption.
    destruct (decide (row_id row = id)) as [->|Hne].
    + rewrite lookup_insert_eq. eauto.
    + rewrite lookup_insert_ne by exact Hne. assumption.
  - apply (closed__syncTransactions env
             (fun w' => r_transaction_items (supabase w) `prefix_of`
                        r_transaction_items (supabase w')));
      [|reflexivity].
    constructor; simpl; intros; try assumption.
    etransitivity; [eassumption|]. apply prefix_app_r. reflexivity.
  - apply (closed__syncTransactions env
             (fun w' => r_next_item_id (supabase w) <=
                        r_next_item_id (supabase w')));
      [|reflexivity].
    constructor; simpl; intros; try assumption. lia.
  - apply (closed__syncTransactions env (fun w' => calls w <= calls w'));
      [|reflexivity].
    constructor; simpl; intros; try assumption. lia.
Qed.

Lemma drain_never_deletes_remote_witness :
  is_Some (r_transactions (supabase
    (run_world (_syncTransactions envT1Down
       (run_world (uploadTransaction envUp T2 twoPending))))) !! "T2").
Proof.
  apply (drain_never_deletes_remote envT1Down
           (run_world (uploadTransaction envUp T2 twoPending))).
  vm_compute. eauto.
Defined.

(** X11. What the drain pass leaves alone on the device: the stored
    transactions, the product cache, [lastSync] and the stored online flag
    are as before, and so are the fields of the service; the pending set
    after the pass is the one before it with some ids taken out, in the
    same order. The pass never adds a pending id and never raises. *)
Theorem drain_frame_of_local_store :
  forall (env : Env) (w : World),
    let out := _syncTransactions env w in
    run_result out = Ok tt /\
    transactions (db (run_world out)) = transactions (db w) /\
    products (db (run_world out)) = products (db w) /\
    lastSync (syncState (db (run_world out))) = lastSync (syncState (db w)) /\
    isOnline (syncState (db (run_world out))) = isOnline (syncState (db w)) /\
    service (run_world out) = service w /\
    pendingIds (run_world out) `sublist_of` pendingIds w.
Proof.
  intros env w out. subst out.
  destruct (_syncTransactions_summary env w)
    as (w1 & t & -> & Hp & Ht & Hls & Hio & Hsvc & _ & Hsub & _).
  unfold run_result, run_world. simpl. repeat split; assumption.
Qed.

(** X12. The retry ceiling bounds the pass: with [n] pending ids, a drain
    pass makes at most [3 * n] delivery attempts and waits at most
    [2 * retryDelay * n] milliseconds in all, that is [n] times two waits
    of 5 seconds, whatever the Remote Store answers; the clock never goes
    back. *)
Theorem drain_is_bounded :
  forall (env : Env) (w : World),
    let out := _syncTransactions env w in
    let n := length (pendingIds w) in
    length (List.filter is_any_attempt (run_trace out)) <= 3 * n /\
    now w <= now (run_world out) /\
    now (run_world out) <= now w + 2 * retryDelay * n.
Proof.
  intros env w out n. subst out n.
  destruct (_syncTransactions_summary env w)
    as (w1 & t & -> & _ & _ & _ & _ & _ & _ & _ & Hlo & Hhi & Hcount & _).
  unfold run_world, run_trace. cbn [fst snd].
  change (maxRetries - 1) with 2 in Hhi. change maxRetries with 3 in Hcount.
  split; [exact Hcount|]. split; [exact Hlo|exact Hhi].
Qed.

(** X13. The [while] loop of the drain pass ends: [maxRetries] rounds
    are enough from [retries = 0], a larger bound on the rounds gives the
    same result, the same world and the same trace, and the loop gives
    back a retry count of at most [maxRetries]. *)
Theorem retry_loop_terminates :
  forall (env : Env) (fuel : nat) (transaction : Transaction) (w : World),
    maxRetries <= fuel ->
    retryLoop env fuel transaction 0 None w =
      retryLoop env maxRetries transaction 0 None w /\
    exists retries lastError w1 t,
      retryLoop env maxRetries transaction 0 None w =
        (Ok (retries, lastError), w1, t) /\
      retries <= maxRetries.
Proof.
  intros env fuel tx w Hfuel. split.
  - rewrite (retryLoop_fuel env fuel tx 0 None w) by lia.
    rewrite (retryLoop_fuel env maxRetries tx 0 None w) by lia.
    reflexivity.
  - destruct (retryLoop_bounds env maxRetries tx 0 None w)
      as (k' & le' & w1 & t & Hrun & Hk & _).
    exists k', le', w1, t. split; [exact Hrun|]. lia.
Qed.

Lemma retry_loop_terminates_witness :
  retryLoop envT1Down 10 T1 0 None twoPending =
    retryLoop envT1Down maxRetries T1 0 None twoPending.
Proof.
  apply (retry_loop_terminates envT1Down 10 T1 twoPending).
  unfold maxRetries. lia.
Defined.

(** One transaction of the pass, when the Remote Store accepts it. *)
Lemma syncOne_accepted env tx w :
  failed (env_response env (calls w) (tx_id tx)) = false ->
  exists w1,
    syncOne env (Some tx) w =
      (Ok tt, w1,
       [EvAttempt (tx_id tx) 1; EvGetUser true;
        EvUpsertTransaction (tx_id tx) true; EvUpsertItems (tx_id tx) true]) /\
    db w1 = removed_pending (tx_id tx) (db w) /\
    confirmed w1 = tx_id tx :: confirmed w /\
    is_Some (r_transactions (supabase w1) !! tx_id tx).
Proof.
  intros Hf.
  assert (Hrow : is_Some (r_transactions
            (supabase (run_world (retryBody env tx 0 w))) !! tx_id tx)).
  { apply failed_false in Hf as ([u Hu] & Ht & Hi).
    unfold retryBody, uploadTransaction. run_m.
    rewrite Hu, Ht. simpl. rewrite Hi. simpl.
    rewrite lookup_insert_eq. eauto. }
  destruct (retryBody_ok env tx 0 w Hf)
    as (w1 & Hrun & Hp & Ht & Hs & _ & Hc & _).
  unfold syncOne. unfold bind at 1.
  change (retryLoop env maxRetries tx 0 None w)
    with (retryLoop env 3 tx 0 None w).
  rewrite retryLoop_unfold by reflexivity. unfold bind.
  rewrite Hrun in Hrow |- *. cbn. exists w1.
  split; [reflexivity|]. split; [|split; [exact Hc|exact Hrow]].
  unfold removed_pending. destruct (db w1); simpl in *. congruence.
Qed.

Lemma closed_confirmed id : drain_closed (fun w => id ∈ confirmed w).
Proof.
  constructor; simpl; intros; try assumption.
  apply elem_of_cons. right. assumption.
Qed.

Lemma closed_not_pending id : drain_closed (fun w => id ∉ pendingIds w).
Proof.
  constructor; simpl; intros; try assumption.
  unfold pendingIds, removed_pending, Db.remove_pending. simpl.
  intros Hin. apply list_elem_of_filter in Hin as [_ Hin]. contradiction.
Qed.

Lemma closed_row id :
  drain_closed (fun w => is_Some (r_transactions (supabase w) !! id)).
Proof.
  constructor; simpl; intros; try assumption.
  destruct (decide (row_id row = id)) as [->|Hne].
  - rewrite lookup_insert_eq. eauto.
  - rewrite lookup_insert_ne by exact Hne. assumption.
Qed.

(** X14. Delivery at the first attempt. In a drain pass, a pending
    transaction that the Remote Store accepts is attempted exactly once,
    with no retry; after the pass its id is out of the pending set, its
    delivery is confirmed, its status is ['synced'], its row is in the
    Remote Store and its record is still in the Local Store. *)
Theorem drain_delivers_accepted :
  forall (env : Env) (transaction : Transaction) (w : World),
    keyed w ->
    NoDup (pendingIds w) ->
    tx_id transaction ∈ pendingIds w ->
    transactions (db w) !! tx_id transaction = Some transaction ->
    always_accepts env (tx_id transaction) ->
    let id := tx_id transaction in
    let out := _syncTransactions env w in
    List.filter (is_attempt id) (run_trace out) = [EvAttempt id 1] /\
    (id ∉ pendingIds (run_world out)) /\
    (id ∈ confirmed (run_world out)) /\
    run_result (getTransactionSyncStatus id (run_world out)) = Ok Synced /\
    is_Some (r_transactions (supabase (run_world out)) !! id) /\
    transactions (db (run_world out)) !! id = Some transaction.
Proof.
  intros env tx w Hkey Hnd Hin Htx Hacc id out. subst out id.
  rewrite _syncTransactions_run.
  destruct (list_elem_of_split _ _ Hin) as (ids1 & ids2 & Hsplit).
  rewrite Hsplit in Hnd |- *.
  apply NoDup_app in Hnd as (_ & Hnot1 & Hnd2).
  apply NoDup_cons in Hnd2 as [Hnot2 _].
  assert (Hother : forall ids, tx_id tx ∉ ids ->
            forall tx', Some tx' ∈ map (fun k => transactions (db w) !! k) ids ->
                        tx_id tx' <> tx_id tx).
  { intros ids Hnot tx' H.
    apply list_elem_of_In, in_map_iff in H as (k & Hk & Hkin).
    apply Hkey in Hk. apply list_elem_of_In in Hkin.
    intros Heq. apply Hnot. congruence. }
  assert (Hnot1' : tx_id tx ∉ ids1).
  { intros H. eapply Hnot1; [exact H|left]. }
  rewrite map_app, forM__app. cbn [map forM_]. rewrite Htx.
  unfold bind.
  destruct (drain_foreign env (tx_id tx) _ w (Hother ids1 Hnot1'))
    as (w1 & t1 & -> & Hfor1 & Htx1 & _).
  destruct (syncOne_accepted env tx w1 (Hacc _))
    as (w2 & -> & Hdb2 & Hc2 & Hrow2).
  set (l2 := map (fun k => transactions (db w) !! k) ids2).
  pose proof (closed_drain env _ (closed_confirmed (tx_id tx)) l2 w2) as Hc3.
  pose proof (closed_drain env _ (closed_not_pending (tx_id tx)) l2 w2) as Hp3.
  pose proof (closed_drain env _ (closed_row (tx_id tx)) l2 w2) as Hr3.
  destruct (drain_foreign env (tx_id tx) l2 w2 (Hother ids2 Hnot2))
    as (w3 & t3 & Hrun3 & Hfor3 & Htx3 & _).
  rewrite Hrun3 in Hc3, Hp3, Hr3 |- *.
  unfold run_result, run_trace, run_world in *. cbn [fst snd] in *.
  assert (Hpend : tx_id tx ∉ pendingIds w3).
  { apply Hp3. unfold pendingIds. rewrite Hdb2.
    unfold removed_pending, Db.remove_pending. simpl.
    intros H. apply list_elem_of_filter in H as [H _]. apply H. reflexivity. }
  split.
  { rewrite !List.filter_app.
    rewrite (foreign_no_attempt _ _ Hfor1), (foreign_no_attempt _ _ Hfor3).
    simpl. rewrite bool_decide_eq_true_2 by reflexivity. reflexivity. }
  split; [exact Hpend|].
  split; [apply Hc3; rewrite Hc2; left|].
  split.
  { unfold getTransactionSyncStatus, Db.getSyncState, bind, gets.
    unfold pendingIds in Hpend. rewrite bool_decide_eq_false_2 by exact Hpend.
    reflexivity. }
  split; [apply Hr3, Hrow2|].
  rewrite Htx3, Hdb2. simpl. rewrite Htx1. exact Htx.
Qed.

Lemma drain_delivers_accepted_witness :
  ("T2" ∉ pendingIds (run_world (_syncTransactions envT1Down twoPending))) /\
  List.filter (is_attempt "T2")
    (run_trace (_syncTransactions envT1Down twoPending)) = [EvAttempt "T2" 1].
Proof.
  pose proof (invariant_reachable envDown twoPending twoPending_reachable)
    as (Hk & Hnd & _).
  assert (Hin : tx_id T2 ∈ pendingIds twoPending).
  { change (pendingIds twoPending) with ["T1"; "T2"]. right. left. }
  assert (Hlk : transactions (db twoPending) !! tx_id T2 = Some T2).
  { vm_compute. reflexivity. }
  assert (Hacc : always_accepts envT1Down (tx_id T2)).
  { intros n. reflexivity. }
  pose proof (drain_delivers_accepted envT1Down T2 twoPending
                Hk Hnd Hin Hlk Hacc) as H.
  cbv zeta in H. destruct H as (Hcount & Hpend & _).
  split; assumption.
Defined.

(** X15. A pending id without a record. When an id of the pending set has
    no record in the Local Store, the drain pass makes no attempt for it
    and leaves it in the pending set: no pass ever takes it out, and its
    status stays ['pending']. *)
Theorem drain_skips_missing_record :
  forall (env : Env) (id : string) (w : World),
    keyed w ->
    id ∈ pendingIds w ->
    transactions (db w) !! id = None ->
    let out := _syncTransactions env w in
    Forall (foreign id) (run_trace out) /\
    id ∈ pendingIds (run_world out) /\
    transactions (db (run_world out)) !! id = None /\
    run_result (getTransactionSyncStatus id (run_world out)) = Ok Pending.
Proof.
  intros env id w Hkey Hin Hnone out. subst out.
  rewrite _syncTransactions_run.
  destruct (drain_foreign env id
              (map (fun k => transactions (db w) !! k) (pendingIds w)) w)
    as (w1 & t1 & -> & Hfor & Htx & Hpend).
  { intros tx H. apply list_elem_of_In, in_map_iff in H as (k & Hk & _).
    intros Heq. pose proof (Hkey _ _ Hk) as Hid. congruence. }
  unfold run_result, run_trace, run_world. simpl.
  split; [exact Hfor|]. split; [exact (Hpend Hin)|].
  split; [rewrite Htx; exact Hnone|].
  unfold getTransactionSyncStatus, Db.getSyncState, bind, gets.
  specialize (Hpend Hin). unfold pendingIds in Hpend.
  rewrite bool_decide_eq_true_2 by exact Hpend. reflexivity.
Qed.

Lemma orphanPending_keyed : keyed orphanPending.
Proof.
  intros k t H. apply (proj1 (invariant_reachable envDown t1Pending
    (reach_step envDown fresh_ids _ (OpSaveTransaction T1)
       (reach_initial envDown fresh_ids true false emptyRemote) eq_refl))).
  exact H.
Defined.

Lemma drain_skips_missing_record_witness :
  "T9" ∈ pendingIds (run_world (_syncTransactions envUp orphanPending)) /\
  pendingIds (run_world (_syncTransactions envUp orphanPending)) = ["T9"].
Proof.
  assert (Hin : "T9" ∈ pendingIds orphanPending).
  { change (pendingIds orphanPending) with ["T1"; "T9"]. right. left. }
  assert (Hnone : transactions (db orphanPending) !! "T9" = None).
  { vm_compute. reflexivity. }
  pose proof (drain_skips_missing_record envUp "T9" orphanPending
                orphanPending_keyed Hin Hnone) as H.
  cbv zeta in H. destruct H as (_ & Hpend & _).
  split; [exact Hpend|]. vm_compute. reflexivity.
Defined.

(** The pass over the transactions of [ids], when the Remote Store
    accepts every delivery: exactly the ids of [ids] leave the pending
    set. *)
Lemma drain_accepted_pending env (T : gmap string Transaction) ids :
  (forall n id, failed (env_response env n id) = false) ->
  (forall id, id ∈ ids -> exists tx, T !! id = Some tx /\ tx_id tx = id) ->
  forall w p,
    p ∈ pendingIds (run_world (forM_ (map (fun k => T !! k) ids) (syncOne env) w))
    <-> p ∈ pendingIds w /\ p ∉ ids.
Proof.
  intros Hacc. induction ids as [|id ids IH]; intros Hrec w p.
  - cbn. rewrite elem_of_nil. tauto.
  - destruct (Hrec id ltac:(left)) as (tx & Hlk & Hid).
    cbn [map forM_]. rewrite Hlk. unfold bind, run_world.
    destruct (syncOne_accepted env tx w (Hacc _ _)) as (w1 & -> & Hdb & _).
    specialize (IH (fun k Hk => Hrec k ltac:(right; exact Hk)) w1 p).
    unfold run_world in IH.
    destruct (forM_ _ _ w1) as [[r w2] t2]. cbn [fst snd] in *.
    rewrite IH. unfold pendingIds at 1. rewrite Hdb.
    unfold removed_pending, Db.remove_pending.
    cbn [syncState pendingTransactions].
    rewrite list_elem_of_filter, not_elem_of_cons, Hid.
    unfold pendingIds. tauto.
Qed.

(** X16. When the Remote Store accepts every delivery and every pending
    id has its record in the Local Store, one drain pass empties the
    pending set, and the delivery of every id that was pending is
    confirmed. *)
Theorem drain_empties_pending_set :
  forall (env : Env) (w : World),
    keyed w ->
    (forall id, id ∈ pendingIds w -> is_Some (transactions (db w) !! id)) ->
    (forall n id, failed (env_response env n id) = false) ->
    let out := _syncTransactions env w in
    pendingIds (run_world out) = [] /\
    forall id, id ∈ pendingIds w -> id ∈ confirmed (run_world out).
Proof.
  intros env w Hkey Hrec Hacc out. subst out.
  rewrite _syncTransactions_run.
  assert (Hrec' : forall id, id ∈ pendingIds w ->
            exists tx, transactions (db w) !! id = Some tx /\ tx_id tx = id).
  { intros id Hin. destruct (Hrec id Hin) as [tx Htx].
    exists tx. split; [exact Htx|]. apply (Hkey _ _ Htx). }
  split.
  - apply elem_of_nil_inv. intros p Hp.
    apply (drain_accepted_pending env _ _ Hacc Hrec' w p) in Hp.
    destruct Hp as [Hp Hn]. contradiction.
  - intros id Hin.
    destruct (list_elem_of_split _ _ Hin) as (ids1 & ids2 & Hsplit).
    rewrite Hsplit, map_app, forM__app. cbn [map forM_].
    destruct (Hrec' id Hin) as (tx & Hlk & Hid). rewrite Hlk.
    unfold bind, run_world.
    destruct (drain_frame env (map (fun k => transactions (db w) !! k) ids1) w)
      as (w1 & t1 & -> & _).
    destruct (syncOne_accepted env tx w1 (Hacc _ _)) as (w2 & -> & _ & Hc2 & _).
    pose proof (closed_drain env _ (closed_confirmed id)
                  (map (fun k => transactions (db w) !! k) ids2) w2) as Hc3.
    unfold run_world in Hc3.
    destruct (forM_ _ _ w2) as [[r w3] t3]. cbn [fst snd] in *.
    apply Hc3. rewrite Hc2, Hid. left.
Qed.

Lemma drain_empties_pending_set_witness :
  pendingIds (run_world (_syncTransactions envUp twoPending)) = [].
Proof.
  pose proof (invariant_reachable envDown twoPending twoPending_reachable)
    as (Hk & _ & Hpe & _).
  apply (drain_empties_pending_set envUp twoPending Hk).
  - intros id Hin. apply Hpe in Hin as [H _]. exact H.
  - intros n id. reflexivity.
Defined.

(** ** Delivering twice, in general *)

(** X17. Two accepted deliveries of one transaction, under the same
    user, leave the table of transaction rows as one delivery does, and
    add every line item a second time: the item rows after the second
    delivery are those after the first, followed by one new row per line
    item of the sale. *)
Theorem redelivery_in_general :
  forall (env : Env) (transaction : Transaction) (w : World),
    let id := tx_id transaction in
    let once := run_world (uploadTransaction env transaction w) in
    let twice := run_world (uploadTransaction env transaction once) in
    failed (env_response env (calls w) id) = false ->
    failed (env_response env (S (calls w)) id) = false ->
    resp_user (env_response env (calls w) id) =
      resp_user (env_response env (S (calls w)) id) ->
    r_transactions (supabase twice) = r_transactions (supabase once) /\
    map ir_payload (r_transaction_items (supabase twice)) =
      map ir_payload (r_transaction_items (supabase once)) ++
      map (toPayload id) (tx_items transaction) /\
    confirmed twice = id :: id :: confirmed w.
Proof.
  intros env tx w id once twice H1 H2 Hu. subst id once twice.
  apply failed_false in H1 as ([u1 Hu1] & Ht1 & Hi1).
  apply failed_false in H2 as ([u2 Hu2] & Ht2 & Hi2).
  rewrite Hu1, Hu2 in Hu. injection Hu as <-.
  assert (Hpay : forall n rows,
            map ir_payload (Supabase.number_rows n rows) = rows).
  { intros n rows. revert n. induction rows as [|r rows IH]; intros n;
      [reflexivity|]. cbn. rewrite IH. reflexivity. }
  unfold uploadTransaction. run_m.
  rewrite Hu1, Ht1. cbn. rewrite Hi1. cbn.
  rewrite Hu2, Ht2. cbn. rewrite Hi2. cbn.
  split; [apply insert_insert_eq|]. split; [|reflexivity].
  rewrite !map_app, !Hpay. reflexivity.
Qed.

Lemma redelivery_in_general_witness :
  map ir_payload
    (r_transaction_items
       (supabase (run_world (uploadTransaction envUp T1
          (run_world (uploadTransaction envUp T1
             (initial true true emptyRemote))))))) =
  [toPayload "T1" coffee; toPayload "T1" coffee].
Proof.
  pose proof (redelivery_in_general envUp T1 (initial true true emptyRemote))
    as H.
  cbv zeta in H. destruct (H eq_refl eq_refl eq_refl) as (_ & Hitems & _).
  rewrite Hitems. vm_compute. reflexivity.
Defined.

(** ** The stock trigger *)

Section StockTrigger.
Import Schema.

Lemma update_product_stock_effect NEW rows rows' :
  update_product_stock NEW rows = Some rows' ->
  map prod_id rows' = map prod_id rows /\
  map prod_price rows' = map prod_price rows /\
  forall id,
    stock_of id rows' =
      if String.eqb (pl_product_id (ir_payload NEW)) id
      then (fun stock => (stock - pl_quantity (ir_payload NEW))%Z)
             <$> stock_of id rows
      else stock_of id rows.
Proof.
  revert rows'. induction rows as [|p ps IH]; intros rows' H.
  - injection H as <-. repeat split. intros id. unfold stock_of. cbn.
    destruct (String.eqb _ _); reflexivity.
  - cbn [update_product_stock] in H.
    destruct (update_product_stock NEW ps) as [ps'|]; [|discriminate].
    destruct (IH ps' eq_refl) as (Hids & Hprices & Hstock).
    destruct (String.eqb_spec (prod_id p) (pl_product_id (ir_payload NEW)))
      as [Heq|Hne].
    + destruct (in_int4 _); [|discriminate]. injection H as <-.
      cbn [map with_stock prod_id prod_price]. rewrite Hids, Hprices.
      repeat split. intros id. unfold stock_of in *. cbn [List.find prod_id with_stock].
      rewrite <- Heq.
      destruct (String.eqb (prod_id p) id) eqn:Hid; [reflexivity|].
      specialize (Hstock id). rewrite <- Heq, Hid in Hstock. exact Hstock.
    + injection H as <-. cbn [map]. rewrite Hids, Hprices.
      repeat split. intros id. unfold stock_of in *. cbn [List.find].
      destruct (String.eqb_spec (prod_id p) id) as [Hid|Hid].
      * subst id. apply String.eqb_neq in Hne.
        rewrite String.eqb_sym, Hne. reflexivity.
      * apply Hstock.
Qed.

Lemma update_product_stock_error NEW rows :
  update_product_stock NEW rows = None <->
  Exists (fun p =>
            prod_id p = pl_product_id (ir_payload NEW) /\
            in_int4 (prod_stock p - pl_quantity (ir_payload NEW)) = false)
    rows.
Proof.
  induction rows as [|p ps IH]; cbn [update_product_stock].
  - split; [discriminate|]. intros H. apply Exists_nil in H. contradiction.
  - rewrite Exists_cons.
    destruct (update_product_stock NEW ps) as [ps'|].
    + destruct (String.eqb_spec (prod_id p) (pl_product_id (ir_payload NEW)))
        as [Heq|Hne].
      * destruct (in_int4 _) eqn:Hr.
        -- split; [discriminate|]. intros [[_ H]|H]; [congruence|].
           apply IH in H. discriminate.
        -- split; auto.
      * split; [discriminate|]. intros [[H _]|H]; [contradiction|].
        apply IH in H. discriminate.
    + split; [|reflexivity]. intros _. right. apply IH. reflexivity.
Qed.

(** X18. The stock trigger. When [update_product_stock] succeeds, the
    rows of [products] keep their ids and prices, the stock of the product
    of the new item row is lowered by the quantity of the row, also below
    zero, and the stock of every other product is as before. It fails
    exactly when a lowered stock would leave the range of the column. *)
Theorem stock_trigger_lowers_stock :
  forall (NEW : ItemRow) (rows : list Product),
    (update_product_stock NEW rows = None <->
     Exists (fun p =>
               prod_id p = pl_product_id (ir_payload NEW) /\
               in_int4 (prod_stock p - pl_quantity (ir_payload NEW)) = false)
       rows) /\
    forall rows',
      update_product_stock NEW rows = Some rows' ->
      map prod_id rows' = map prod_id rows /\
      map prod_price rows' = map prod_price rows /\
      forall id,
        stock_of id rows' =
          if String.eqb (pl_product_id (ir_payload NEW)) id
          then (fun stock => (stock - pl_quantity (ir_payload NEW))%Z)
                 <$> stock_of id rows
          else stock_of id rows.
Proof.
  intros NEW rows. split.
  - apply update_product_stock_error.
  - intros rows'. apply update_product_stock_effect.
Qed.

Lemma stock_trigger_lowers_stock_witness :
  stock_of "P1" [productP1] = Some 10%Z /\
  exists rows',
    update_product_stock
      {| ir_id := 0; ir_payload :=
           {| pl_transaction_id := "T1"; pl_product_id := "P1";
              pl_name := "Coffee"; pl_price := 299; pl_quantity := 12 |} |}
      [productP1] = Some rows' /\
    stock_of "P1" rows' = Some (-2)%Z.
Proof.
  split; [reflexivity|]. eexists. split; [reflexivity|].
  pose proof (stock_trigger_lowers_stock
    {| ir_id := 0; ir_payload :=
         {| pl_transaction_id := "T1"; pl_product_id := "P1";
            pl_name := "Coffee"; pl_price := 299; pl_quantity := 12 |} |}
    [productP1]) as (_ & H).
  destruct (H _ eq_refl) as (_ & _ & Hstock).
  rewrite (Hstock "P1"). reflexivity.
Defined.

Lemma after_insert_effect inserted :
  forall rows rows',
    after_transaction_item_insert inserted rows = Some rows' ->
    map prod_id rows' = map prod_id rows /\
    forall id,
      stock_of id rows' =
        (fun stock => (stock - quantity_sold id (map ir_payload inserted))%Z)
          <$> stock_of id rows.
Proof.
  induction inserted as [|NEW rest IH]; intros rows rows' H.
  - injection H as <-. split; [reflexivity|]. intros id. cbn.
    destruct (stock_of id rows) as [st|]; [|reflexivity].
    cbn. f_equal. lia.
  - cbn [after_transaction_item_insert] in H.
    destruct (update_product_stock NEW rows) as [rows1|] eqn:H1; [|discriminate].
    destruct (update_product_stock_effect _ _ _ H1) as (Hids1 & _ & Hst1).
    destruct (IH _ _ H) as (Hids & Hst).
    split; [congruence|]. intros id. rewrite Hst, Hst1.
    cbn [map quantity_sold].
    destruct (String.eqb _ id); destruct (stock_of id rows) as [st|];
      cbn; try reflexivity; f_equal; lia.
Qed.

Lemma payload_number_rows n rows :
  map ir_payload (Supabase.number_rows n rows) = rows.
Proof.
  revert n. induction rows as [|r rows IH]; intros n; [reflexivity|].
  cbn. rewrite IH. reflexivity.
Qed.

Lemma insert_transaction_items_effect uid rows s s' :
  insert_transaction_items uid rows s = Some s' ->
  r_transactions s' = r_transactions (Supabase.put_items rows s) /\
  r_transaction_items s' = r_transaction_items (Supabase.put_items rows s) /\
  r_next_item_id s' = r_next_item_id (Supabase.put_items rows s) /\
  map prod_id (r_products s') = map prod_id (r_products s) /\
  forall id,
    stock_of id (r_products s') =
      (fun stock => (stock - quantity_sold id rows)%Z)
        <$> stock_of id (r_products s).
Proof.
  unfold insert_transaction_items. intros H.
  destruct (forallb _ rows); [|discriminate].
  destruct (after_transaction_item_insert _ _) as [rows'|] eqn:Ha;
    [|discriminate].
  injection H as <-. cbn.
  destruct (after_insert_effect _ _ _ Ha) as (Hids & Hst).
  rewrite payload_number_rows in Hst. repeat split; assumption.
Qed.

(** The write that the engine's model does on an upsert of item rows is
    the insertion of the schema, trigger included, whenever the schema
    accepts the rows. *)
Lemma update_product_stock_sell NEW rows rows' :
  update_product_stock NEW rows = Some rows' ->
  rows' = Supabase.sell rows (ir_payload NEW).
Proof.
  revert rows'. induction rows as [|p ps IH]; intros rows' H.
  - injection H as <-. reflexivity.
  - cbn [update_product_stock] in H.
    destruct (update_product_stock NEW ps) as [ps'|]; [|discriminate].
    rewrite (IH ps' eq_refl) in H.
    unfold Supabase.sell. cbn [map]. unfold Supabase.lower_stock at 1.
    destruct (String.eqb _ _).
    + destruct (in_int4 _); [|discriminate]. injection H as <-. reflexivity.
    + injection H as <-. reflexivity.
Qed.

Lemma insert_transaction_items_put_items uid rows s s' :
  insert_transaction_items uid rows s = Some s' ->
  s' = Supabase.put_items rows s.
Proof.
  unfold insert_transaction_items. intros H.
  destruct (forallb _ rows); [|discriminate].
  destruct (after_transaction_item_insert _ _) as [rows'|] eqn:Ha;
    [|discriminate].
  injection H as <-. unfold Supabase.put_items. f_equal.
  rewrite <- (payload_number_rows (r_next_item_id s) rows).
  revert Ha. generalize (Supabase.number_rows (r_next_item_id s) rows).
  generalize (r_products s). intros ps inserted. revert ps rows'.
  induction inserted as [|NEW rest IH]; intros ps rows' Ha.
  - injection Ha as <-. reflexivity.
  - cbn [after_transaction_item_insert] in Ha.
    destruct (update_product_stock NEW ps) as [ps1|] eqn:H1; [|discriminate].
    apply update_product_stock_sell in H1. subst ps1.
    cbn [map foldl]. apply IH, Ha.
Qed.

(** X19. Inserting item rows with the constraints and the trigger of the
    schema. When the insertion succeeds, the tables of transactions and
    of item rows are what the upsert of the engine's model gives, the
    catalogue keeps its ids, and the stock of every product is lowered by
    the units of that product on the inserted rows. The insertion fails
    when a row names a transaction that is not there or is another
    user's, or a product that is not there. *)
Theorem insert_fires_stock_trigger :
  forall (uid : string) (rows : list ItemPayload) (s : RemoteStore),
    (Exists (fun row =>
               r_transactions s !! pl_transaction_id row = None \/
               (exists transaction,
                  r_transactions s !! pl_transaction_id row = Some transaction /\
                  row_user_id transaction <> uid) \/
               pl_product_id row ∉ map prod_id (r_products s)) rows ->
     insert_transaction_items uid rows s = None) /\
    forall s',
      insert_transaction_items uid rows s = Some s' ->
      r_transactions s' = r_transactions (Supabase.put_items rows s) /\
      r_transaction_items s' =
        r_transaction_items (Supabase.put_items rows s) /\
      r_next_item_id s' = r_next_item_id (Supabase.put_items rows s) /\
      map prod_id (r_products s') = map prod_id (r_products s) /\
      forall id,
        stock_of id (r_products s') =
          (fun stock => (stock - quantity_sold id rows)%Z)
            <$> stock_of id (r_products s).
Proof.
  intros uid rows s. split.
  - intros Hex. unfold insert_transaction_items.
    assert (Hfalse : forallb (row_accepted uid s) rows = false).
    { apply not_true_is_false. intros Hall.
      rewrite forallb_forall in Hall.
      apply Exists_exists in Hex as (row & Hin & Hbad).
      apply list_elem_of_In in Hin. specialize (Hall row Hin).
      unfold row_accepted in Hall.
      apply andb_prop in Hall as [Hall _]. apply andb_prop in Hall as [Hall _].
      apply andb_prop in Hall as [Ht Hp].
      apply bool_decide_eq_true in Hp.
      destruct Hbad as [Hbad|[(tr & Hlk & Hu)|Hbad]].
      + rewrite Hbad in Ht. discriminate.
      + rewrite Hlk in Ht. apply bool_decide_eq_true in Ht. contradiction.
      + contradiction. }
    rewrite Hfalse. reflexivity.
  - intros s'. apply insert_transaction_items_effect.
Qed.

Lemma insert_fires_stock_trigger_witness :
  insert_transaction_items "U2" [toPayload "T1" coffee] remoteP1 = None /\
  exists s',
    insert_transaction_items "U1" [toPayload "T1" coffee] remoteP1 = Some s' /\
    stock_of "P1" (r_products s') = Some 8%Z.
Proof.
  pose proof (insert_fires_stock_trigger "U2" [toPayload "T1" coffee] remoteP1)
    as (Hnone & _).
  pose proof (insert_fires_stock_trigger "U1" [toPayload "T1" coffee] remoteP1)
    as (_ & H).
  split.
  - apply Hnone. apply Exists_cons_hd. right. left.
    eexists. split; [vm_compute; reflexivity|]. discriminate.
  - eexists. split; [vm_compute; reflexivity|].
    destruct (H _ ltac:(vm_compute; reflexivity)) as (_ & _ & _ & _ & Hst).
    rewrite (Hst "P1"). reflexivity.
Defined.

(** X20. With the trigger of the schema, a sale delivered twice takes the
    stock down twice: when the same item rows are inserted a second time,
    as the retry of the engine does, the table holds every row twice and
    the stock of every product is lowered by twice the units sold. *)
Theorem second_insert_lowers_stock_again :
  forall (uid : string) (rows : list ItemPayload) (s s1 s2 : RemoteStore),
    insert_transaction_items uid rows s = Some s1 ->
    insert_transaction_items uid rows s1 = Some s2 ->
    map ir_payload (r_transaction_items s2) =
      map ir_payload (r_transaction_items s) ++ rows ++ rows /\
    forall id,
      stock_of id (r_products s2) =
        (fun stock => (stock - 2 * quantity_sold id rows)%Z)
          <$> stock_of id (r_products s).
Proof.
  intros uid rows s s1 s2 H1 H2.
  destruct (insert_transaction_items_effect _ _ _ _ H1)
    as (_ & Hi1 & _ & _ & Hs1).
  destruct (insert_transaction_items_effect _ _ _ _ H2)
    as (_ & Hi2 & _ & _ & Hs2).
  split.
  - rewrite Hi2. cbn. rewrite Hi1. cbn.
    rewrite !map_app, !payload_number_rows, <- app_assoc. reflexivity.
  - intros id. rewrite Hs2, Hs1.
    destruct (stock_of id (r_products s)) as [st|]; cbn; [|reflexivity].
    f_equal. lia.
Qed.

Lemma second_insert_lowers_stock_again_witness :
  exists s1 s2,
    insert_transaction_items "U1" [toPayload "T1" coffee] remoteP1 = Some s1 /\
    insert_transaction_items "U1" [toPayload "T1" coffee] s1 = Some s2 /\
    stock_of "P1" (r_products s2) = Some 6%Z /\
    length (r_transaction_items s2) = 2.
Proof.
  eexists _, _. split; [vm_compute; reflexivity|].
  split; [vm_compute; reflexivity|].
  split; [|vm_compute; reflexivity].
  match goal with
  | |- stock_of _ (r_products ?s2) = _ =>
      pose proof (second_insert_lowers_stock_again "U1"
                    [toPayload "T1" coffee] remoteP1 _ s2
                    ltac:(vm_compute; reflexivity)
                    ltac:(vm_compute; reflexivity)) as (_ & Hst)
  end.
  rewrite (Hst "P1"). reflexivity.
Defined.

End StockTrigger.

(** ** The component [SyncManager] *)

Section Component.
Import SyncManager.

Lemma loadSyncStatus_run u w :
  loadSyncStatus u w =
    (Ok tt,
     (if (0 <? length (pendingIds w))%nat
      then setTransactions
             (List.filter
                (fun tx => bool_decide (tx_id tx ∈ pendingIds w))
                (map_to_list (transactions (db w))).*2)
             (setPendingTransactions (pendingIds w) u)
      else setPendingTransactions (pendingIds w) u),
     w, []).
Proof.
  unfold loadSyncStatus, catchH, bindH, await, SyncManager.set, retH,
    getTransactions, Db.getSyncState, gets, pendingIds.
  cbn [fst snd].
  destruct (0 <? length (pendingTransactions (syncState (db w))))%nat;
    reflexivity.
Qed.

(** X21. What [loadSyncStatus] shows. It never raises and changes
    neither the world nor the status line. Afterwards the component holds
    the pending ids of the Local Store; when there is at least one, it
    holds exactly the stored transactions whose id is pending, and when
    there is none, the list of transactions it held before is left as it
    was. *)
Theorem loadSyncStatus_shows_pending :
  forall (u : State) (w : World),
    keyed w ->
    let out := loadSyncStatus u w in
    run_outcome out = Ok tt /\
    run_store out = w /\
    ui_status (run_state out) = ui_status u /\
    ui_pendingTransactions (run_state out) = pendingIds w /\
    (pendingIds w <> [] ->
       forall tx,
         tx ∈ ui_transactions (run_state out) <->
         transactions (db w) !! tx_id tx = Some tx /\ tx_id tx ∈ pendingIds w) /\
    (pendingIds w = [] ->
       ui_transactions (run_state out) = ui_transactions u).
Proof.
  intros u w Hkey out. subst out. rewrite loadSyncStatus_run.
  unfold run_outcome, run_store, run_state. cbn [fst snd].
  split; [reflexivity|]. split; [reflexivity|].
  destruct (pendingIds w) as [|id ids] eqn:Hp; cbn [length Nat.ltb Nat.leb].
  - split; [reflexivity|]. split; [reflexivity|].
    split; [intros H; contradiction|]. intros _. reflexivity.
  - split; [reflexivity|]. split; [reflexivity|]. split; [|discriminate].
    intros _ tx. cbn [ui_transactions setTransactions].
    split.
    + intros H. apply list_elem_of_In, filter_In in H as [Hin Hpend].
      apply bool_decide_eq_true in Hpend.
      apply list_elem_of_In, list_elem_of_fmap in Hin as ([k t] & -> & Hin).
      cbn [snd] in *. apply elem_of_map_to_list in Hin.
      pose proof (Hkey _ _ Hin) as Hk. subst k. split; assumption.
    + intros [Hlk Hpend]. apply list_elem_of_In, filter_In. split.
      * apply list_elem_of_In, list_elem_of_fmap.
        exists (tx_id tx, tx). split; [reflexivity|].
        apply elem_of_map_to_list. exact Hlk.
      * apply bool_decide_eq_true. exact Hpend.
Qed.

Lemma loadSyncStatus_shows_pending_witness :
  ui_pendingTransactions (run_state (loadSyncStatus mounted twoPending)) =
    ["T1"; "T2"] /\
  T2 ∈ ui_transactions (run_state (loadSyncStatus mounted twoPending)).
Proof.
  pose proof (invariant_reachable envDown twoPending twoPending_reachable)
    as (Hk & _).
  pose proof (loadSyncStatus_shows_pending mounted twoPending Hk) as H.
  cbv zeta in H. destruct H as (_ & _ & _ & Hp & Htx & _).
  split; [exact Hp|].
  apply Htx.
  - discriminate.
  - split; [vm_compute; reflexivity|].
    change (pendingIds twoPending) with ["T1"; "T2"]. right. left.
Defined.

(** X22. The button "Sync Pending Transactions" always reports success.
    Whatever the state of the service, the pending set and the answers of
    the Remote Store, [handleSyncTransactions] runs [sync], does not
    raise, and leaves the status "Transactions synced successfully!" with
    the loading flag cleared, also when [sync] was skipped or no delivery
    succeeded; the pending ids it then shows are those of the Local
    Store after the pass. *)
Theorem handleSyncTransactions_reports_success :
  forall (env : Env) (u : State) (w : World),
    let out := handleSyncTransactions env u w in
    run_outcome out = Ok tt /\
    ui_status (run_state out) = "Transactions synced successfully!" /\
    ui_isLoading (run_state out) = false /\
    run_store out = run_world (sync env w) /\
    run_events out = run_trace (sync env w) /\
    ui_pendingTransactions (run_state out) = pendingIds (run_store out).
Proof.
  intros env u w out. subst out.
  pose proof (sync_result env w) as Hok.
  unfold handleSyncTransactions, finallyH, catchH, bindH, await,
    SyncManager.set.
  unfold run_result, run_world, run_trace in *.
  destruct (sync env w) as [[r w1] t]. cbn [fst snd] in Hok. subst r.
  rewrite loadSyncStatus_run.
  unfold run_outcome, run_store, run_state, run_events. cbn [fst snd].
  rewrite !app_nil_r.
  destruct (0 <? length (pendingIds w1))%nat; repeat split.
Qed.

Lemma handleSyncTransactions_reports_success_witness :
  ui_status (run_state
    (handleSyncTransactions envDown mounted
       (run_world (onOffline twoPending)))) =
    "Transactions synced successfully!" /\
  ui_pendingTransactions (run_state
    (handleSyncTransactions envDown mounted
       (run_world (onOffline twoPending)))) = ["T1"; "T2"].
Proof.
  pose proof (handleSyncTransactions_reports_success envDown mounted
                (run_world (onOffline twoPending)))
    as (_ & Hs & _ & _ & _ & Hp).
  split; [exact Hs|]. rewrite Hp. vm_compute. reflexivity.
Defined.

(** X23. The button "Force Full Product Sync". [handleForceSync] does
    not raise and clears the loading flag. When the query of the
    catalogue fails, the status is "Sync failed: Failed to fetch products:
    " followed by the message of the Remote Store, the Local Store is
    untouched and the pending ids shown are not reloaded. Otherwise the
    status is "Sync completed successfully!", also when the Remote Store
    gave no product and the cache was left as it was, and the pending ids
    shown are those of the Local Store. *)
Theorem handleForceSync_reports :
  forall (env : Env) (u : State) (w : World),
    let out := handleForceSync env u w in
    run_outcome out = Ok tt /\
    ui_isLoading (run_state out) = false /\
    run_store out = run_world (syncProducts env true w) /\
    match env_productsError env (calls w) with
    | Some message =>
        ui_status (run_state out) =
          "Sync failed: " +:+ ("Failed to fetch products: " +:+ message) /\
        ui_pendingTransactions (run_state out) = ui_pendingTransactions u /\
        db (run_store out) = db w
    | None =>
        ui_status (run_state out) = "Sync completed successfully!" /\
        ui_pendingTransactions (run_state out) = pendingIds w /\
        (r_products (supabase w) = [] ->
           products (db (run_store out)) = products (db w))
    end.
Proof.
  intros env u w out. subst out.
  unfold handleForceSync, finallyH, catchH, bindH, await, SyncManager.set,
    initDB, ret.
  rewrite syncProducts_force_run.
  unfold run_outcome, run_store, run_state, run_events, run_world.
  destruct (env_productsError env (calls w)) as [e|].
  - cbn [fst snd]. repeat split.
  - destruct (r_products (supabase w)) as [|p ps];
      rewrite loadSyncStatus_run; cbn [fst snd].
    + change (pendingIds (tick w)) with (pendingIds w).
      destruct (0 <? length (pendingIds w))%nat; repeat split.
    + match goal with
      | |- context [pendingIds ?w'] =>
          change (pendingIds w') with (pendingIds w)
      end.
      destruct (0 <? length (pendingIds w))%nat; repeat split;
        discriminate.
Qed.

Lemma handleForceSync_reports_witness :
  ui_status (run_state (handleForceSync envNoCatalogue mounted twoPending)) =
    "Sync failed: Failed to fetch products: network error" /\
  ui_status (run_state
    (handleForceSync envUp mounted (cachedAB emptyRemote))) =
    "Sync completed successfully!" /\
  products (db (run_store
    (handleForceSync envUp mounted (cachedAB emptyRemote)))) =
    products (db (cachedAB emptyRemote)).
Proof.
  pose proof (handleForceSync_reports envNoCatalogue mounted twoPending)
    as (_ & _ & _ & H1).
  pose proof (handleForceSync_reports envUp mounted (cachedAB emptyRemote))
    as (_ & _ & _ & H2).
  change (env_productsError envNoCatalogue (calls twoPending))
    with (Some "network error") in H1.
  change (env_productsError envUp (calls (cachedAB emptyRemote)))
    with (@None string) in H2.
  destruct H1 as (Hs1 & _). destruct H2 as (Hs2 & _ & Hp2).
  split; [exact Hs1|]. split; [exact Hs2|]. apply Hp2. reflexivity.
Defined.

End Component.

(** ** [saveTransaction] while other operations run *)

(** The two parts of [saveTransaction], run one after the other, are the
    method. *)
Lemma saveTransaction_split env tx w :
  saveTransaction env tx w =
    bind (saveTransaction_read tx) (saveTransaction_push env tx) w.
Proof.
  unfold saveTransaction, saveTransaction_read, saveTransaction_push. run_m.
  destruct (isOnline (syncState (db w))); [|reflexivity].
  match goal with
  | |- context [uploadTransaction env tx ?w'] =>
      destruct (uploadTransaction env tx w') as [[[[]|e] w1] t1]
  end; reflexivity.
Qed.

Lemma overlapped_alone env tx w :
  overlapped env tx [] w = run_world (saveTransaction env tx w).
Proof.
  rewrite saveTransaction_split. unfold overlapped, bind, run_world, run_result.
  unfold saveTransaction_read, bind, Db.saveTransaction, Db.getSyncState,
    modify, emit, gets. simpl.
  destruct (saveTransaction_push env tx _ _) as [[r w2] t2]. reflexivity.
Qed.

(** The second part, when the stored flag read before says online and the
    delivery succeeds. *)
Lemma saveTransaction_push_ok env tx state w :
  isOnline state = true ->
  failed (env_response env (calls w) (tx_id tx)) = false ->
  exists w1,
    saveTransaction_push env tx state w =
      (Ok tt, w1,
       [EvGetUser true; EvUpsertTransaction (tx_id tx) true;
        EvUpsertItems (tx_id tx) true]) /\
    products (db w1) = products (db w) /\
    transactions (db w1) = transactions (db w) /\
    syncState (db w1) = with_lastSync (now w) state /\
    confirmed w1 = tx_id tx :: confirmed w.
Proof.
  intros Hon Hf.
  destruct (uploadTransaction_ok env tx w Hf) as (w1 & Hrun & Hdb & _ & Hc & _).
  destruct (uploadTransaction_quiet env tx w) as (Hnow & _).
  rewrite Hrun in Hnow. unfold run_world in Hnow. cbn [fst snd] in Hnow.
  unfold saveTransaction_push. rewrite Hon. run_m. rewrite Hrun. simpl.
  eexists. split; [reflexivity|]. simpl. rewrite Hdb, Hnow.
  repeat split. exact Hc.
Qed.

(** X24. The success path of [saveTransaction] stores the SyncState that
    the method read before its exchanges with the Remote Store, with
    [lastSync] set. When other operations run while the push is awaited
    and the push then succeeds, the pending set after the call is the one
    found before it: an id that those operations had queued is dropped,
    an id that they had delivered and taken out is back, and the sale of
    the call is confirmed. Without operations in between, the two parts
    are [saveTransaction] itself. *)
Theorem saveTransaction_stores_the_state_it_read :
  forall (env : Env) (transaction : Transaction) (between : list Op)
         (w : World),
    let w1 := run_ops env between (run_world (saveTransaction_read transaction w)) in
    overlapped env transaction [] w =
      run_world (saveTransaction env transaction w) /\
    (isOnline (syncState (db w)) = true ->
     failed (env_response env (calls w1) (tx_id transaction)) = false ->
     syncState (db (overlapped env transaction between w)) =
       with_lastSync (now w1) (syncState (db w)) /\
     pendingIds (overlapped env transaction between w) = pendingIds w /\
     transactions (db (overlapped env transaction between w)) =
       transactions (db w1) /\
     confirmed (overlapped env transaction between w) =
       tx_id transaction :: confirmed w1).
Proof.
  intros env tx between w w1. split; [apply overlapped_alone|].
  intros Hon Hf.
  unfold overlapped.
  change (run_result (saveTransaction_read tx w)) with (Ok (syncState (db w))).
  cbv iota. fold w1.
  destruct (saveTransaction_push_ok env tx (syncState (db w)) w1 Hon Hf)
    as (w2 & -> & _ & Ht & Hs & Hc).
  unfold run_world, pendingIds. cbn [fst snd]. rewrite Hs.
  repeat split; assumption.
Qed.

Lemma saveTransaction_stores_the_state_it_read_witness :
  pendingIds lostRemoval = ["T1"] /\
  confirmed lostRemoval = ["T2"; "T1"].
Proof.
  pose proof (saveTransaction_stores_the_state_it_read envFlaky T2 [OpOnline]
    (run_world (saveTransaction envFlaky T1 (initial true true emptyRemote))))
    as (_ & H).
  destruct H as (_ & Hp & _ & Hc); [reflexivity|vm_compute; reflexivity|].
  split; [exact Hp|exact Hc].
Defined.

(** ** A delivery and the stock of the Remote Store *)

Lemma lower_stock_id row p :
  prod_id (Supabase.lower_stock row p) = prod_id p.
Proof. unfold Supabase.lower_stock. destruct (String.eqb _ _); reflexivity. Qed.

Lemma sell_stock_of row id ps :
  Schema.stock_of id (Supabase.sell ps row) =
    (if String.eqb (pl_product_id row) id
     then fun stock => (stock - pl_quantity row)%Z
     else fun stock => stock) <$> Schema.stock_of id ps.
Proof.
  unfold Schema.stock_of, Supabase.sell.
  induction ps as [|p ps IH]; cbn [map List.find].
  - destruct (String.eqb _ _); reflexivity.
  - rewrite lower_stock_id.
    destruct (String.eqb_spec (prod_id p) id) as [Hid|Hid]; [|exact IH].
    unfold Supabase.lower_stock. subst id.
    rewrite (String.eqb_sym (pl_product_id row)).
    destruct (String.eqb (prod_id p) (pl_product_id row)); reflexivity.
Qed.

Lemma foldl_sell_stock_of rows id : forall ps,
  Schema.stock_of id (foldl Supabase.sell ps rows) =
    (fun stock => (stock - Schema.quantity_sold id rows)%Z)
      <$> Schema.stock_of id ps.
Proof.
  induction rows as [|row rows IH]; intros ps.
  - cbn [foldl Schema.quantity_sold].
    destruct (Schema.stock_of id ps) as [st|]; cbn; [f_equal; lia|reflexivity].
  - cbn [foldl Schema.quantity_sold]. rewrite IH, sell_stock_of.
    destruct (String.eqb _ _); destruct (Schema.stock_of id ps) as [st|];
      cbn; try reflexivity; f_equal; lia.
Qed.

(** X25. A delivery that succeeds lowers the stock of the Remote Store:
    the catalogue keeps its products, and the stock of each product is
    lowered by the units of that product on the item rows of the sale, as
    the trigger of the schema does for every inserted row. A second
    delivery of the same sale lowers it again. *)
Theorem delivery_lowers_stock :
  forall (env : Env) (transaction : Transaction) (w : World),
    failed (env_response env (calls w) (tx_id transaction)) = false ->
    let w1 := run_world (uploadTransaction env transaction w) in
    let rows := map (toPayload (tx_id transaction)) (tx_items transaction) in
    map prod_id (r_products (supabase w1)) =
      map prod_id (r_products (supabase w)) /\
    (forall id,
       Schema.stock_of id (r_products (supabase w1)) =
         (fun stock => (stock - Schema.quantity_sold id rows)%Z)
           <$> Schema.stock_of id (r_products (supabase w))) /\
    (failed (env_response env (calls w1) (tx_id transaction)) = false ->
     forall id,
       Schema.stock_of id
         (r_products (supabase (run_world (uploadTransaction env transaction w1)))) =
         (fun stock => (stock - 2 * Schema.quantity_sold id rows)%Z)
           <$> Schema.stock_of id (r_products (supabase w))).
Proof.
  intros env tx w Hf w1 rows.
  assert (Hone : forall w0,
            failed (env_response env (calls w0) (tx_id tx)) = false ->
            r_products (supabase (run_world (uploadTransaction env tx w0))) =
              foldl Supabase.sell (r_products (supabase w0)) rows).
  { intros w0 H0. apply failed_false in H0 as ([u Hu] & Ht & Hi).
    unfold uploadTransaction. run_m. rewrite Hu. simpl. rewrite Ht. simpl.
    rewrite Hi. reflexivity. }
  subst w1. rewrite (Hone w Hf).
  split; [apply sell_ids|]. split; [intros id; apply foldl_sell_stock_of|].
  intros Hf2 id. rewrite (Hone _ Hf2), foldl_sell_stock_of, (Hone w Hf),
    foldl_sell_stock_of.
  destruct (Schema.stock_of id (r_products (supabase w))) as [st|];
    cbn; [f_equal; lia|reflexivity].
Qed.

Lemma delivery_lowers_stock_witness :
  Schema.stock_of "P1" (r_products remoteP1) = Some 10%Z /\
  Schema.stock_of "P1"
    (r_products (supabase (run_world
       (uploadTransaction envUp T1 (initial true true remoteP1))))) =
    Some 8%Z.
Proof.
  split; [reflexivity|].
  pose proof (delivery_lowers_stock envUp T1 (initial true true remoteP1)
                eq_refl) as H.
  cbv zeta in H. destruct H as (_ & Hstock & _).
  rewrite (Hstock "P1"). reflexivity.
Defined.
